(** * CV Builder: the block-tree renderer and its text utilities

    A shallow embedding of [TextProcessor] (text-processor script) and
    [CVRenderer] (renderer script), followed by the properties of the
    specification that were checked against them.

    Conventions of the embedding.
    - A JavaScript string is a [string]; a character stands for the UTF-16
      code unit of the same number, so the strings covered are those over
      U+0000..U+00FF.
    - Document data is JSON as [JSON.parse] produces it, plus [undefined]
      for what is absent.  Numbers are the integers that print in plain
      decimal.
    - An object keeps its own properties in creation order.
    - The DOM is a tree of elements; markup assigned through [innerHTML]
      is kept as the assigned string.
    - [console.warn] and exceptions are the two effects of the code: a
      computation yields the lines it logged and either a value or the
      exception it threw.
    - The call stack is taken as unbounded: blocks nest to any depth. *)

From Stdlib Require Import Strings.String Strings.Ascii Lists.List.
From Stdlib Require Import ZArith.ZArith NArith.NArith Bool.Bool Arith.PeanoNat.
From Stdlib Require Import micromega.Lia Numbers.DecimalString.
Import ListNotations.

Open Scope string_scope.
Open Scope list_scope.

Set Warnings "-register-all".

(* ------------------------------------------------------------------ *)
(** ** JavaScript strings *)

Module JsString.

Definition code (c : ascii) : N := N_of_ascii c.

Definition in_range (lo hi : N) (c : ascii) : bool :=
  ((lo <=? code c) && (code c <=? hi))%N.

Definition is_upper (c : ascii) : bool := in_range 65 90 c.
Definition is_lower (c : ascii) : bool := in_range 97 122 c.
Definition is_digit (c : ascii) : bool := in_range 48 57 c.
Definition is_alpha (c : ascii) : bool := is_upper c || is_lower c.

(** The class [\s], which is also what [trim] removes: TAB, LF, VT, FF, CR,
    SPACE and NO-BREAK SPACE are its members below U+0100. *)
Definition is_space (c : ascii) : bool :=
  in_range 9 13 c || (code c =? 32)%N || (code c =? 160)%N.

(** [String.prototype.toLowerCase], one code unit at a time: A-Z, and the
    Latin-1 capitals U+00C0..U+00DE except the multiplication sign. *)
Definition lower_char (c : ascii) : ascii :=
  if is_upper c || (in_range 192 222 c && negb (code c =? 215)%N)
  then ascii_of_N (code c + 32)
  else c.

Fixpoint map_chars (f : ascii -> ascii) (s : string) : string :=
  match s with
  | EmptyString => EmptyString
  | String c s' => String (f c) (map_chars f s')
  end.

Definition toLowerCase (s : string) : string := map_chars lower_char s.

(** ASCII lowercase, as the DOM applies it to element and attribute names. *)
Definition ascii_lower_char (c : ascii) : ascii :=
  if is_upper c then ascii_of_N (code c + 32) else c.

Definition ascii_lowercase (s : string) : string := map_chars ascii_lower_char s.

Fixpoint all_chars (p : ascii -> bool) (s : string) : bool :=
  match s with
  | EmptyString => true
  | String c s' => p c && all_chars p s'
  end.

Fixpoint drop (n : nat) (s : string) : string :=
  match n, s with
  | S k, String _ s' => drop k s'
  | _, _ => s
  end.

Fixpoint take (n : nat) (s : string) : string :=
  match n, s with
  | S k, String c s' => String c (take k s')
  | _, _ => EmptyString
  end.

(** Length of the longest prefix whose characters all satisfy [p]. *)
Fixpoint run_length (p : ascii -> bool) (s : string) : nat :=
  match s with
  | String c s' => if p c then S (run_length p s') else O
  | EmptyString => O
  end.

Fixpoint strip_prefix (pre s : string) : option string :=
  match pre, s with
  | EmptyString, _ => Some s
  | String a pre', String b s' =>
      if Ascii.eqb a b then strip_prefix pre' s' else None
  | String _ _, EmptyString => None
  end.

Fixpoint rev_onto (s acc : string) : string :=
  match s with
  | EmptyString => acc
  | String c s' => rev_onto s' (String c acc)
  end.

Definition rev (s : string) : string := rev_onto s EmptyString.

Definition trimStart (s : string) : string := drop (run_length is_space s) s.
Definition trimEnd (s : string) : string := rev (trimStart (rev s)).

(** [String.prototype.trim]. *)
Definition trim (s : string) : string := trimEnd (trimStart s).

(** [Array.prototype.join] on strings. *)
Fixpoint join (sep : string) (l : list string) : string :=
  match l with
  | [] => ""
  | [x] => x
  | x :: l' => x ++ sep ++ join sep l'
  end.

(** [Number.isSafeInteger]: the integers a Number holds exactly. *)
Definition safe_integer (n : Z) : bool :=
  (Z.abs n <=? 9007199254740991)%Z.

(** Number::toString for a safe integer: every digit is written.  Past
    that range a Number rounds, and from 1e21 on it is written with an
    exponent; what is stated about the text of a number is stated for
    safe integers. *)
Definition of_Z (n : Z) : string := NilZero.string_of_int (Z.to_int n).

Fixpoint digits_value (s : string) (acc : N) : N :=
  match s with
  | EmptyString => acc
  | String c s' => digits_value s' (10 * acc + (code c - 48))%N
  end.

(** An array index is a canonical numeric string below 2^32 - 1. *)
Definition array_index (key : string) : option N :=
  match key with
  | EmptyString => None
  | String c rest =>
      if all_chars is_digit key
         && (negb (code c =? 48)%N || String.eqb rest "")
         && (String.length key <=? 10)%nat
      then let n := digits_value key 0 in
           if (n <? 4294967295)%N then Some n else None
      else None
  end.

End JsString.

(* ------------------------------------------------------------------ *)
(** ** Regular expressions and [String.prototype.replace]

    The four global patterns of the code are sequences of literal text,
    character classes and greedy [+] repetitions of a class, with at most
    one capturing group.  [exec] is the backtracking matcher anchored at the
    start of its input: it yields the capture [$1] and the unmatched rest. *)

Module RegExp.
Import JsString.

Inductive atom : Type :=
| Lit (text : string)
| Class (p : ascii -> bool)
| Plus (p : ascii -> bool)
| Group (p : ascii -> bool).

Definition pattern : Type := list atom.

Fixpoint exec (re : pattern) (s : string) : option (string * string) :=
  match re with
  | [] => Some ("", s)
  | Lit text :: re' =>
      match strip_prefix text s with
      | Some s' => exec re' s'
      | None => None
      end
  | Class p :: re' =>
      match s with
      | String c s' => if p c then exec re' s' else None
      | EmptyString => None
      end
  | Plus p :: re' =>
      (fix longest_first (k : nat) : option (string * string) :=
         match k with
         | O => None
         | S k' =>
             match exec re' (drop k s) with
             | Some m => Some m
             | None => longest_first k'
             end
         end) (run_length p s)
  | Group p :: re' =>
      (fix longest_first (k : nat) : option (string * string) :=
         match k with
         | O => None
         | S k' =>
             match exec re' (drop k s) with
             | Some (_, rest) => Some (take k s, rest)
             | None => longest_first k'
             end
         end) (run_length p s)
  end.

(** [s.replace(re, replacement)] for a global [re], scanning left to right.
    [skip] counts the characters of the current match still to be passed
    over; [replacement] receives the capture. *)
Fixpoint replace_from (re : pattern) (replacement : string -> string)
    (skip : nat) (s : string) : string :=
  match skip, s with
  | S k, String _ s' => replace_from re replacement k s'
  | S _, EmptyString => EmptyString
  | O, EmptyString =>
      match exec re EmptyString with
      | Some (g, _) => replacement g
      | None => EmptyString
      end
  | O, String c s' =>
      match exec re s with
      | Some (g, rest) =>
          match String.length s - String.length rest with
          | S k => replacement g ++ replace_from re replacement k s'
          | O => replacement g ++ String c (replace_from re replacement O s')
          end
      | None => String c (replace_from re replacement O s')
      end
  end.

Definition replace (re : pattern) (replacement : string -> string)
    (s : string) : string :=
  replace_from re replacement O s.

End RegExp.

(* ------------------------------------------------------------------ *)
(** ** Values *)

Module Js.
Import JsString.

(** Document data. *)
Inductive JsValue : Type :=
| JUndefined
| JNull
| JBool (b : bool)
| JNum (n : Z)
| JStr (s : string)
| JArr (elements : list JsValue)
| JObj (properties : list (string * JsValue)).

(** What a property read finds on the prototype chain of an object or an
    array when the key is not an own property. *)
Inductive Builtin : Type :=
| NativeFunction (name : string)
| ObjectPrototype
| ArrayPrototype.

(** The result of a computed property read [o[key]]. *)
Inductive Value : Type :=
| Data (v : JsValue)
| Host (b : Builtin).

(** ToBoolean. *)
Definition truthy (v : JsValue) : bool :=
  match v with
  | JUndefined | JNull => false
  | JBool b => b
  | JNum n => negb (n =? 0)%Z
  | JStr s => negb (String.eqb s "")
  | JArr _ | JObj _ => true
  end.

Definition truthy_value (v : Value) : bool :=
  match v with
  | Data d => truthy d
  | Host _ => true
  end.

Fixpoint own (props : list (string * JsValue)) (key : string) : option JsValue :=
  match props with
  | [] => None
  | (k, v) :: props' => if String.eqb k key then Some v else own props' key
  end.

(** [v.key] for a value that is neither [null] nor [undefined] and one of
    the field names of the document model ([field_names] below), none of
    which is a member of a built-in prototype: the own property, or
    [undefined]. *)
Definition field (v : JsValue) (key : string) : JsValue :=
  match v with
  | JObj props =>
      match own props key with
      | Some x => x
      | None => JUndefined
      end
  | _ => JUndefined
  end.

Definition field_names : list string :=
  ["blocks"; "type"; "name"; "title"; "contact"; "email"; "phone";
   "location"; "level"; "text"; "items"].

Definition Object_prototype_methods : list string :=
  ["__defineGetter__"; "__defineSetter__"; "hasOwnProperty";
   "__lookupGetter__"; "__lookupSetter__"; "isPrototypeOf";
   "propertyIsEnumerable"; "toString"; "valueOf"; "toLocaleString"].

Definition Array_prototype_methods : list string :=
  ["at"; "concat"; "copyWithin"; "entries"; "every"; "fill"; "filter";
   "find"; "findIndex"; "findLast"; "findLastIndex"; "flat"; "flatMap";
   "forEach"; "includes"; "indexOf"; "join"; "keys"; "lastIndexOf"; "map";
   "pop"; "push"; "reduce"; "reduceRight"; "reverse"; "shift"; "slice";
   "some"; "sort"; "splice"; "toLocaleString"; "toReversed"; "toSorted";
   "toSpliced"; "toString"; "unshift"; "values"; "with"].

Definition mem (key : string) (l : list string) : bool :=
  existsb (String.eqb key) l.

Definition Object_inherited (key : string) : option Builtin :=
  if String.eqb key "__proto__" then Some ObjectPrototype
  else if String.eqb key "constructor" then Some (NativeFunction "Object")
  else if mem key Object_prototype_methods then Some (NativeFunction key)
  else None.

Definition Array_inherited (key : string) : option Builtin :=
  if String.eqb key "__proto__" then Some ArrayPrototype
  else if String.eqb key "constructor" then Some (NativeFunction "Array")
  else if mem key Array_prototype_methods then Some (NativeFunction key)
  else Object_inherited key.

(** [o[key]] for an object or an array [o]: own properties first, then the
    prototype chain. *)
Definition Get (o : JsValue) (key : string) : Value :=
  match o with
  | JObj props =>
      match own props key with
      | Some x => Data x
      | None =>
          match Object_inherited key with
          | Some b => Host b
          | None => Data JUndefined
          end
      end
  | JArr elems =>
      match array_index key with
      | Some i => Data (nth (N.to_nat i) elems JUndefined)
      | None =>
          if String.eqb key "length"
          then Data (JNum (Z.of_nat (List.length elems)))
          else match Array_inherited key with
               | Some b => Host b
               | None => Data JUndefined
               end
      end
  | _ => Data JUndefined
  end.

Fixpoint insert_index (i : N) (key : string) (l : list (N * string))
    : list (N * string) :=
  match l with
  | [] => [(i, key)]
  | (j, k) :: l' =>
      if (i <? j)%N then (i, key) :: l else (j, k) :: insert_index i key l'
  end.

Fixpoint index_keys (keys : list string) : list (N * string) :=
  match keys with
  | [] => []
  | k :: keys' =>
      match array_index k with
      | Some i => insert_index i k (index_keys keys')
      | None => index_keys keys'
      end
  end.

Definition is_index (key : string) : bool :=
  match array_index key with
  | Some _ => true
  | None => false
  end.

(** [Object.keys]: the array indices in ascending order, then the other
    keys in creation order. *)
Definition Object_keys (o : JsValue) : list string :=
  match o with
  | JObj props =>
      let keys := map fst props in
      map snd (index_keys keys) ++ filter (fun k => negb (is_index k)) keys
  | JArr elems => map (fun i => of_Z (Z.of_nat i)) (seq 0 (List.length elems))
  | _ => []
  end.

End Js.

(* ------------------------------------------------------------------ *)
(** ** Effects: the console and exceptions *)

Module Effect.

Inductive JsError : Type :=
| Error (message : string)
| TypeError
| InvalidCharacterError.

(** [OutOfFuel] is not an outcome of the program: it marks a run of the
    recursive renderer that was given too small a recursion bound
    ([renderBlock_total] shows that the renderer never ends there). *)
Inductive outcome (A : Type) : Type :=
| Ok (a : A)
| Throw (e : JsError)
| OutOfFuel.

Arguments Ok {A} a.
Arguments Throw {A} e.
Arguments OutOfFuel {A}.

Record Run (A : Type) : Type := mkRun {
  console : list string;
  result : outcome A
}.

Arguments mkRun {A} console result.
Arguments console {A} r.
Arguments result {A} r.

Definition ret {A : Type} (a : A) : Run A := mkRun [] (Ok a).

Definition throw {A : Type} (e : JsError) : Run A := mkRun [] (Throw e).

Definition out_of_fuel {A : Type} : Run A := mkRun [] OutOfFuel.

Definition warn (line : string) : Run unit := mkRun [line] (Ok tt).

Definition bind {A B : Type} (m : Run A) (f : A -> Run B) : Run B :=
  match result m with
  | Ok a => mkRun (console m ++ console (f a)) (result (f a))
  | Throw e => mkRun (console m) (Throw e)
  | OutOfFuel => mkRun (console m) OutOfFuel
  end.

Declare Scope run_scope.
Delimit Scope run_scope with run.
Bind Scope run_scope with Run.

Notation "x <- m ;; k" := (bind m (fun x => k))
  (at level 61, m at next level, right associativity) : run_scope.
Notation "m ;; k" := (bind m (fun _ => k))
  (at level 61, right associativity) : run_scope.

(** [array.forEach(callback)] where the callback updates an object [acc]
    that it closes over. *)
Fixpoint forEach {A S : Type} (array : list A) (callback : S -> A -> Run S)
    (acc : S) : Run S :=
  match array with
  | [] => ret acc
  | x :: array' => bind (callback acc x) (forEach array' callback)
  end.

End Effect.

(* ------------------------------------------------------------------ *)
(** ** Operations on values that can throw *)

Module JsOps.
Import JsString Js Effect.
Local Open Scope run_scope.

(** [v.key] for a field name of the document model: reading a property of
    [null] or [undefined] is a TypeError. *)
Definition prop (v : JsValue) (key : string) : Run JsValue :=
  match v with
  | JUndefined | JNull => throw TypeError
  | _ => ret (field v key)
  end.

(** The elements [v.forEach] iterates over.  Only an array has the method;
    calling what is not a function is a TypeError. *)
Definition forEach_target (v : JsValue) : Run (list JsValue) :=
  match v with
  | JArr elems => ret elems
  | _ => throw TypeError
  end.

Definition isArray (v : JsValue) : bool :=
  match v with
  | JArr _ => true
  | _ => false
  end.

(** ToString, as a template literal applies it.  An array joins its
    elements; a plain object prints as [[object Object]] unless an own
    property shadows [toString], which leaves nothing callable that
    returns a primitive. *)
Fixpoint ToString (v : JsValue) : Run string :=
  match v with
  | JUndefined => ret "undefined"
  | JNull => ret "null"
  | JBool true => ret "true"
  | JBool false => ret "false"
  | JNum n => ret (of_Z n)
  | JStr s => ret s
  | JArr elems =>
      parts <- (fix each (l : list JsValue) : Run (list string) :=
                  match l with
                  | [] => ret []
                  | x :: l' =>
                      p <- match x with
                           | JUndefined | JNull => ret ""
                           | _ => ToString x
                           end ;;
                      ps <- each l' ;;
                      ret (p :: ps)
                  end) elems ;;
      ret (join "," parts)
  | JObj props =>
      match own props "toString" with
      | Some _ => throw TypeError
      | None => ret "[object Object]"
      end
  end.

Definition ToString_value (v : Value) : Run string :=
  match v with
  | Data d => ToString d
  | Host (NativeFunction name) =>
      ret ("function " ++ name ++ "() { [native code] }")%string
  | Host ObjectPrototype => ret "[object Object]"
  | Host ArrayPrototype => ret ""
  end.

(** Conversion to a nullable DOMString, as the [textContent] setter applies
    it: [null] and [undefined] become the empty string. *)
Definition ToDOMString (v : Value) : Run string :=
  match v with
  | Data JUndefined | Data JNull => ret ""
  | _ => ToString_value v
  end.

(** [a === b] against a constant string or number. *)
Definition is_string (v : JsValue) (s : string) : bool :=
  match v with
  | JStr s' => String.eqb s' s
  | _ => false
  end.

Definition is_number (v : JsValue) (n : Z) : bool :=
  match v with
  | JNum n' => (n' =? n)%Z
  | _ => false
  end.

End JsOps.

(* ------------------------------------------------------------------ *)
(** ** The DOM *)

Module Dom.
Import JsString Effect.
Local Open Scope run_scope.

Inductive Node : Type :=
| Element (localName : string) (attributes : list (string * string))
    (childNodes : list Node)
| Markup (html : string)
| Text (data : string).

Definition ascii_whitespace (c : ascii) : bool :=
  (code c =? 9)%N || (code c =? 10)%N || (code c =? 12)%N
  || (code c =? 13)%N || (code c =? 32)%N.

Definition is_char (a c : ascii) : bool := Ascii.eqb a c.

(** DOM, valid element local name. *)
Definition valid_element_name (name : string) : bool :=
  match name with
  | EmptyString => false
  | String c rest =>
      if is_alpha c
      then all_chars (fun x => negb (ascii_whitespace x || (code x =? 0)%N
                                     || is_char "/" x || is_char ">" x)) rest
      else (is_char ":" c || is_char "_" c || (128 <=? code c)%N)
           && all_chars (fun x => is_alpha x || is_digit x || is_char "-" x
                                  || is_char "." x || is_char ":" x
                                  || is_char "_" x || (128 <=? code x)%N) rest
  end.

(** DOM, valid attribute local name. *)
Definition valid_attribute_name (name : string) : bool :=
  negb (String.eqb name "")
  && all_chars (fun x => negb (ascii_whitespace x || (code x =? 0)%N
                               || is_char "/" x || is_char "=" x
                               || is_char ">" x)) name.

(** [document.createElement] in an HTML document. *)
Definition createElement (tagName : string) : Run Node :=
  if valid_element_name tagName
  then ret (Element (ascii_lowercase tagName) [] [])
  else throw InvalidCharacterError.

Fixpoint set_assoc (name value : string) (l : list (string * string))
    : list (string * string) :=
  match l with
  | [] => [(name, value)]
  | (n, v) :: l' =>
      if String.eqb n name then (name, value) :: l'
      else (n, v) :: set_assoc name value l'
  end.

Definition set_attribute (name value : string) (node : Node) : Node :=
  match node with
  | Element tag attrs children => Element tag (set_assoc name value attrs) children
  | _ => node
  end.

(** [element.setAttribute(name, value)]. *)
Definition setAttribute (element : Node) (name value : string) : Run Node :=
  if valid_attribute_name name
  then ret (set_attribute (ascii_lowercase name) value element)
  else throw InvalidCharacterError.

(** The reflecting properties [className], [id], [href] and [title]. *)
Definition set_className (element : Node) (v : string) : Node :=
  set_attribute "class" v element.
Definition set_id (element : Node) (v : string) : Node :=
  set_attribute "id" v element.
Definition set_href (element : Node) (v : string) : Node :=
  set_attribute "href" v element.
Definition set_title (element : Node) (v : string) : Node :=
  set_attribute "title" v element.

Definition set_children (children : list Node) (node : Node) : Node :=
  match node with
  | Element tag attrs _ => Element tag attrs children
  | _ => node
  end.

(** [element.innerHTML = html]: the children become the parsed fragment. *)
Definition set_innerHTML (element : Node) (html : string) : Node :=
  set_children (if String.eqb html "" then [] else [Markup html]) element.

(** [element.textContent = data]. *)
Definition set_textContent (element : Node) (data : string) : Node :=
  set_children (if String.eqb data "" then [] else [Text data]) element.

Definition children_of (node : Node) : list Node :=
  match node with
  | Element _ _ children => children
  | _ => []
  end.

Definition appendChild (parent child : Node) : Node :=
  set_children (children_of parent ++ [child]) parent.

Definition attributes_of (node : Node) : list (string * string) :=
  match node with
  | Element _ attrs _ => attrs
  | _ => []
  end.

Fixpoint assoc (l : list (string * string)) (name : string) : option string :=
  match l with
  | [] => None
  | (n, v) :: l' => if String.eqb n name then Some v else assoc l' name
  end.

Definition getAttribute (node : Node) (name : string) : option string :=
  assoc (attributes_of node) name.

Definition localName_of (node : Node) : string :=
  match node with
  | Element tag _ _ => tag
  | _ => ""
  end.

(** The [href] of every anchor of a tree, in document order. *)
Fixpoint anchors (node : Node) : list string :=
  match node with
  | Element tag attrs children =>
      (if String.eqb tag "a"
       then match assoc attrs "href" with Some h => [h] | None => [] end
       else [])
      ++ (fix each (l : list Node) : list string :=
            match l with
            | [] => []
            | n :: l' => anchors n ++ each l'
            end) children
  | _ => []
  end.

(** The serialization of a text node: [&], NO-BREAK SPACE, [<] and [>] are
    written as character references. *)
Definition escape_char (c : ascii) : string :=
  if is_char "&" c then "&amp;"
  else if (code c =? 160)%N then "&nbsp;"
  else if is_char "<" c then "&lt;"
  else if is_char ">" c then "&gt;"
  else String c EmptyString.

Fixpoint escape_text (data : string) : string :=
  match data with
  | EmptyString => EmptyString
  | String c data' => escape_char c ++ escape_text data'
  end.

(** [element.innerHTML] read from an element whose content was set through
    [textContent]: it has no child or one text node. *)
Definition innerHTML_text (element : Node) : string :=
  match children_of element with
  | [Text data] => escape_text data
  | _ => ""
  end.

End Dom.

(* ------------------------------------------------------------------ *)
(** ** TextProcessor *)

Module TextProcessor.
Import JsString RegExp Js Effect JsOps.
Local Open Scope run_scope.

Definition not_apostrophe (c : ascii) : bool := negb (Ascii.eqb c "'").

(** [/\{\{bold\('([^']+)'\)\}\}/g] *)
Definition bold_pattern : pattern :=
  [Lit "{{bold('"; Group not_apostrophe; Lit "')}}"].

(** [/\{\{underline\('([^']+)'\)\}\}/g] *)
Definition underline_pattern : pattern :=
  [Lit "{{underline('"; Group not_apostrophe; Lit "')}}"].

(** The replacement [<strong>$1</strong>]. *)
Definition strong (g : string) : string := "<strong>" ++ g ++ "</strong>".

(** The replacement [<u>$1</u>]. *)
Definition u (g : string) : string := "<u>" ++ g ++ "</u>".

Definition bold_rule (s : string) : string := replace bold_pattern strong s.

Definition underline_rule (s : string) : string :=
  replace underline_pattern u s.

Definition processText (text : Value) : string :=
  match text with
  | Data (JStr s) =>
      if String.eqb s "" then ""
      else
        let processedText := s in
        let processedText := bold_rule processedText in
        let processedText := underline_rule processedText in
        processedText
  | _ => ""
  end.

(** [language] is what the caller passes; the default ["en"] stands in
    only for a missing argument, and every caller passes the renderer's
    current language. *)
Definition getLocalizedText (localizedText : JsValue) (language : string)
    : Value :=
  if negb (truthy localizedText) then Data (JStr "")
  else
    match localizedText with
    | JStr s => Data (JStr s)
    | JObj _ | JArr _ =>
        if truthy_value (Get localizedText language)
        then Get localizedText language
        else
          let availableLanguages := Object_keys localizedText in
          match availableLanguages with
          | first :: _ => Get localizedText first
          | [] => Data (JStr "")
          end
    | _ => Data (JStr "")
    end.

Definition processLocalizedText (localizedText : JsValue) (language : string)
    : string :=
  let text := getLocalizedText localizedText language in
  processText text.

(** [attributes] is the object literal of the call, its keys in order. *)
Definition createElement (tagName : string) (localizedText : JsValue)
    (language : string) (attributes : list (string * string))
    : Run Dom.Node :=
  element <- Dom.createElement tagName ;;
  let processedText := processLocalizedText localizedText language in
  let element := Dom.set_innerHTML element processedText in
  forEach attributes
    (fun element kv => Dom.setAttribute element (fst kv) (snd kv)) element.

Definition sanitizeHtml (html : Value) : Run string :=
  div <- Dom.createElement "div" ;;
  data <- ToDOMString html ;;
  let div := Dom.set_textContent div data in
  ret (Dom.innerHTML_text div).

End TextProcessor.

(* ------------------------------------------------------------------ *)
(** ** CVRenderer *)

Module CVRenderer.
Import JsString RegExp Js Effect JsOps Dom.
Local Open Scope run_scope.

Record instance : Type := { currentLanguage : string }.

Definition new : instance := {| currentLanguage := "en" |}.

Definition setLanguage (this : instance) (language : string) : instance :=
  {| currentLanguage := language |}.

Record RenderedOutput : Type := { toc : option Node; content : Node }.

Definition is_hyphen (c : ascii) : bool := Ascii.eqb c "-".

(** [/[^a-z0-9\s-]/g] *)
Definition unsafe_pattern : pattern :=
  [Class (fun c => negb (is_lower c || is_digit c || is_space c || is_hyphen c))].

(** [/\s+/g] *)
Definition spaces_pattern : pattern := [Plus is_space].

(** [/-+/g] *)
Definition hyphens_pattern : pattern := [Plus is_hyphen].

Definition generateId (text : Value) : Run string :=
  if negb (truthy_value text) then ret ""
  else
    match text with
    | Data (JStr s) =>
        ret (trim
               (replace hyphens_pattern (fun _ => "-")
                  (replace spaces_pattern (fun _ => "-")
                     (replace unsafe_pattern (fun _ => "")
                        (toLowerCase s)))))
    | _ => throw TypeError
    end.

Definition generateTableOfContents (this : instance) (cvData : JsValue)
    : Run (option Node) :=
  if negb (truthy cvData) || negb (truthy (field cvData "blocks"))
  then ret None
  else
    tocContainer <- Dom.createElement "div" ;;
    let tocContainer := set_className tocContainer "cv-toc" in
    tocTitle <- Dom.createElement "h3" ;;
    let tocTitle := set_textContent tocTitle "Table of Contents" in
    let tocTitle := set_className tocTitle "toc-title" in
    let tocContainer := appendChild tocContainer tocTitle in
    tocList <- Dom.createElement "ul" ;;
    let tocList := set_className tocList "toc-list" in
    blocks <- forEach_target (field cvData "blocks") ;;
    tocList <- forEach blocks
      (fun tocList block =>
         type <- prop block "type" ;;
         if is_string type "section" && truthy (field block "title")
         then
           let titleText :=
             TextProcessor.getLocalizedText (field block "title")
               (currentLanguage this) in
           sectionId <- generateId titleText ;;
           tocItem <- Dom.createElement "li" ;;
           let tocItem := set_className tocItem "toc-item" in
           tocLink <- Dom.createElement "a" ;;
           let tocLink := set_href tocLink ("#" ++ sectionId) in
           label <- ToDOMString titleText ;;
           let tocLink := set_textContent tocLink label in
           let tocLink := set_className tocLink "toc-link" in
           let tocItem := appendChild tocItem tocLink in
           ret (appendChild tocList tocItem)
         else ret tocList)
      tocList ;;
    let tocContainer := appendChild tocContainer tocList in
    ret (Some tocContainer).

Definition renderContact (this : instance) (contact : JsValue) : Run Node :=
  contactDiv <- Dom.createElement "div" ;;
  let contactDiv := set_className contactDiv "cv-contact" in
  let contactItems : list string := [] in
  email_field <- prop contact "email" ;;
  contactItems <-
    (if truthy email_field
     then
       let email :=
         TextProcessor.getLocalizedText email_field (currentLanguage this) in
       if truthy_value email
       then s <- ToString_value email ;;
            ret (contactItems ++ [("Email: " ++ s)%string])
       else ret contactItems
     else ret contactItems) ;;
  contactItems <-
    (if truthy (field contact "phone")
     then
       let phone :=
         TextProcessor.getLocalizedText (field contact "phone")
           (currentLanguage this) in
       if truthy_value phone
       then s <- ToString_value phone ;;
            ret (contactItems ++ [("Phone: " ++ s)%string])
       else ret contactItems
     else ret contactItems) ;;
  contactItems <-
    (if truthy (field contact "location")
     then
       let location :=
         TextProcessor.getLocalizedText (field contact "location")
           (currentLanguage this) in
       if truthy_value location
       then s <- ToString_value location ;;
            ret (contactItems ++ [("Location: " ++ s)%string])
       else ret contactItems
     else ret contactItems) ;;
  ret (set_textContent contactDiv (join " | " contactItems)).

Definition renderHeader (this : instance) (block : JsValue) : Run Node :=
  header <- Dom.createElement "div" ;;
  let header := set_className header "cv-header" in
  name <- prop block "name" ;;
  header <-
    (if truthy name
     then
       nameElement <- TextProcessor.createElement "h1" name
                        (currentLanguage this) [("class", "cv-name")] ;;
       ret (appendChild header nameElement)
     else ret header) ;;
  header <-
    (if truthy (field block "title")
     then
       titleElement <- TextProcessor.createElement "h2" (field block "title")
                         (currentLanguage this) [("class", "cv-title")] ;;
       ret (appendChild header titleElement)
     else ret header) ;;
  header <-
    (if truthy (field block "contact")
     then
       contactElement <- renderContact this (field block "contact") ;;
       ret (appendChild header contactElement)
     else ret header) ;;
  ret header.

Definition renderHeading (this : instance) (block : JsValue) : Run Node :=
  level_field <- prop block "level" ;;
  let level := if truthy level_field then level_field else JNum 1 in
  level_text <- ToString level ;;
  let tagName := ("h" ++ level_text)%string in
  let className :=
    if is_number level 1 then "cv-name"
    else if is_number level 2 then "cv-title"
    else if is_number level 3 then "cv-contact"
    else "" in
  TextProcessor.createElement tagName (field block "text")
    (currentLanguage this) [("class", className)].

Definition renderParagraph (this : instance) (block : JsValue) : Run Node :=
  text <- prop block "text" ;;
  TextProcessor.createElement "p" text (currentLanguage this)
    [("class", "cv-paragraph")].

(** [container.appendChild(rendered)] under [if (rendered)]: the body of the
    three [forEach] loops over blocks. *)
Definition append_rendered (render : JsValue -> Run (option Node))
    (container : Node) (block : JsValue) : Run Node :=
  rendered <- render block ;;
  match rendered with
  | Some node => ret (appendChild container node)
  | None => ret container
  end.

(** The methods that call back into [this.renderBlock] take it as their
    first argument [renderBlock]; [renderBlock_fuel] below closes the
    recursion. *)
Definition renderSection (renderBlock : JsValue -> Run (option Node))
    (this : instance) (block : JsValue) : Run Node :=
  section <- Dom.createElement "div" ;;
  let section := set_className section "cv-section" in
  title <- prop block "title" ;;
  section <-
    (if truthy title
     then
       let titleText :=
         TextProcessor.getLocalizedText title (currentLanguage this) in
       sectionId <- generateId titleText ;;
       let section := set_id section sectionId in
       titleElement <- TextProcessor.createElement "h2" title
                         (currentLanguage this) [("class", "section-title")] ;;
       hashLink <- Dom.createElement "a" ;;
       let hashLink := set_href hashLink ("#" ++ sectionId) in
       let hashLink := set_className hashLink "section-hash-link" in
       let hashLink := set_innerHTML hashLink "#" in
       titleString <- ToString_value titleText ;;
       let hashLink := set_title hashLink ("Link to " ++ titleString) in
       let titleElement := appendChild titleElement hashLink in
       ret (appendChild section titleElement)
     else ret section) ;;
  if truthy (field block "blocks") && isArray (field block "blocks")
  then
    subBlocks <- forEach_target (field block "blocks") ;;
    forEach subBlocks (append_rendered renderBlock) section
  else ret section.

Definition renderSubsection (renderBlock : JsValue -> Run (option Node))
    (this : instance) (block : JsValue) : Run Node :=
  subsection <- Dom.createElement "div" ;;
  let subsection := set_className subsection "cv-subsection" in
  title <- prop block "title" ;;
  subsection <-
    (if truthy title
     then
       titleElement <- TextProcessor.createElement "h3" title
                         (currentLanguage this) [("class", "subsection-title")] ;;
       ret (appendChild subsection titleElement)
     else ret subsection) ;;
  if truthy (field block "blocks") && isArray (field block "blocks")
  then
    subBlocks <- forEach_target (field block "blocks") ;;
    forEach subBlocks (append_rendered renderBlock) subsection
  else ret subsection.

Definition renderList (this : instance) (block : JsValue) : Run Node :=
  listContainer <- Dom.createElement "div" ;;
  let listContainer := set_className listContainer "cv-list" in
  title <- prop block "title" ;;
  listContainer <-
    (if truthy title
     then
       titleElement <- TextProcessor.createElement "div" title
                         (currentLanguage this) [("class", "list-title")] ;;
       ret (appendChild listContainer titleElement)
     else ret listContainer) ;;
  if truthy (field block "items") && isArray (field block "items")
  then
    listElement <- Dom.createElement "ul" ;;
    items <- forEach_target (field block "items") ;;
    listElement <- forEach items
      (fun listElement item =>
         listItem <- TextProcessor.createElement "li" item
                       (currentLanguage this) [] ;;
         ret (appendChild listElement listItem))
      listElement ;;
    ret (appendChild listContainer listElement)
  else ret listContainer.

Definition renderDivider (this : instance) (block : JsValue) : Run Node :=
  divider <- Dom.createElement "div" ;;
  let divider := set_className divider "cv-divider" in
  ret divider.

Definition some {A : Type} (m : Run A) : Run (option A) :=
  a <- m ;; ret (Some a).

(** The body of [renderBlock]; [self] is [this.renderBlock]. *)
Definition renderBlock_body (self : JsValue -> Run (option Node))
    (this : instance) (block : JsValue) : Run (option Node) :=
  if negb (truthy block) || negb (truthy (field block "type"))
  then ret None
  else
    let type := field block "type" in
    if is_string type "header" then some (renderHeader this block)
    else if is_string type "heading" then some (renderHeading this block)
    else if is_string type "paragraph" then some (renderParagraph this block)
    else if is_string type "section" then some (renderSection self this block)
    else if is_string type "subsection"
         then some (renderSubsection self this block)
    else if is_string type "list" then some (renderList this block)
    else if is_string type "divider" then some (renderDivider this block)
    else
      type_text <- ToString type ;;
      warn ("Unknown block type: " ++ type_text) ;;
      ret None.

(** [fuel] bounds the depth of the calls of [renderBlock] inside one
    another. *)
Fixpoint renderBlock_fuel (fuel : nat) (this : instance) (block : JsValue)
    : Run (option Node) :=
  match fuel with
  | O => out_of_fuel
  | S fuel' => renderBlock_body (renderBlock_fuel fuel' this) this block
  end.

(** Nesting depth of a value. *)
Fixpoint depth (v : JsValue) : nat :=
  match v with
  | JArr elems =>
      S ((fix deepest (l : list JsValue) : nat :=
            match l with
            | [] => O
            | x :: l' => Nat.max (depth x) (deepest l')
            end) elems)
  | JObj props =>
      S ((fix deepest (l : list (string * JsValue)) : nat :=
            match l with
            | [] => O
            | (_, x) :: l' => Nat.max (depth x) (deepest l')
            end) props)
  | _ => O
  end.

(** A block nests its sub-blocks below itself, so its own depth bounds the
    recursion. *)
Definition renderBlock (this : instance) (block : JsValue)
    : Run (option Node) :=
  renderBlock_fuel (S (depth block)) this block.

Definition renderCV (this : instance) (cvData : JsValue)
    : Run RenderedOutput :=
  if negb (truthy cvData) || negb (truthy (field cvData "blocks"))
  then throw (Error "Invalid CV data structure")
  else
    toc <- generateTableOfContents this cvData ;;
    cvContainer <- Dom.createElement "div" ;;
    let cvContainer := set_className cvContainer "cv-document" in
    cvContainer <-
      (if isArray (field cvData "blocks")
       then
         blocks <- forEach_target (field cvData "blocks") ;;
         forEach blocks (append_rendered (renderBlock this)) cvContainer
       else ret cvContainer) ;;
    ret {| toc := toc; content := cvContainer |}.

(** [updateLanguage(cvData, container)] for a [container] that is an
    element of the page, or [null].  The first component is the container
    as the call leaves it.  [renderCV] returns the object
    [{ toc, content }], which is not a node, and [appendChild] refuses
    what is not a node with a TypeError. *)
Definition updateLanguage (this : instance) (cvData : JsValue)
    (container : option Node) : option Node * Run unit :=
  match container with
  | None => (None, ret tt)
  | Some container =>
      let container := set_innerHTML container "" in
      (Some container,
       newContent <- renderCV this cvData ;;
       throw TypeError)
  end.

Definition validateCVData (cvData : JsValue) : bool :=
  if negb (truthy cvData) then false
  else if negb (truthy (field cvData "blocks"))
          || negb (isArray (field cvData "blocks")) then false
  else true.

End CVRenderer.

(* ------------------------------------------------------------------ *)
(** ** Vocabulary of the properties *)

Import JsString RegExp Js Effect JsOps Dom.

(** *** Values of the data model *)

(** A string as a value. *)
Definition str (s : string) : Value := Data (JStr s).

Definition string_valued (kv : string * JsValue) : bool :=
  match snd kv with
  | JStr _ => true
  | _ => false
  end.

(** The data model's LocalizedText: a plain string, a mapping from language
    codes to strings, or nothing at all. *)
Definition LocalizedText (v : JsValue) : bool :=
  match v with
  | JUndefined | JNull | JStr _ => true
  | JObj props => forallb string_valued props
  | _ => false
  end.

(** No key of the mapping is an array index, so that [Object.keys] lists the
    keys as they were inserted. *)
Definition plain_keys (props : list (string * JsValue)) : bool :=
  forallb (fun kv => negb (is_index (fst kv))) props.

(** [delete object.key]. *)
Fixpoint delete (key : string) (props : list (string * JsValue))
    : list (string * JsValue) :=
  match props with
  | [] => []
  | (k, v) :: props' =>
      if String.eqb k key then delete key props'
      else (k, v) :: delete key props'
  end.

(** Induction on a value, with the hypothesis for every element of an
    array and every property value of an object. *)
Section JsValue_induction.

Variable P : JsValue -> Prop.
Hypothesis P_undefined : P JUndefined.
Hypothesis P_null : P JNull.
Hypothesis P_bool : forall b, P (JBool b).
Hypothesis P_num : forall n, P (JNum n).
Hypothesis P_str : forall s, P (JStr s).
Hypothesis P_arr : forall elems, Forall P elems -> P (JArr elems).
Hypothesis P_obj :
  forall props, Forall (fun kv => P (snd kv)) props -> P (JObj props).

Fixpoint JsValue_induction (v : JsValue) : P v :=
  match v with
  | JUndefined => P_undefined
  | JNull => P_null
  | JBool b => P_bool b
  | JNum n => P_num n
  | JStr s => P_str s
  | JArr elems =>
      P_arr elems
        ((fix all (l : list JsValue) : Forall P l :=
            match l with
            | [] => Forall_nil P
            | x :: l' => Forall_cons x (JsValue_induction x) (all l')
            end) elems)
  | JObj props =>
      P_obj props
        ((fix all (l : list (string * JsValue))
            : Forall (fun kv => P (snd kv)) l :=
            match l with
            | [] => Forall_nil _
            | kv :: l' =>
                Forall_cons kv (JsValue_induction (snd kv)) (all l')
            end) props)
  end.

End JsValue_induction.

(** *** Runs *)

(** A run that ends, in a value or in one of the two exceptions that the
    operations on values and on the DOM raise. *)
Definition ordinary {A : Type} (m : Run A) : Prop :=
  match result m with
  | Ok _ | Throw TypeError | Throw InvalidCharacterError => True
  | Throw (Error _) | OutOfFuel => False
  end.

(** *** Slugs *)

(** The slug before the final [trim]. *)
Definition hyphenated (s : string) : string :=
  replace CVRenderer.hyphens_pattern (fun _ => "-")
    (replace CVRenderer.spaces_pattern (fun _ => "-")
       (replace CVRenderer.unsafe_pattern (fun _ => "")
          (toLowerCase s))).

Definition not_space (c : ascii) : bool := negb (is_space c).

(** *** Flat markup

    Text with markup that is not nested: plain segments and bold or
    underline patterns, none of which contains an opening brace outside the
    delimiters, with contents that are not empty and have no apostrophe. *)

Inductive piece : Type :=
| Plain (t : string)
| Bold (c : string)
| Underline (c : string).

Definition no_brace (s : string) : bool :=
  all_chars (fun c => negb (Ascii.eqb c "{")) s.

Definition content_ok (c : string) : bool :=
  no_brace c && all_chars TextProcessor.not_apostrophe c
  && negb (String.eqb c "").

Definition flat_piece (p : piece) : bool :=
  match p with
  | Plain t => no_brace t
  | Bold c | Underline c => content_ok c
  end.

Definition flat (ps : list piece) : bool := forallb flat_piece ps.

(** What the author writes. *)
Definition written_piece (p : piece) : string :=
  match p with
  | Plain t => t
  | Bold c => "{{bold('" ++ c ++ "')}}"
  | Underline c => "{{underline('" ++ c ++ "')}}"
  end.

(** What the page shows. *)
Definition shown_piece (p : piece) : string :=
  match p with
  | Plain t => t
  | Bold c => TextProcessor.strong c
  | Underline c => TextProcessor.u c
  end.

(** The text between the two rules: after the bold rule, and after the
    underline rule. *)
Definition bold_done (p : piece) : string :=
  match p with
  | Bold c => TextProcessor.strong c
  | _ => written_piece p
  end.

Definition underline_done (p : piece) : string :=
  match p with
  | Underline c => TextProcessor.u c
  | _ => written_piece p
  end.

Fixpoint concat_pieces (f : piece -> string) (ps : list piece) : string :=
  match ps with
  | [] => ""
  | p :: ps' => f p ++ concat_pieces f ps'
  end.

Definition written (ps : list piece) : string := concat_pieces written_piece ps.
Definition shown (ps : list piece) : string := concat_pieces shown_piece ps.

(** The shape the two markup patterns share. *)
Definition markup_pattern (opening : string) : pattern :=
  [Lit opening; Group TextProcessor.not_apostrophe; Lit "')}}"].

(** A stretch of text that a markup rule copies as it is, whatever
    follows. *)
Definition passes (opening : string) (x : string) : Prop :=
  forall (wrap : string -> string) (rest : string),
    replace (markup_pattern opening) wrap (x ++ rest)
    = (x ++ replace (markup_pattern opening) wrap rest)%string.

(** *** Blocks and documents *)

Definition document (blocks : JsValue) : JsValue := JObj [("blocks", blocks)].

(** The seven block types of the dispatcher. *)
Definition block_types : list string :=
  ["header"; "heading"; "paragraph"; "section"; "subsection"; "list";
   "divider"].

(** A block object whose type is missing, or a string other than the seven
    the dispatcher knows. *)
Definition unrecognized (block : JsValue) : bool :=
  match block with
  | JObj _ =>
      match field block "type" with
      | JUndefined => true
      | JStr t => negb (mem t block_types)
      | _ => false
      end
  | _ => false
  end.

(** What [renderBlock] logs for such a block: nothing when the type is
    missing or empty. *)
Definition diagnostic (block : JsValue) : list string :=
  match field block "type" with
  | JStr t =>
      if String.eqb t "" then [] else [("Unknown block type: " ++ t)%string]
  | _ => []
  end.

(** The blocks nested in a block. *)
Definition sub_blocks (block : JsValue) : list JsValue :=
  match field block "blocks" with
  | JArr blocks => blocks
  | _ => []
  end.

(** The nodes a loop over blocks appends: the rendered ones. *)
Definition appended (rendered : list (option Node)) : list Node :=
  flat_map (fun r => match r with Some n => [n] | None => [] end) rendered.

(** A top-level block that gets an entry in the table of contents. *)
Definition titled_section (block : JsValue) : bool :=
  is_string (field block "type") "section" && truthy (field block "title").

(** A top-level block of a document that follows the data model: not
    [null], and with a LocalizedText for title. *)
Definition toc_block_ok (block : JsValue) : bool :=
  match block with
  | JUndefined | JNull => false
  | _ => LocalizedText (field block "title")
  end.

(** The element [TextProcessor.createElement] builds from a tag, a text and
    the attribute [class]. *)
Definition text_element (tag className : string) (localizedText : JsValue)
    (language : string) : Node :=
  set_attribute "class" className
    (set_innerHTML (Element (ascii_lowercase tag) [] [])
       (TextProcessor.processLocalizedText localizedText language)).

(** The title of a list block, when it has one. *)
Definition list_title (this : CVRenderer.instance) (block : JsValue)
    : list Node :=
  if truthy (field block "title")
  then [text_element "div" "list-title" (field block "title")
          (CVRenderer.currentLanguage this)]
  else [].

(** *** The contact line *)

(** A field contributes an entry exactly when it resolves to a string that
    is not empty. *)
Definition contact_entry (label : string) (resolved : Value) : list string :=
  match resolved with
  | Data (JStr s) => if String.eqb s "" then [] else [(label ++ s)%string]
  | _ => []
  end.

(** The entries of the line, in the order of the code. *)
Definition contact_entries (contact : JsValue) (language : string)
    : list string :=
  contact_entry "Email: "
    (TextProcessor.getLocalizedText (field contact "email") language)
  ++ contact_entry "Phone: "
       (TextProcessor.getLocalizedText (field contact "phone") language)
  ++ contact_entry "Location: "
       (TextProcessor.getLocalizedText (field contact "location") language).

(** The data model's Contact: its fields are LocalizedText. *)
Definition Contact (contact : JsValue) : bool :=
  truthy contact
  && LocalizedText (field contact "email")
  && LocalizedText (field contact "phone")
  && LocalizedText (field contact "location").

(** *** Examples *)

Definition bonjour_hola : JsValue :=
  JObj [("fr", JStr "Bonjour"); ("es", JStr "Hola")].

Definition bonjour_empty_en : JsValue :=
  JObj [("fr", JStr "Bonjour"); ("en", JStr "")].

Definition index_keyed : JsValue :=
  JObj [("fr", JStr "Bonjour"); ("1", JStr "Un")].

(** Markup nested in markup. *)
Definition bold_in_bold : string := "{{bold('{{bold('x')}}')}}".
Definition underline_in_bold : string := "{{bold('{{underline('x')}}')}}".

(** A line of a CV in flat markup. *)
Definition flat_line : list piece :=
  [Plain "Led a team of "; Bold "five"; Plain " on "; Underline "billing";
   Plain "."].

Definition skills_no_items : JsValue :=
  JObj [("type", JStr "list"); ("title", JStr "Skills"); ("items", JArr [])].

Definition timeline : JsValue := JObj [("type", JStr "timeline")].

Definition paragraph_hello : JsValue :=
  JObj [("type", JStr "paragraph"); ("text", JStr "Hello")].

(** A section holding a subsection holding a paragraph; [title] is the
    title property of the section, or nothing. *)
Definition nested_section (title : list (string * JsValue)) : JsValue :=
  JObj (title ++
        [("type", JStr "section");
         ("blocks", JArr [
            JObj [("type", JStr "subsection");
                  ("title", JStr "Role");
                  ("blocks", JArr [paragraph_hello])]])]).

(** The subsection of [nested_section], rendered. *)
Definition role_subsection : Node :=
  Element "div" [("class", "cv-subsection")]
    [Element "h3" [("class", "subsection-title")] [Markup "Role"];
     Element "p" [("class", "cv-paragraph")] [Markup "Hello"]].

(** The blocks of a document with a titled section, a section without a
    title and a block of an unknown type, and its outline. *)
Definition example_blocks : list JsValue :=
  [JObj [("type", JStr "section");
         ("title", JObj [("en", JStr "Work Experience")]);
         ("blocks", JArr [paragraph_hello])];
   JObj [("type", JStr "section"); ("blocks", JArr [paragraph_hello])];
   timeline].

Definition example_toc : Node :=
  Element "div" [("class", "cv-toc")]
    [Element "h3" [("class", "toc-title")] [Text "Table of Contents"];
     Element "ul" [("class", "toc-list")]
       [Element "li" [("class", "toc-item")]
          [Element "a" [("href", "#work-experience"); ("class", "toc-link")]
             [Text "Work Experience"]]]].

Definition contact_empty_phone : JsValue :=
  JObj [("email", JStr "a@b.c"); ("phone", JObj [("en", JStr "")]);
        ("location", JObj [("en", JStr "Hanoi")])].

(** *** Slugs, character by character *)

(** The characters [generateId] lets through. *)
Definition id_source_char (c : ascii) : bool :=
  is_lower c || is_digit c || is_space c || CVRenderer.is_hyphen c.

(** The characters of a slug. *)
Definition slug_char (c : ascii) : bool :=
  is_lower c || is_digit c || CVRenderer.is_hyphen c.

Fixpoint filter_chars (p : ascii -> bool) (s : string) : string :=
  match s with
  | EmptyString => EmptyString
  | String c s' =>
      if p c then String c (filter_chars p s') else filter_chars p s'
  end.

(** Every maximal run of characters of the class [p] becomes one hyphen;
    [in_run] tells that the run under way has its hyphen already. *)
Fixpoint collapse (p : ascii -> bool) (in_run : bool) (s : string) : string :=
  match s with
  | EmptyString => EmptyString
  | String c s' =>
      if p c
      then if in_run then collapse p true s'
           else String "-" (collapse p true s')
      else String c (collapse p false s')
  end.

(** No two hyphens side by side. *)
Fixpoint single_hyphens (s : string) : bool :=
  match s with
  | String a ((String b _) as s') =>
      negb (CVRenderer.is_hyphen a && CVRenderer.is_hyphen b)
      && single_hyphens s'
  | _ => true
  end.


(** The slug, step by step: lowercase, drop what is not a lowercase letter,
    a digit, white space or a hyphen, put one hyphen for each run of white
    space, then one hyphen for each run of hyphens. *)
Definition slug (s : string) : string :=
  collapse CVRenderer.is_hyphen false
    (collapse is_space false
       (filter_chars id_source_char (toLowerCase s))).


Definition starts_with_hyphen (s : string) : bool :=
  match s with
  | String c _ => CVRenderer.is_hyphen c
  | EmptyString => false
  end.


(** *** Escaped text *)

(** A character that is neither [<] nor [>]. *)
Definition no_angle (c : ascii) : bool :=
  negb (is_char "<" c || is_char ">" c).

(** A character that the serialization of text writes as it is. *)
Definition unescaped_char (c : ascii) : bool :=
  negb (is_char "&" c || (code c =? 160)%N || is_char "<" c || is_char ">" c).


(** *** What the renderers build *)

(** The class of a heading of a given level. *)
Definition heading_class (level : JsValue) : string :=
  if is_number level 1 then "cv-name"
  else if is_number level 2 then "cv-title"
  else if is_number level 3 then "cv-contact"
  else "".

(** The level a heading block is rendered at. *)
Definition heading_level (block : JsValue) : JsValue :=
  if truthy (field block "level") then field block "level" else JNum 1.

(** A character of a decimal numeral. *)
Definition numeral_char (c : ascii) : bool :=
  is_digit c || CVRenderer.is_hyphen c.

(** The name and the title of a header block, when it has them. *)
Definition header_name (this : CVRenderer.instance) (block : JsValue)
    : list Node :=
  if truthy (field block "name")
  then [text_element "h1" "cv-name" (field block "name")
          (CVRenderer.currentLanguage this)]
  else [].

Definition header_title (this : CVRenderer.instance) (block : JsValue)
    : list Node :=
  if truthy (field block "title")
  then [text_element "h2" "cv-title" (field block "title")
          (CVRenderer.currentLanguage this)]
  else [].

(** The contact line of a header block, when it has a contact. *)
Definition header_contact (this : CVRenderer.instance) (block : JsValue)
    : list Node :=
  if truthy (field block "contact")
  then [set_textContent (Element "div" [("class", "cv-contact")] [])
          (join " | "
             (contact_entries (field block "contact")
                (CVRenderer.currentLanguage this)))]
  else [].

(** The item of a list, rendered. *)
Definition list_item (this : CVRenderer.instance) (item : JsValue) : Node :=
  set_innerHTML (Element "li" [] [])
    (TextProcessor.processLocalizedText item (CVRenderer.currentLanguage this)).

(** The list element of a list block, when [items] is an array. *)
Definition list_items (this : CVRenderer.instance) (block : JsValue)
    : list Node :=
  match field block "items" with
  | JArr items => [Element "ul" [] (map (list_item this) items)]
  | _ => []
  end.

(** The class of the element that stands for a block. *)
Definition block_class (block : JsValue) : string :=
  let type := field block "type" in
  if is_string type "header" then "cv-header"
  else if is_string type "heading" then heading_class (heading_level block)
  else if is_string type "paragraph" then "cv-paragraph"
  else if is_string type "section" then "cv-section"
  else if is_string type "subsection" then "cv-subsection"
  else if is_string type "list" then "cv-list"
  else "cv-divider".

(** A block of one of the seven types. *)
Definition recognized (block : JsValue) : bool :=
  match field block "type" with
  | JStr t => mem t block_types
  | _ => false
  end.


(** A run that ends in a value or in a TypeError. *)
Definition type_errors_only {A : Type} (m : Run A) : Prop :=
  match result m with
  | Ok _ | Throw TypeError => True
  | Throw _ | OutOfFuel => False
  end.


(** A run that leaves the console as it found it. *)
Definition silent {A : Type} (m : Run A) : Prop := console m = [].

(** The one line the renderer writes: the diagnostic of [renderBlock]. *)
Definition diagnostic_line (line : string) : bool :=
  prefix "Unknown block type: " line.

Definition diagnostics_only {A : Type} (m : Run A) : Prop :=
  Forall (fun line => diagnostic_line line = true) (console m).


(** *** The table of contents *)

(** The title of a block as the renderer's language resolves it. *)
Definition resolved_title (this : CVRenderer.instance) (block : JsValue)
    : string :=
  match TextProcessor.getLocalizedText (field block "title")
          (CVRenderer.currentLanguage this) with
  | Data (JStr s) => s
  | _ => ""
  end.

(** The entry of a titled section: a link to the slug of the title,
    labelled with the title as text. *)
Definition toc_entry (this : CVRenderer.instance) (block : JsValue) : Node :=
  let title := resolved_title this block in
  Element "li" [("class", "toc-item")]
    [Element "a" [("href", ("#" ++ slug title)%string); ("class", "toc-link")]
       (if String.eqb title "" then [] else [Text title])].

Definition outline (this : CVRenderer.instance) (blocks : list JsValue)
    : Node :=
  Element "div" [("class", "cv-toc")]
    [Element "h3" [("class", "toc-title")] [Text "Table of Contents"];
     Element "ul" [("class", "toc-list")]
       (map (toc_entry this) (filter titled_section blocks))].


(** *** Attributes of a created element *)

(** The value an object literal of attributes gives a name: that of the
    last key equal to it up to ASCII case. *)
Fixpoint last_value (name : string) (attributes : list (string * string))
    : option string :=
  match attributes with
  | [] => None
  | (key, value) :: rest =>
      match last_value name rest with
      | Some later => Some later
      | None =>
          if String.eqb (ascii_lowercase key) name then Some value else None
      end
  end.

Definition names_valid (tagName : string)
    (attributes : list (string * string)) : bool :=
  valid_element_name tagName
  && forallb (fun kv => valid_attribute_name (fst kv)) attributes.

(** The children [innerHTML] gives an element. *)
Definition parsed (html : string) : list Node :=
  if String.eqb html "" then [] else [Markup html].


(** A contact whose only field holds an empty translation. *)
Definition contact_empty_email : JsValue :=
  JObj [("email", JObj [("en", JStr "")])].

(* ------------------------------------------------------------------ *)
(** ** Properties *)

Import TextProcessor CVRenderer.

(** *** The effect monad *)

Lemma result_bind {A B : Type} (m : Run A) (f : A -> Run B) :
  result (bind m f) =
  match result m with
  | Ok a => result (f a)
  | Throw e => Throw e
  | OutOfFuel => OutOfFuel
  end.
Proof. unfold bind. destruct (result m); reflexivity. Qed.

Lemma bind_ret {A B : Type} (a : A) (f : A -> Run B) : bind (ret a) f = f a.
Proof. unfold bind, ret. simpl. destruct (f a); reflexivity. Qed.

Lemma result_bind_Ok {A B : Type} (m : Run A) (f : A -> Run B) (b : B) :
  result (bind m f) = Ok b ->
  exists a, result m = Ok a /\ result (f a) = Ok b.
Proof.
  rewrite result_bind. destruct (result m) as [a | e |]; try discriminate.
  intros H. exists a. split; [reflexivity | exact H].
Qed.

Lemma result_bind_of_Ok {A B : Type} (m : Run A) (f : A -> Run B) (a : A) :
  result m = Ok a -> result (bind m f) = result (f a).
Proof. intros H. rewrite result_bind, H. reflexivity. Qed.

(** *** The document check *)

(** Whatever truthy value that is not an array stands for [blocks], the
    render ends in that TypeError; a falsy one is reported as an invalid
    document. *)
Lemma renderCV_blocks_not_array (this : instance) (blocks : JsValue) :
  truthy blocks = true -> isArray blocks = false ->
  renderCV this (document blocks) = throw TypeError.
Proof.
  intros Ht Ha. unfold renderCV, generateTableOfContents, document.
  cbn [field own String.eqb Ascii.eqb Bool.eqb truthy negb orb].
  rewrite Ht. cbn [negb orb].
  destruct blocks; try discriminate; reflexivity.
Qed.

Lemma renderCV_blocks_falsy (this : instance) (blocks : JsValue) :
  truthy blocks = false ->
  renderCV this (document blocks) = throw (Error "Invalid CV data structure").
Proof.
  intros Ht. unfold renderCV, document.
  cbn [field own String.eqb Ascii.eqb Bool.eqb truthy negb orb].
  rewrite Ht. reflexivity.
Qed.

(** *** Property reads *)

(** The reads of the fixed field names find nothing on the prototype chain:
    [field] is what [v.key] evaluates to. *)
Lemma Get_field_name (v : JsValue) (key : string) :
  In key field_names -> Get v key = Data (field v key).
Proof.
  intros Hin. simpl in Hin.
  repeat (destruct Hin as [<- | Hin]); try contradiction;
    destruct v as [| | b | n | s | elems | props]; try reflexivity;
    unfold Get, field; destruct (own props _); reflexivity.
Qed.

(** *** Localized text *)

Lemma own_string_valued (props : list (string * JsValue)) (k : string)
    (x : JsValue) :
  forallb string_valued props = true -> own props k = Some x ->
  exists s, x = JStr s.
Proof.
  induction props as [| [k' v'] props IH]; simpl; intros Hall Hown.
  - discriminate.
  - apply andb_prop in Hall. destruct Hall as [Hv Hrest].
    destruct (String.eqb k' k).
    + injection Hown as <-. unfold string_valued in Hv. simpl in Hv.
      destruct v'; try discriminate. eexists; reflexivity.
    + apply IH; assumption.
Qed.

Lemma own_of_key (props : list (string * JsValue)) (k : string) :
  In k (map fst props) -> exists x, own props k = Some x.
Proof.
  induction props as [| [k' v'] props IH]; simpl; intros Hin.
  - contradiction.
  - destruct (String.eqb_spec k' k) as [-> | Hne].
    + eexists; reflexivity.
    + destruct Hin as [Heq | Hin]; [contradiction | apply IH; exact Hin].
Qed.

Lemma In_insert_index (i : N) (key : string) (l : list (N * string))
    (k : string) :
  In k (map snd (insert_index i key l)) -> k = key \/ In k (map snd l).
Proof.
  induction l as [| [j k'] l IH]; simpl.
  - intros [H | []]. left; symmetry; exact H.
  - destruct (i <? j)%N; simpl.
    + intros [H | H]; [left; symmetry; exact H | right; exact H].
    + intros [H | H]; [right; left; exact H |].
      destruct (IH H) as [Hk | Hk]; [left | right; right]; assumption.
Qed.

Lemma In_index_keys (keys : list string) (k : string) :
  In k (map snd (index_keys keys)) -> In k keys.
Proof.
  induction keys as [| k' keys IH]; simpl; [tauto |].
  destruct (array_index k').
  - intros H. destruct (In_insert_index _ _ _ _ H) as [-> | H'];
      [left; reflexivity | right; apply IH; exact H'].
  - intros H. right. apply IH. exact H.
Qed.

Lemma In_Object_keys (props : list (string * JsValue)) (k : string) :
  In k (Object_keys (JObj props)) -> In k (map fst props).
Proof.
  simpl. intros H. apply in_app_or in H. destruct H as [H | H].
  - apply In_index_keys. exact H.
  - apply filter_In in H. tauto.
Qed.

Lemma index_keys_plain (props : list (string * JsValue)) :
  plain_keys props = true -> index_keys (map fst props) = [].
Proof.
  induction props as [| [k v] props IH]; simpl; [reflexivity |].
  intros H. apply andb_prop in H. destruct H as [Hk Hrest].
  unfold is_index in Hk. simpl in Hk.
  destruct (array_index k); [discriminate | apply IH; exact Hrest].
Qed.

(** Without array indices among the keys, [Object.keys] is insertion
    order. *)
Lemma Object_keys_plain (props : list (string * JsValue)) :
  plain_keys props = true -> Object_keys (JObj props) = map fst props.
Proof.
  intros H. simpl. rewrite (index_keys_plain _ H). simpl.
  induction props as [| [k v] props IH]; simpl; [reflexivity |].
  simpl in H. apply andb_prop in H. destruct H as [Hk Hrest].
  rewrite Hk. f_equal. apply IH. exact Hrest.
Qed.

(** The lookup that falls back to the first key, on a mapping whose
    translation for [L] is missing or empty. *)
Lemma getLocalizedText_fallback (props : list (string * JsValue)) (L : string) :
  Object_inherited L = None ->
  own props L = None \/ own props L = Some (JStr "") ->
  getLocalizedText (JObj props) L =
  match Object_keys (JObj props) with
  | first :: _ => Data (field (JObj props) first)
  | [] => str ""
  end.
Proof.
  intros HL Hown. unfold getLocalizedText.
  cbn [truthy negb]. cbv beta iota.
  assert (Hfalsy : truthy_value (Get (JObj props) L) = false).
  { unfold Get. destruct Hown as [-> | ->]; [rewrite HL |]; reflexivity. }
  rewrite Hfalsy.
  destruct (Object_keys (JObj props)) as [| first rest] eqn:Hkeys;
    [reflexivity |].
  assert (Hin : In first (map fst props)).
  { apply In_Object_keys. rewrite Hkeys. left; reflexivity. }
  destruct (own_of_key _ _ Hin) as [x Hx].
  unfold Get, field. rewrite Hx. reflexivity.
Qed.

(** On a LocalizedText value the result is a string, unless the language
    names an inherited member. *)
Lemma getLocalizedText_string (v : JsValue) (L : string) :
  LocalizedText v = true -> Object_inherited L = None ->
  exists s, getLocalizedText v L = str s.
Proof.
  intros Hv HL.
  assert (Hstr : forall s, getLocalizedText (JStr s) L = str s).
  { intros s. unfold getLocalizedText. simpl.
    destruct (String.eqb_spec s ""); [subst |]; reflexivity. }
  assert (Hhit : forall props s,
             own props L = Some (JStr s) -> s <> "" ->
             getLocalizedText (JObj props) L = str s).
  { intros props s Hown Hs. unfold getLocalizedText, Get. simpl.
    rewrite Hown. simpl.
    destruct (String.eqb_spec s ""); [contradiction | reflexivity]. }
  destruct v as [| | b | n | s | elems | props]; try discriminate.
  + exists "". reflexivity.
  + exists "". reflexivity.
  + exists s. apply Hstr.
  + simpl in Hv.
    destruct (own props L) as [x |] eqn:Hown.
    * destruct (own_string_valued _ _ _ Hv Hown) as [s ->].
      destruct (String.eqb_spec s "") as [-> | Hs].
      -- rewrite (getLocalizedText_fallback props L HL (or_intror Hown)).
         destruct (Object_keys (JObj props)) as [| first rest] eqn:Hkeys;
           [exists ""; reflexivity |].
         assert (Hin : In first (map fst props)).
         { apply In_Object_keys. rewrite Hkeys. left; reflexivity. }
         destruct (own_of_key _ _ Hin) as [y Hy].
         destruct (own_string_valued _ _ _ Hv Hy) as [t ->].
         exists t. unfold field. rewrite Hy. reflexivity.
      -- exists s. apply Hhit; assumption.
    * rewrite (getLocalizedText_fallback props L HL (or_introl Hown)).
      destruct (Object_keys (JObj props)) as [| first rest] eqn:Hkeys;
        [exists ""; reflexivity |].
      assert (Hin : In first (map fst props)).
      { apply In_Object_keys. rewrite Hkeys. left; reflexivity. }
      destruct (own_of_key _ _ Hin) as [y Hy].
      destruct (own_string_valued _ _ _ Hv Hy) as [t ->].
      exists t. unfold field. rewrite Hy. reflexivity.
Qed.

(** C1, as the claim states it, fails.  A translation that is present but
    empty is passed over for the first key; a language that names a member
    of [Object.prototype] resolves to that member, which is no string; and
    [Object.keys] lists array indices before the keys inserted ahead of
    them. *)
Lemma getLocalizedText_present_key_not_returned :
  own [("fr", JStr "Bonjour"); ("en", JStr "")] "en" = Some (JStr "")
  /\ getLocalizedText bonjour_empty_en "en" = str "Bonjour"
  /\ getLocalizedText bonjour_empty_en "en" <> str ""
  /\ getLocalizedText bonjour_hola "constructor" = Host (NativeFunction "Object")
  /\ getLocalizedText index_keyed "de" = str "Un".
Proof. repeat split; try reflexivity. discriminate. Qed.

(** C1, amended.  For a LocalizedText value and a language that names no
    member inherited from [Object.prototype], [getLocalizedText] returns a
    string: a plain string verbatim whatever the language; for a mapping the
    translation for the language when it is present and not empty, otherwise
    the value of the first key of [Object.keys], which is the first inserted
    key when no key is an array index (so ["Bonjour"] for fr/es asked for
    ["de"]); the empty string when the value is absent or the mapping
    empty. *)
Theorem getLocalizedText_resolves :
  forall (v : JsValue) (L : string),
    LocalizedText v = true ->
    Object_inherited L = None ->
    (exists s, getLocalizedText v L = str s)
    /\ (forall s, v = JStr s -> getLocalizedText v L = str s)
    /\ (forall props s,
          v = JObj props -> own props L = Some (JStr s) -> s <> "" ->
          getLocalizedText v L = str s)
    /\ (forall props,
          v = JObj props ->
          own props L = None \/ own props L = Some (JStr "") ->
          getLocalizedText v L =
          match Object_keys v with
          | first :: _ => Data (field v first)
          | [] => str ""
          end)
    /\ (forall k x rest,
          v = JObj ((k, x) :: rest) -> plain_keys ((k, x) :: rest) = true ->
          own ((k, x) :: rest) L = None
          \/ own ((k, x) :: rest) L = Some (JStr "") ->
          getLocalizedText v L = Data x)
    /\ (v = JUndefined \/ v = JNull \/ v = JObj [] ->
        getLocalizedText v L = str "")
    /\ getLocalizedText bonjour_hola "de" = str "Bonjour".
Proof.
  intros v L Hv HL.
  assert (Hstr : forall s, getLocalizedText (JStr s) L = str s).
  { intros s. unfold getLocalizedText. simpl.
    destruct (String.eqb_spec s ""); [subst |]; reflexivity. }
  assert (Hhit : forall props s,
             own props L = Some (JStr s) -> s <> "" ->
             getLocalizedText (JObj props) L = str s).
  { intros props s Hown Hs. unfold getLocalizedText, Get. simpl.
    rewrite Hown. simpl.
    destruct (String.eqb_spec s ""); [contradiction | reflexivity]. }
  repeat split.
  - apply getLocalizedText_string; assumption.
  - intros s ->. apply Hstr.
  - intros props s -> Hown Hs. apply Hhit; assumption.
  - intros props -> Hown. apply getLocalizedText_fallback; assumption.
  - intros k x rest -> Hplain Hown.
    rewrite (getLocalizedText_fallback _ L HL Hown).
    rewrite (Object_keys_plain _ Hplain). simpl.
    rewrite String.eqb_refl. reflexivity.
  - intros [-> | [-> | ->]]; try reflexivity.
    rewrite (getLocalizedText_fallback [] L HL (or_introl eq_refl)).
    reflexivity.
Qed.

Lemma getLocalizedText_resolves_witness :
  (exists s, getLocalizedText bonjour_hola "de" = str s)
  /\ getLocalizedText bonjour_hola "de" = str "Bonjour".
Proof.
  destruct (getLocalizedText_resolves bonjour_hola "de" eq_refl eq_refl)
    as [H1 [_ [_ [_ [_ [_ H7]]]]]].
  split; [exact H1 | exact H7].
Defined.

(** *** Elements *)

Lemma Dom_createElement_valid (tag : string) :
  valid_element_name tag = true ->
  Dom.createElement tag = ret (Element (ascii_lowercase tag) [] []).
Proof. intros H. unfold Dom.createElement. rewrite H. reflexivity. Qed.

Lemma createElement_with_class (tag className : string) (text : JsValue)
    (language : string) :
  valid_element_name tag = true ->
  TextProcessor.createElement tag text language [("class", className)] =
  ret (text_element tag className text language).
Proof.
  intros H. unfold TextProcessor.createElement.
  rewrite (Dom_createElement_valid tag H), bind_ret.
  reflexivity.
Qed.

Lemma field_own (props : list (string * JsValue)) (key : string)
    (x : JsValue) :
  own props key = Some x -> field (JObj props) key = x.
Proof. intros H. unfold field. rewrite H. reflexivity. Qed.

(** *** Lists *)

(** C8, as the claim states it, fails: with the empty sequence for [items]
    the list container is created and appended all the same, after the
    title. *)
Lemma renderList_empty_items_appends_ul :
  renderList new skills_no_items =
  ret (Element "div" [("class", "cv-list")]
         [Element "div" [("class", "list-title")] [Markup "Skills"];
          Element "ul" [] []])
  /\ [Element "div" [("class", "list-title")] [Markup "Skills"];
      Element "ul" [] []]
     <> [Element "div" [("class", "list-title")] [Markup "Skills"]].
Proof. split; [reflexivity | discriminate]. Qed.

(** C8, amended.  For a list block whose [items] is the empty sequence,
    [renderList] produces the title element when a title is given,
    followed by an unordered-list element without items. *)
Theorem renderList_empty_items :
  forall (this : instance) (props : list (string * JsValue)),
    own props "items" = Some (JArr []) ->
    renderList this (JObj props) =
    ret (Element "div" [("class", "cv-list")]
           (list_title this (JObj props) ++ [Element "ul" [] []])).
Proof.
  intros this props Hitems. unfold renderList, list_title.
  rewrite (Dom_createElement_valid "div" eq_refl), bind_ret.
  unfold prop. rewrite bind_ret.
  rewrite (field_own _ _ _ Hitems).
  destruct (truthy (field (JObj props) "title")).
  - rewrite (createElement_with_class "div" _ _ _ eq_refl).
    rewrite !bind_ret. reflexivity.
  - rewrite !bind_ret. reflexivity.
Qed.

Lemma renderList_empty_items_witness :
  own [("type", JStr "list"); ("title", JStr "Skills"); ("items", JArr [])]
    "items" = Some (JArr [])
  /\ renderList new skills_no_items =
     ret (Element "div" [("class", "cv-list")]
            (list_title new skills_no_items ++ [Element "ul" [] []])).
Proof.
  split; [reflexivity |].
  apply (renderList_empty_items new
           [("type", JStr "list"); ("title", JStr "Skills");
            ("items", JArr [])]).
  reflexivity.
Defined.

(** *** The contact line *)

Lemma prop_truthy (v : JsValue) (key : string) :
  truthy v = true -> prop v key = ret (field v key).
Proof. destruct v; simpl; intros H; try discriminate; reflexivity. Qed.

Lemma getLocalizedText_falsy (v : JsValue) (L : string) :
  truthy v = false -> getLocalizedText v L = str "".
Proof. intros H. unfold getLocalizedText. rewrite H. reflexivity. Qed.

(** One of the three [if (contact.x) { ... if (x) push }] steps. *)
Lemma contact_step (label : string) (x : JsValue) (L : string)
    (items : list string) :
  LocalizedText x = true -> Object_inherited L = None ->
  (if truthy x
   then
     if truthy_value (getLocalizedText x L)
     then bind (ToString_value (getLocalizedText x L))
            (fun s => ret (items ++ [(label ++ s)%string]))
     else ret items
   else ret items)
  = ret (items ++ contact_entry label (getLocalizedText x L)).
Proof.
  intros Hx HL.
  destruct (truthy x) eqn:Ht.
  - destruct (getLocalizedText_string x L Hx HL) as [s Hs].
    rewrite Hs. unfold str, contact_entry, truthy_value, truthy.
    destruct (String.eqb s ""); simpl.
    + rewrite app_nil_r. reflexivity.
    + rewrite bind_ret. reflexivity.
  - rewrite (getLocalizedText_falsy x L Ht). simpl.
    rewrite app_nil_r. reflexivity.
Qed.

Lemma renderContact_line (this : instance) (contact : JsValue) :
  Contact contact = true ->
  Object_inherited (currentLanguage this) = None ->
  renderContact this contact =
  ret (set_textContent (Element "div" [("class", "cv-contact")] [])
         (join " | " (contact_entries contact (currentLanguage this)))).
Proof.
  unfold Contact. intros Hc HL.
  apply andb_prop in Hc. destruct Hc as [Hc Hloc].
  apply andb_prop in Hc. destruct Hc as [Hc Hphone].
  apply andb_prop in Hc. destruct Hc as [Htruthy Hemail].
  unfold renderContact, contact_entries. cbv zeta.
  rewrite (Dom_createElement_valid "div" eq_refl), bind_ret.
  rewrite (prop_truthy _ _ Htruthy), bind_ret.
  rewrite (contact_step "Email: " _ _ [] Hemail HL), bind_ret.
  rewrite (contact_step "Phone: " _ _ _ Hphone HL), bind_ret.
  rewrite (contact_step "Location: " _ _ _ Hloc HL), bind_ret.
  simpl app. rewrite <- app_assoc. reflexivity.
Qed.

Lemma field_delete_same (key : string) (props : list (string * JsValue)) :
  field (JObj (delete key props)) key = JUndefined.
Proof.
  unfold field. induction props as [| [k v] props IH]; simpl; [reflexivity |].
  destruct (String.eqb k key) eqn:E; [exact IH |].
  simpl. rewrite E. exact IH.
Qed.

Lemma field_delete_other (key other : string)
    (props : list (string * JsValue)) :
  other <> key ->
  field (JObj (delete key props)) other = field (JObj props) other.
Proof.
  intros Hne. unfold field.
  induction props as [| [k v] props IH]; simpl; [reflexivity |].
  destruct (String.eqb_spec k key) as [-> | Hk].
  - destruct (String.eqb_spec key other) as [E | _];
      [symmetry in E; contradiction | exact IH].
  - simpl. destruct (String.eqb k other); [reflexivity | exact IH].
Qed.

Lemma contact_entry_contributed (label : string) (resolved : Value) :
  contact_entry label resolved <> [] <->
  exists s, resolved = str s /\ s <> "".
Proof.
  unfold contact_entry, str. split.
  - destruct resolved as [[| | b | n | s | l | ps] | h]; try congruence.
    destruct (String.eqb_spec s ""); [congruence |].
    intros _. exists s. split; [reflexivity | assumption].
  - intros [s [-> Hs]]. destruct (String.eqb_spec s "");
      [contradiction | discriminate].
Qed.

Lemma Contact_delete (key : string) (props : list (string * JsValue)) :
  Contact (JObj props) = true -> Contact (JObj (delete key props)) = true.
Proof.
  unfold Contact. intros H.
  apply andb_prop in H. destruct H as [H Hloc].
  apply andb_prop in H. destruct H as [H Hphone].
  apply andb_prop in H. destruct H as [_ Hemail].
  assert (Hf : forall f, LocalizedText (field (JObj props) f) = true ->
                         LocalizedText (field (JObj (delete key props)) f) = true).
  { intros f Hfield. destruct (String.eqb_spec f key) as [-> | Hne].
    - rewrite field_delete_same. reflexivity.
    - rewrite (field_delete_other key f props Hne). exact Hfield. }
  rewrite (Hf _ Hemail), (Hf _ Hphone), (Hf _ Hloc). reflexivity.
Qed.

Lemma contact_entry_delete (label key f L : string)
    (props : list (string * JsValue)) :
  getLocalizedText (field (JObj props) key) L = str "" ->
  contact_entry label (getLocalizedText (field (JObj (delete key props)) f) L)
  = contact_entry label (getLocalizedText (field (JObj props) f) L).
Proof.
  intros Hempty. destruct (String.eqb_spec f key) as [-> | Hne].
  - rewrite field_delete_same, Hempty. reflexivity.
  - rewrite (field_delete_other key f props Hne). reflexivity.
Qed.

(** C10, as the claim states it, fails: an entry is contributed by a field
    whose resolved text is no string.  Under a language that names a member
    of [Object.prototype] a field holding only an empty translation
    resolves to that member, a function, and its text is written to the
    line; under ["en"] the same field is left out. *)
Lemma renderContact_entry_without_string :
  getLocalizedText (field contact_empty_email "email") "toString"
  = Host (NativeFunction "toString")
  /\ renderContact (setLanguage new "toString") contact_empty_email
     = ret (Element "div" [("class", "cv-contact")]
              [Text "Email: function toString() { [native code] }"])
  /\ renderContact new contact_empty_email
     = ret (Element "div" [("class", "cv-contact")] []).
Proof. split; [| split]; reflexivity. Qed.

(** C10, amended.  For a contact whose fields are LocalizedText and a
    language that names no member inherited from [Object.prototype], the
    contact line is the entries ["Label: value"] of the fields whose
    resolved text is a string that is not empty, joined by [" | "]; an
    entry is contributed exactly then; and a field that is present but
    resolves to the empty string leaves the line as it is without the
    field. *)
Theorem renderContact_omits_empty_fields :
  forall (this : instance) (contact : JsValue),
    Contact contact = true ->
    Object_inherited (currentLanguage this) = None ->
    renderContact this contact =
    ret (set_textContent (Element "div" [("class", "cv-contact")] [])
           (join " | " (contact_entries contact (currentLanguage this))))
    /\ (forall label name,
          contact_entry label
            (getLocalizedText (field contact name) (currentLanguage this))
          <> [] <->
          exists s,
            getLocalizedText (field contact name) (currentLanguage this)
            = str s /\ s <> "")
    /\ (forall props name,
          contact = JObj props ->
          getLocalizedText (field contact name) (currentLanguage this)
          = str "" ->
          renderContact this contact
          = renderContact this (JObj (delete name props))).
Proof.
  intros this contact Hc HL. split; [| split].
  - apply renderContact_line; assumption.
  - intros label name. apply contact_entry_contributed.
  - intros props name -> Hempty.
    rewrite (renderContact_line this _ Hc HL).
    rewrite (renderContact_line this _ (Contact_delete name props Hc) HL).
    unfold contact_entries.
    rewrite !(contact_entry_delete _ name _ _ props Hempty).
    reflexivity.
Qed.

Lemma renderContact_omits_empty_fields_witness :
  Contact contact_empty_phone = true
  /\ Object_inherited (currentLanguage new) = None
  /\ renderContact new contact_empty_phone =
     ret (Element "div" [("class", "cv-contact")]
            [Text "Email: a@b.c | Location: Hanoi"])
  /\ renderContact new contact_empty_phone =
     renderContact new
       (JObj [("email", JStr "a@b.c");
              ("location", JObj [("en", JStr "Hanoi")])]).
Proof.
  destruct (renderContact_omits_empty_fields new contact_empty_phone
              eq_refl eq_refl) as [Hline [_ Hdelete]].
  split; [reflexivity | split; [reflexivity | split]].
  - exact Hline.
  - exact (Hdelete _ "phone" eq_refl eq_refl).
Defined.

(** *** The recursion of the dispatcher *)

Lemma bind_ext {A B : Type} (m : Run A) (f g : A -> Run B) :
  (forall a, f a = g a) -> bind m f = bind m g.
Proof. intros H. unfold bind. destruct (result m); try rewrite H; reflexivity. Qed.

Lemma forEach_ext {A S : Type} (l : list A) (f g : S -> A -> Run S) :
  (forall x, In x l -> forall acc, f acc x = g acc x) ->
  forall acc, forEach l f acc = forEach l g acc.
Proof.
  induction l as [| x l IH]; intros H acc; simpl; [reflexivity |].
  rewrite (H x (or_introl eq_refl)).
  apply bind_ext. intros a. apply IH. intros y Hy. apply H. right. exact Hy.
Qed.

Lemma blocks_loop_ext (f g : JsValue -> Run (option Node))
    (blocks : list JsValue) :
  (forall b, In b blocks -> f b = g b) ->
  forall container,
    forEach blocks (append_rendered f) container
    = forEach blocks (append_rendered g) container.
Proof.
  intros H. apply forEach_ext. intros b Hb acc.
  unfold append_rendered. rewrite (H b Hb). reflexivity.
Qed.

Lemma renderSection_ext (f g : JsValue -> Run (option Node))
    (this : instance) (block : JsValue) :
  (forall b, In b (sub_blocks block) -> f b = g b) ->
  renderSection f this block = renderSection g this block.
Proof.
  intros H. unfold renderSection.
  apply bind_ext; intros section.
  apply bind_ext; intros title.
  apply bind_ext; intros section'.
  unfold sub_blocks in H.
  destruct (field block "blocks"); try reflexivity.
  simpl. rewrite !bind_ret. apply blocks_loop_ext. exact H.
Qed.

Lemma renderSubsection_ext (f g : JsValue -> Run (option Node))
    (this : instance) (block : JsValue) :
  (forall b, In b (sub_blocks block) -> f b = g b) ->
  renderSubsection f this block = renderSubsection g this block.
Proof.
  intros H. unfold renderSubsection.
  apply bind_ext; intros subsection.
  apply bind_ext; intros title.
  apply bind_ext; intros subsection'.
  unfold sub_blocks in H.
  destruct (field block "blocks"); try reflexivity.
  simpl. rewrite !bind_ret. apply blocks_loop_ext. exact H.
Qed.

Lemma renderBlock_body_ext (f g : JsValue -> Run (option Node))
    (this : instance) (block : JsValue) :
  (forall b, In b (sub_blocks block) -> f b = g b) ->
  renderBlock_body f this block = renderBlock_body g this block.
Proof.
  intros H. unfold renderBlock_body.
  rewrite (renderSection_ext f g this block H).
  rewrite (renderSubsection_ext f g this block H).
  reflexivity.
Qed.

Lemma depth_own (props : list (string * JsValue)) (key : string)
    (x : JsValue) :
  own props key = Some x -> depth x < depth (JObj props).
Proof.
  simpl. induction props as [| [k v] props IH]; simpl; [discriminate |].
  destruct (String.eqb k key).
  - intros [= <-]. lia.
  - intros Hown. specialize (IH Hown). lia.
Qed.

Lemma depth_In (elems : list JsValue) (x : JsValue) :
  In x elems -> depth x < depth (JArr elems).
Proof.
  simpl. induction elems as [| y elems IH]; simpl; [contradiction |].
  intros [-> | Hin]; [lia | specialize (IH Hin); lia].
Qed.

Lemma depth_sub_block (block b : JsValue) :
  In b (sub_blocks block) -> depth b < depth block.
Proof.
  unfold sub_blocks, field.
  destruct block as [| | | | | | props]; try contradiction.
  destruct (own props "blocks") as [x |] eqn:Hown; [| contradiction].
  destruct x as [| | | | | elems |]; try contradiction.
  intros Hin. pose proof (depth_own _ _ _ Hown). pose proof (depth_In _ _ Hin).
  lia.
Qed.

(** Any recursion bound above the depth of the block gives the same run. *)
Lemma renderBlock_fuel_stable (this : instance) (n : nat) :
  forall (m : nat) (block : JsValue),
    depth block < n -> depth block < m ->
    renderBlock_fuel n this block = renderBlock_fuel m this block.
Proof.
  induction n as [| n IH]; intros m block Hn Hm; [lia |].
  destruct m as [| m]; [lia |].
  simpl. apply renderBlock_body_ext. intros b Hb.
  pose proof (depth_sub_block _ _ Hb).
  apply IH; lia.
Qed.

(** The equation of [renderBlock]: the method calls itself on the nested
    blocks. *)
Lemma renderBlock_unfold (this : instance) (block : JsValue) :
  renderBlock this block = renderBlock_body (renderBlock this) this block.
Proof.
  unfold renderBlock at 1. simpl.
  apply renderBlock_body_ext. intros b Hb.
  pose proof (depth_sub_block _ _ Hb).
  unfold renderBlock. apply renderBlock_fuel_stable; lia.
Qed.

(** *** Every render ends, and how *)

Lemma ordinary_ret {A : Type} (a : A) : ordinary (ret a).
Proof. exact I. Qed.

Lemma ordinary_TypeError {A : Type} : ordinary (@throw A TypeError).
Proof. exact I. Qed.

Lemma ordinary_InvalidCharacterError {A : Type} :
  ordinary (@throw A InvalidCharacterError).
Proof. exact I. Qed.

Lemma ordinary_warn (line : string) : ordinary (warn line).
Proof. exact I. Qed.

Lemma ordinary_bind {A B : Type} (m : Run A) (f : A -> Run B) :
  ordinary m -> (forall a, ordinary (f a)) -> ordinary (bind m f).
Proof.
  unfold ordinary. intros Hm Hf. rewrite result_bind.
  destruct (result m) as [a | [msg | |] |]; try contradiction;
    [apply Hf | exact I | exact I].
Qed.

Lemma ordinary_forEach {A S : Type} (l : list A) (f : S -> A -> Run S) :
  (forall x, In x l -> forall acc, ordinary (f acc x)) ->
  forall acc, ordinary (forEach l f acc).
Proof.
  induction l as [| x l IH]; intros H acc; simpl.
  - apply ordinary_ret.
  - apply ordinary_bind.
    + apply H. left; reflexivity.
    + intros a. apply IH. intros y Hy. apply H. right; exact Hy.
Qed.

Create HintDb ends discriminated.

#[local] Hint Resolve ordinary_ret ordinary_TypeError
  ordinary_InvalidCharacterError ordinary_warn : ends.

Ltac ends :=
  repeat first
    [ progress auto with ends
    | apply ordinary_bind; [| intros ?]
    | match goal with
      | |- ordinary (if ?c then _ else _) => destruct c
      | |- ordinary (match ?x with _ => _ end) => destruct x
      | |- ordinary (let _ := _ in _) => cbv zeta
      end ].

Lemma ordinary_Dom_createElement (tag : string) :
  ordinary (Dom.createElement tag).
Proof. unfold Dom.createElement. ends. Qed.

Lemma ordinary_setAttribute (element : Node) (name value : string) :
  ordinary (setAttribute element name value).
Proof. unfold setAttribute. ends. Qed.

#[local] Hint Resolve ordinary_Dom_createElement ordinary_setAttribute
  : ends.

Lemma ordinary_createElement (tag : string) (text : JsValue)
    (language : string) (attributes : list (string * string)) :
  ordinary (TextProcessor.createElement tag text language attributes).
Proof.
  unfold TextProcessor.createElement. ends.
  apply ordinary_forEach. intros; ends.
Qed.

Lemma ordinary_prop (v : JsValue) (key : string) : ordinary (prop v key).
Proof. unfold prop. ends. Qed.

Lemma ordinary_forEach_target (v : JsValue) :
  ordinary (forEach_target v).
Proof. unfold forEach_target. ends. Qed.

Lemma ordinary_ToString (v : JsValue) : ordinary (ToString v).
Proof.
  induction v as [| | b | n | s | elems IH | props _] using JsValue_induction;
    simpl; ends.
  induction IH as [| x l Hx _ IHl]; ends.
Qed.

#[local] Hint Resolve ordinary_createElement ordinary_prop
  ordinary_forEach_target ordinary_ToString : ends.

Lemma ordinary_ToString_value (v : Value) : ordinary (ToString_value v).
Proof. unfold ToString_value. ends. Qed.

#[local] Hint Resolve ordinary_ToString_value : ends.

Lemma ordinary_ToDOMString (v : Value) : ordinary (ToDOMString v).
Proof. unfold ToDOMString. ends. Qed.

Lemma ordinary_generateId (text : Value) : ordinary (generateId text).
Proof. unfold generateId. ends. Qed.

#[local] Hint Resolve ordinary_ToDOMString ordinary_generateId : ends.

Lemma ordinary_renderContact (this : instance) (contact : JsValue) :
  ordinary (renderContact this contact).
Proof. unfold renderContact. ends. Qed.

#[local] Hint Resolve ordinary_renderContact : ends.

Lemma ordinary_renderHeader (this : instance) (block : JsValue) :
  ordinary (renderHeader this block).
Proof. unfold renderHeader. ends. Qed.

Lemma ordinary_renderHeading (this : instance) (block : JsValue) :
  ordinary (renderHeading this block).
Proof. unfold renderHeading. ends. Qed.

Lemma ordinary_renderParagraph (this : instance) (block : JsValue) :
  ordinary (renderParagraph this block).
Proof. unfold renderParagraph. ends. Qed.

Lemma ordinary_renderList (this : instance) (block : JsValue) :
  ordinary (renderList this block).
Proof.
  unfold renderList. ends.
  apply ordinary_forEach. intros; ends.
Qed.

Lemma ordinary_renderDivider (this : instance) (block : JsValue) :
  ordinary (renderDivider this block).
Proof. unfold renderDivider. ends. Qed.

Lemma ordinary_blocks_loop (f : JsValue -> Run (option Node))
    (blocks : list JsValue) :
  (forall b, In b blocks -> ordinary (f b)) ->
  forall container,
    ordinary (forEach blocks (append_rendered f) container).
Proof.
  intros H. apply ordinary_forEach. intros b Hb acc.
  unfold append_rendered. apply ordinary_bind; [apply H; exact Hb |].
  intros [node |]; ends.
Qed.

Lemma ordinary_renderSection (f : JsValue -> Run (option Node))
    (this : instance) (block : JsValue) :
  (forall b, In b (sub_blocks block) -> ordinary (f b)) ->
  ordinary (renderSection f this block).
Proof.
  intros H. unfold renderSection, sub_blocks in *.
  do 3 (apply ordinary_bind; [ends | intros ?]).
  destruct (field block "blocks"); simpl; rewrite ?andb_false_r;
    try solve [ends].
  rewrite bind_ret. apply ordinary_blocks_loop. exact H.
Qed.

Lemma ordinary_renderSubsection (f : JsValue -> Run (option Node))
    (this : instance) (block : JsValue) :
  (forall b, In b (sub_blocks block) -> ordinary (f b)) ->
  ordinary (renderSubsection f this block).
Proof.
  intros H. unfold renderSubsection, sub_blocks in *.
  do 3 (apply ordinary_bind; [ends | intros ?]).
  destruct (field block "blocks"); simpl; rewrite ?andb_false_r;
    try solve [ends].
  rewrite bind_ret. apply ordinary_blocks_loop. exact H.
Qed.

#[local] Hint Resolve ordinary_renderHeader ordinary_renderHeading
  ordinary_renderParagraph ordinary_renderList ordinary_renderDivider
  : ends.

Lemma ordinary_renderBlock_body (f : JsValue -> Run (option Node))
    (this : instance) (block : JsValue) :
  (forall b, In b (sub_blocks block) -> ordinary (f b)) ->
  ordinary (renderBlock_body f this block).
Proof.
  intros H.
  pose proof (ordinary_renderSection f this block H).
  pose proof (ordinary_renderSubsection f this block H).
  unfold renderBlock_body, some. ends.
Qed.

(** [renderBlock] returns, or throws a TypeError or an
    InvalidCharacterError, on every value; in particular the recursion
    bound it starts from is never exhausted. *)
Lemma renderBlock_ordinary (this : instance) (block : JsValue) :
  ordinary (renderBlock this block).
Proof.
  remember (depth block) as d eqn:Hd.
  assert (Hle : depth block <= d) by lia. clear Hd.
  revert block Hle.
  induction d as [| d IH]; intros block Hle;
    rewrite renderBlock_unfold; apply ordinary_renderBlock_body;
    intros b Hb; pose proof (depth_sub_block _ _ Hb); [lia |].
  apply IH. lia.
Qed.

Lemma renderBlock_total (this : instance) (block : JsValue) :
  result (renderBlock this block) <> OutOfFuel.
Proof.
  pose proof (renderBlock_ordinary this block) as H. unfold ordinary in H.
  intros E. rewrite E in H. exact H.
Qed.

Lemma ordinary_generateTableOfContents (this : instance)
    (cvData : JsValue) :
  ordinary (generateTableOfContents this cvData).
Proof.
  unfold generateTableOfContents. ends.
  apply ordinary_forEach. intros; ends.
Qed.

(** Past its guard [renderCV] is ordinary too: the error of the guard is
    the only [Error] of a render. *)
Lemma renderCV_ordinary (this : instance) (cvData : JsValue) :
  truthy cvData = true -> truthy (field cvData "blocks") = true ->
  ordinary (renderCV this cvData).
Proof.
  intros Hdata Hblocks.
  pose proof (ordinary_generateTableOfContents this cvData).
  unfold renderCV. rewrite Hdata, Hblocks. cbn [negb orb]. ends.
  apply ordinary_blocks_loop. intros. apply renderBlock_ordinary.
Qed.

Lemma renderCV_total (this : instance) (cvData : JsValue) :
  result (renderCV this cvData) <> OutOfFuel.
Proof.
  destruct (truthy cvData) eqn:Hdata;
    [destruct (truthy (field cvData "blocks")) eqn:Hblocks |].
  - pose proof (renderCV_ordinary this cvData Hdata Hblocks) as H.
    unfold ordinary in H. intros E. rewrite E in H. exact H.
  - unfold renderCV. rewrite Hdata, Hblocks. discriminate.
  - unfold renderCV. rewrite Hdata. discriminate.
Qed.

(** The invalid-document error is raised exactly when the document, or its
    [blocks], is falsy. *)
Lemma renderCV_invalid_document (this : instance) (cvData : JsValue) :
  result (renderCV this cvData) = Throw (Error "Invalid CV data structure")
  <-> truthy cvData = false \/ truthy (field cvData "blocks") = false.
Proof.
  split.
  - intros E.
    destruct (truthy cvData) eqn:Hdata; [| left; reflexivity].
    destruct (truthy (field cvData "blocks")) eqn:Hblocks;
      [| right; reflexivity].
    pose proof (renderCV_ordinary this cvData Hdata Hblocks) as H.
    unfold ordinary in H. rewrite E in H. contradiction.
  - intros [H | H]; unfold renderCV; rewrite H;
      [| rewrite orb_true_r]; reflexivity.
Qed.

(** C3 (the code departs from the claim).  A document whose [blocks] is the
    string ["not-an-array"] passes the guard of [renderCV], which tests
    truthiness only, and the render ends in the TypeError of calling
    [forEach] on a string in [generateTableOfContents], not in the error
    ["Invalid CV data structure"]: that error is raised exactly when the
    document or its [blocks] is falsy.  [validateCVData] rejects the same
    document.  The empty sequence renders: an outline without entries and
    an empty content container. *)
Theorem renderCV_not_an_array :
  forall this : instance,
    renderCV this (document (JStr "not-an-array")) = throw TypeError
    /\ validateCVData (document (JStr "not-an-array")) = false
    /\ (forall cvData,
          result (renderCV this cvData)
          = Throw (Error "Invalid CV data structure")
          <-> truthy cvData = false \/ truthy (field cvData "blocks") = false)
    /\ renderCV this (document (JArr [])) =
       ret {| toc := Some (Element "div" [("class", "cv-toc")]
                             [Element "h3" [("class", "toc-title")]
                                [Text "Table of Contents"];
                              Element "ul" [("class", "toc-list")] []]);
              content := Element "div" [("class", "cv-document")] [] |}.
Proof.
  intros this. split; [reflexivity |]. split; [reflexivity |].
  split; [| reflexivity].
  intros cvData. apply renderCV_invalid_document.
Qed.


(** *** Blocks of an unknown type *)

Lemma forEach_app {A S : Type} (l1 l2 : list A) (f : S -> A -> Run S)
    (acc : S) :
  result (forEach (l1 ++ l2) f acc)
  = result (bind (forEach l1 f acc) (forEach l2 f)).
Proof.
  revert acc. induction l1 as [| x l1 IH]; intros acc.
  - rewrite result_bind. reflexivity.
  - simpl. rewrite !result_bind. destruct (result (f acc x)); try reflexivity.
    rewrite IH, result_bind. reflexivity.
Qed.

Lemma result_bind_congr {A B : Type} (m1 m2 : Run A) (f g : A -> Run B) :
  result m1 = result m2 ->
  (forall a, result (f a) = result (g a)) ->
  result (bind m1 f) = result (bind m2 g).
Proof.
  intros Hm Hf. rewrite !result_bind, Hm.
  destruct (result m2); [apply Hf | reflexivity | reflexivity].
Qed.

(** An element over which the callback leaves the accumulator alone can be
    taken out of the array. *)
Lemma forEach_without {A S : Type} (pre post : list A) (x : A)
    (f : S -> A -> Run S) :
  (forall acc, result (f acc x) = Ok acc) ->
  forall acc,
    result (forEach (pre ++ x :: post) f acc)
    = result (forEach (pre ++ post) f acc).
Proof.
  intros Hx acc. rewrite !forEach_app.
  apply result_bind_congr; [reflexivity |].
  intros a. simpl. rewrite result_bind, Hx. reflexivity.
Qed.

Lemma not_block_type (t : string) :
  ~ In t block_types ->
  String.eqb t "header" = false /\ String.eqb t "heading" = false
  /\ String.eqb t "paragraph" = false /\ String.eqb t "section" = false
  /\ String.eqb t "subsection" = false /\ String.eqb t "list" = false
  /\ String.eqb t "divider" = false.
Proof.
  intros H. repeat split;
    match goal with
    | |- String.eqb t ?x = false =>
        destruct (String.eqb_spec t x) as [E | _];
        [exfalso; apply H; rewrite E; simpl; tauto | reflexivity]
    end.
Qed.

Lemma unrecognized_cases (block : JsValue) :
  unrecognized block = true ->
  exists props,
    block = JObj props
    /\ (field block "type" = JUndefined
        \/ exists t, field block "type" = JStr t /\ ~ In t block_types).
Proof.
  unfold unrecognized. destruct block as [| | | | | | props]; try discriminate.
  intros H. exists props. split; [reflexivity |].
  destruct (field (JObj props) "type") as [| | | | t | |]; try discriminate.
  - left. reflexivity.
  - right. exists t. split; [reflexivity |].
    intros Hin. unfold mem in H.
    assert (Hex : existsb (String.eqb t) block_types = true).
    { apply existsb_exists. exists t. split; [exact Hin | apply String.eqb_refl]. }
    rewrite Hex in H. discriminate.
Qed.

Lemma renderBlock_unrecognized (this : instance) (block : JsValue) :
  unrecognized block = true ->
  renderBlock this block = mkRun (diagnostic block) (Ok None).
Proof.
  intros Hun. destruct (unrecognized_cases _ Hun) as [props [-> Htype]].
  rewrite renderBlock_unfold.
  unfold renderBlock_body, diagnostic.
  destruct Htype as [-> | [t [-> Ht]]]; [reflexivity |].
  cbn [truthy negb orb].
  destruct (String.eqb t "") eqn:Hempty; [reflexivity |].
  cbn [negb]. unfold is_string.
  destruct (not_block_type t Ht) as [-> [-> [-> [-> [-> [-> ->]]]]]].
  reflexivity.
Qed.

Lemma generateTableOfContents_without (this : instance) (block : JsValue)
    (pre post : list JsValue) :
  unrecognized block = true ->
  result (generateTableOfContents this (document (JArr (pre ++ block :: post))))
  = result (generateTableOfContents this (document (JArr (pre ++ post)))).
Proof.
  intros Hun. unfold generateTableOfContents, document.
  cbn [field own String.eqb Ascii.eqb Bool.eqb truthy negb orb forEach_target].
  apply result_bind_congr; [reflexivity | intros tocContainer].
  apply result_bind_congr; [reflexivity | intros tocTitle].
  apply result_bind_congr; [reflexivity | intros tocList].
  rewrite !bind_ret.
  apply result_bind_congr; [| reflexivity].
  apply forEach_without. intros acc.
  destruct (unrecognized_cases _ Hun) as [props [-> Htype]].
  unfold prop. rewrite bind_ret.
  destruct Htype as [-> | [t [-> Ht]]]; [reflexivity |].
  unfold is_string.
  destruct (not_block_type t Ht) as [_ [_ [_ [-> _]]]]. reflexivity.
Qed.

Lemma blocks_loop_without (this : instance) (block : JsValue)
    (pre post : list JsValue) (container : Node) :
  unrecognized block = true ->
  result (forEach (pre ++ block :: post)
            (append_rendered (renderBlock this)) container)
  = result (forEach (pre ++ post)
              (append_rendered (renderBlock this)) container).
Proof.
  intros Hun. apply forEach_without. intros acc.
  unfold append_rendered.
  rewrite (renderBlock_unrecognized this block Hun). reflexivity.
Qed.

(** C9, as the claim states it, fails: a block whose type is the empty
    string, or which has no type, is dropped without a diagnostic. *)
Lemma renderBlock_empty_type_is_silent :
  ~ In "" block_types
  /\ renderBlock new (JObj [("type", JStr "")]) = ret None
  /\ console (renderBlock new (JObj [("type", JStr "")])) = []
  /\ console (renderBlock new (JObj [("title", JStr "Timeline")])) = [].
Proof.
  repeat split; try reflexivity.
  simpl. intuition discriminate.
Qed.

(** C9, amended.  For a block object whose type is a string other than the
    seven recognized ones, or is missing, [renderBlock] returns none
    without throwing; it logs the diagnostic ["Unknown block type: <type>"]
    when the type is not the empty string, and nothing when the type is
    empty or missing.  The block contributes no output: in a loop over
    blocks, and in the whole render, the result is the one obtained
    without the block. *)
Theorem renderBlock_unknown_type_absorbed :
  forall (this : instance) (block : JsValue),
    unrecognized block = true ->
    renderBlock this block = mkRun (diagnostic block) (Ok None)
    /\ (forall t,
          field block "type" = JStr t -> t <> "" ->
          diagnostic block = [("Unknown block type: " ++ t)%string])
    /\ (truthy (field block "type") = false -> diagnostic block = [])
    /\ (forall pre post container,
          result (forEach (pre ++ block :: post)
                    (append_rendered (renderBlock this)) container)
          = result (forEach (pre ++ post)
                      (append_rendered (renderBlock this)) container))
    /\ (forall pre post,
          result (renderCV this (document (JArr (pre ++ block :: post))))
          = result (renderCV this (document (JArr (pre ++ post))))).
Proof.
  intros this block Hun. split; [| split; [| split; [| split]]].
  - apply renderBlock_unrecognized. exact Hun.
  - intros t Ht Hne. unfold diagnostic. rewrite Ht.
    destruct (String.eqb_spec t ""); [contradiction | reflexivity].
  - unfold diagnostic. destruct (field block "type"); try reflexivity.
    simpl. intros H. destruct (String.eqb s ""); [reflexivity | discriminate].
  - intros pre post container. apply blocks_loop_without. exact Hun.
  - intros pre post. unfold renderCV.
    change (field (document (JArr (pre ++ block :: post))) "blocks")
      with (JArr (pre ++ block :: post)).
    change (field (document (JArr (pre ++ post))) "blocks")
      with (JArr (pre ++ post)).
    cbn [document truthy negb orb isArray forEach_target].
    apply result_bind_congr;
      [apply (generateTableOfContents_without this block pre post Hun) |].
    intros toc.
    apply result_bind_congr; [reflexivity | intros cvContainer].
    rewrite !bind_ret.
    apply result_bind_congr; [| reflexivity].
    apply blocks_loop_without. exact Hun.
Qed.

Lemma renderBlock_unknown_type_absorbed_witness :
  unrecognized timeline = true
  /\ renderBlock new timeline
     = mkRun ["Unknown block type: timeline"] (Ok None)
  /\ result (renderCV new
               (document (JArr ([paragraph_hello] ++ timeline :: [paragraph_hello]))))
     = result (renderCV new
                 (document (JArr ([paragraph_hello] ++ [paragraph_hello])))).
Proof.
  destruct (renderBlock_unknown_type_absorbed new timeline eq_refl)
    as [Hrun [_ [_ [_ Hcv]]]].
  split; [reflexivity | split].
  - exact Hrun.
  - exact (Hcv [paragraph_hello] [paragraph_hello]).
Defined.

(** *** Loops over blocks *)

Lemma append_rendered_Ok (f : JsValue -> Run (option Node))
    (container : Node) (block : JsValue) (el : Node) :
  result (append_rendered f container block) = Ok el ->
  exists r,
    result (f block) = Ok r
    /\ el = match r with
            | Some node => appendChild container node
            | None => container
            end.
Proof.
  unfold append_rendered. intros H.
  apply result_bind_Ok in H. destruct H as [r [Hr H]].
  exists r. split; [exact Hr |].
  destruct r; simpl in H; congruence.
Qed.

Lemma append_rendered_of_Ok (f : JsValue -> Run (option Node))
    (container : Node) (block : JsValue) (r : option Node) :
  result (f block) = Ok r ->
  result (append_rendered f container block)
  = Ok match r with
       | Some node => appendChild container node
       | None => container
       end.
Proof.
  unfold append_rendered. intros H.
  rewrite (result_bind_of_Ok _ _ _ H). destruct r; reflexivity.
Qed.

Lemma fold_appendChild_app (l1 l2 : list Node) (container : Node) :
  fold_left appendChild (l1 ++ l2) container
  = fold_left appendChild l2 (fold_left appendChild l1 container).
Proof. apply fold_left_app. Qed.

Lemma fold_appendChild_element (l : list Node) (tag : string)
    (attrs : list (string * string)) (children : list Node) :
  fold_left appendChild l (Element tag attrs children)
  = Element tag attrs (children ++ l).
Proof.
  revert children. induction l as [| x l IH]; intros children; simpl.
  - rewrite app_nil_r. reflexivity.
  - change (appendChild (Element tag attrs children) x)
      with (Element tag attrs (children ++ [x])).
    rewrite IH, <- app_assoc. reflexivity.
Qed.

(** A loop over blocks that returns has rendered every block, in order,
    and appended the rendered ones, in order. *)
Lemma blocks_loop_Ok (f : JsValue -> Run (option Node))
    (blocks : list JsValue) :
  forall container el,
    result (forEach blocks (append_rendered f) container) = Ok el ->
    exists rendered,
      Forall2 (fun b r => result (f b) = Ok r) blocks rendered
      /\ el = fold_left appendChild (appended rendered) container.
Proof.
  induction blocks as [| b blocks IH]; intros container el H.
  - simpl in H. injection H as <-. exists []. split; [constructor | reflexivity].
  - simpl in H. apply result_bind_Ok in H. destruct H as [c' [Hb H]].
    apply append_rendered_Ok in Hb. destruct Hb as [r [Hr ->]].
    apply IH in H. destruct H as [rendered [Hall ->]].
    exists (r :: rendered). split; [constructor; assumption |].
    unfold appended. simpl. fold (appended rendered).
    rewrite fold_appendChild_app. destruct r; reflexivity.
Qed.

Lemma blocks_loop_of_Ok (f : JsValue -> Run (option Node))
    (blocks : list JsValue) (rendered : list (option Node)) :
  Forall2 (fun b r => result (f b) = Ok r) blocks rendered ->
  forall container,
    result (forEach blocks (append_rendered f) container)
    = Ok (fold_left appendChild (appended rendered) container).
Proof.
  induction 1 as [| b r blocks rendered Hr _ IH]; intros container.
  - reflexivity.
  - simpl forEach.
    rewrite (result_bind_of_Ok _ _ _ (append_rendered_of_Ok f container b r Hr)).
    rewrite IH. unfold appended. simpl. fold (appended rendered).
    rewrite fold_appendChild_app. destruct r; reflexivity.
Qed.

(** *** Sections *)

(** The last step of [renderSection] and [renderSubsection]: the loop over
    [block.blocks] when that is an array. *)
Lemma nested_loop_Ok (f : JsValue -> Run (option Node)) (block : JsValue)
    (tag : string) (attrs : list (string * string)) (heading : list Node)
    (el : Node) :
  result (if truthy (field block "blocks") && isArray (field block "blocks")
          then bind (forEach_target (field block "blocks"))
                 (fun subBlocks =>
                    forEach subBlocks (append_rendered f)
                      (Element tag attrs heading))
          else ret (Element tag attrs heading)) = Ok el ->
  exists rendered,
    Forall2 (fun b r => result (f b) = Ok r) (sub_blocks block) rendered
    /\ el = Element tag attrs (heading ++ appended rendered).
Proof.
  unfold sub_blocks.
  destruct (field block "blocks") as [| | b | n | s | elems | ps];
    cbn [truthy isArray andb forEach_target]; rewrite ?andb_false_r;
    try (intros [= <-]; exists []; split;
         [constructor | simpl; rewrite app_nil_r; reflexivity]).
  rewrite bind_ret. intros H. apply blocks_loop_Ok in H.
  destruct H as [rendered [Hall ->]]. exists rendered.
  split; [exact Hall | apply fold_appendChild_element].
Qed.

Lemma nested_loop_of_Ok (f : JsValue -> Run (option Node)) (block : JsValue)
    (tag : string) (attrs : list (string * string)) (heading : list Node)
    (rendered : list (option Node)) :
  Forall2 (fun b r => result (f b) = Ok r) (sub_blocks block) rendered ->
  result (if truthy (field block "blocks") && isArray (field block "blocks")
          then bind (forEach_target (field block "blocks"))
                 (fun subBlocks =>
                    forEach subBlocks (append_rendered f)
                      (Element tag attrs heading))
          else ret (Element tag attrs heading))
  = Ok (Element tag attrs (heading ++ appended rendered)).
Proof.
  unfold sub_blocks.
  destruct (field block "blocks") as [| | b | n | s | elems | ps];
    cbn [truthy isArray andb forEach_target]; rewrite ?andb_false_r;
    try (intros H; inversion H; subst; simpl; rewrite app_nil_r; reflexivity).
  rewrite bind_ret. intros H.
  rewrite (blocks_loop_of_Ok f elems rendered H).
  rewrite fold_appendChild_element. reflexivity.
Qed.

(** What a returning [renderSection] has built. *)
Lemma renderSection_Ok (f : JsValue -> Run (option Node)) (this : instance)
    (props : list (string * JsValue)) (el : Node) :
  result (renderSection f this (JObj props)) = Ok el ->
  exists attrs heading rendered,
    el = Element "div" attrs (heading ++ appended rendered)
    /\ Forall2 (fun b r => result (f b) = Ok r)
         (sub_blocks (JObj props)) rendered
    /\ (truthy (field (JObj props) "title") = false ->
        attrs = [("class", "cv-section")] /\ heading = [])
    /\ (truthy (field (JObj props) "title") = true ->
        exists id,
          result (generateId
                    (getLocalizedText (field (JObj props) "title")
                       (currentLanguage this))) = Ok id
          /\ attrs = [("class", "cv-section"); ("id", id)]
          /\ List.length heading = 1).
Proof.
  unfold renderSection. cbv zeta.
  rewrite (Dom_createElement_valid "div" eq_refl), bind_ret.
  unfold prop. rewrite bind_ret.
  intros H. apply result_bind_Ok in H. destruct H as [section [Ht Hk]].
  destruct (truthy (field (JObj props) "title")) eqn:Etitle.
  - apply result_bind_Ok in Ht. destruct Ht as [id [Hid Ht]].
    apply result_bind_Ok in Ht. destruct Ht as [titleElement [_ Ht]].
    apply result_bind_Ok in Ht. destruct Ht as [hashLink [_ Ht]].
    apply result_bind_Ok in Ht. destruct Ht as [titleString [_ Ht]].
    injection Ht as <-.
    change (appendChild
              (set_id
                 (set_className (Element (ascii_lowercase "div") [] [])
                    "cv-section") id) ?x)
      with (Element "div" [("class", "cv-section"); ("id", id)] [x]) in Hk.
    apply nested_loop_Ok in Hk. destruct Hk as [rendered [Hall ->]].
    eexists _, _, rendered. split; [reflexivity |].
    split; [exact Hall |]. split; [discriminate |].
    intros _. exists id. repeat split. exact Hid.
  - injection Ht as <-.
    change (set_className (Element (ascii_lowercase "div") [] []) "cv-section")
      with (Element "div" [("class", "cv-section")] []) in Hk.
    apply nested_loop_Ok in Hk. destruct Hk as [rendered [Hall ->]].
    eexists _, _, rendered. split; [reflexivity |].
    split; [exact Hall |]. split; [intros _; split; reflexivity |].
    discriminate.
Qed.

Lemma renderSection_untitled (f : JsValue -> Run (option Node))
    (this : instance) (props : list (string * JsValue))
    (rendered : list (option Node)) :
  truthy (field (JObj props) "title") = false ->
  Forall2 (fun b r => result (f b) = Ok r) (sub_blocks (JObj props)) rendered ->
  result (renderSection f this (JObj props))
  = Ok (Element "div" [("class", "cv-section")] (appended rendered)).
Proof.
  intros Htitle Hall. unfold renderSection. cbv zeta.
  rewrite (Dom_createElement_valid "div" eq_refl), bind_ret.
  unfold prop. rewrite bind_ret, Htitle, bind_ret.
  change (set_className (Element (ascii_lowercase "div") [] []) "cv-section")
    with (Element "div" [("class", "cv-section")] []).
  rewrite (nested_loop_of_Ok f (JObj props) _ _ _ rendered Hall).
  reflexivity.
Qed.

(** What a returning [renderSubsection] has built. *)
Lemma renderSubsection_Ok (f : JsValue -> Run (option Node))
    (this : instance) (props : list (string * JsValue)) (el : Node) :
  result (renderSubsection f this (JObj props)) = Ok el ->
  exists heading rendered,
    el = Element "div" [("class", "cv-subsection")]
           (heading ++ appended rendered)
    /\ Forall2 (fun b r => result (f b) = Ok r)
         (sub_blocks (JObj props)) rendered
    /\ heading
       = if truthy (field (JObj props) "title")
         then [text_element "h3" "subsection-title"
                 (field (JObj props) "title") (currentLanguage this)]
         else [].
Proof.
  unfold renderSubsection. cbv zeta.
  rewrite (Dom_createElement_valid "div" eq_refl), bind_ret.
  unfold prop. rewrite bind_ret.
  destruct (truthy (field (JObj props) "title")).
  - rewrite (createElement_with_class "h3" _ _ _ eq_refl), !bind_ret.
    change (appendChild
              (set_className (Element (ascii_lowercase "div") [] [])
                 "cv-subsection") ?x)
      with (Element "div" [("class", "cv-subsection")] [x]).
    intros H. apply nested_loop_Ok in H. destruct H as [rendered [Hall ->]].
    eexists _, rendered. repeat split. exact Hall.
  - rewrite bind_ret.
    change (set_className (Element (ascii_lowercase "div") [] [])
              "cv-subsection")
      with (Element "div" [("class", "cv-subsection")] []).
    intros H. apply nested_loop_Ok in H. destruct H as [rendered [Hall ->]].
    eexists _, rendered. repeat split. exact Hall.
Qed.

Lemma sub_blocks_own (props : list (string * JsValue))
    (subBlocks : list JsValue) :
  own props "blocks" = Some (JArr subBlocks) ->
  sub_blocks (JObj props) = subBlocks.
Proof. intros H. unfold sub_blocks, field. rewrite H. reflexivity. Qed.

(** The dispatcher on a section and on a subsection: the method that
    renders the nested blocks is the dispatcher itself. *)
Lemma renderBlock_section (this : instance) (props : list (string * JsValue)) :
  field (JObj props) "type" = JStr "section" ->
  renderBlock this (JObj props)
  = some (renderSection (renderBlock this) this (JObj props)).
Proof.
  intros Htype. rewrite renderBlock_unfold. unfold renderBlock_body.
  rewrite Htype. reflexivity.
Qed.

Lemma renderBlock_subsection (this : instance)
    (props : list (string * JsValue)) :
  field (JObj props) "type" = JStr "subsection" ->
  renderBlock this (JObj props)
  = some (renderSubsection (renderBlock this) this (JObj props)).
Proof.
  intros Htype. rewrite renderBlock_unfold. unfold renderBlock_body.
  rewrite Htype. reflexivity.
Qed.

(** C7.  On a section block, and on a subsection block, the dispatcher
    calls the method with itself as the renderer of nested blocks; a
    returning [renderSection] (or [renderSubsection]) has rendered every
    block of [block.blocks] with [renderBlock], in order, and its children
    are the heading followed by the rendered blocks that are not none, in
    that order; without a title there is no heading and the section renders
    whenever its nested blocks do.  A section holding a subsection holding
    a paragraph comes out nested three levels deep, with or without the
    title of the section. *)
Theorem renderSection_children_in_order :
  forall (this : instance) (props : list (string * JsValue))
         (subBlocks : list JsValue),
    own props "blocks" = Some (JArr subBlocks) ->
    (field (JObj props) "type" = JStr "section" ->
     renderBlock this (JObj props)
     = some (renderSection (renderBlock this) this (JObj props)))
    /\ (field (JObj props) "type" = JStr "subsection" ->
        renderBlock this (JObj props)
        = some (renderSubsection (renderBlock this) this (JObj props)))
    /\ (forall el,
          result (renderSection (renderBlock this) this (JObj props)) = Ok el ->
          exists heading rendered,
            Forall2 (fun b r => result (renderBlock this b) = Ok r)
              subBlocks rendered
            /\ children_of el = heading ++ appended rendered
            /\ (truthy (field (JObj props) "title") = false -> heading = []))
    /\ (forall el,
          result (renderSubsection (renderBlock this) this (JObj props))
          = Ok el ->
          exists heading rendered,
            Forall2 (fun b r => result (renderBlock this b) = Ok r)
              subBlocks rendered
            /\ children_of el = heading ++ appended rendered
            /\ (truthy (field (JObj props) "title") = false -> heading = []))
    /\ (forall rendered,
          truthy (field (JObj props) "title") = false ->
          Forall2 (fun b r => result (renderBlock this b) = Ok r)
            subBlocks rendered ->
          result (renderSection (renderBlock this) this (JObj props))
          = Ok (Element "div" [("class", "cv-section")] (appended rendered)))
    /\ renderBlock new (nested_section [("title", JStr "Work")])
       = ret (Some
                (Element "div" [("class", "cv-section"); ("id", "work")]
                   [Element "h2" [("class", "section-title")]
                      [Markup "Work";
                       Element "a"
                         [("href", "#work"); ("class", "section-hash-link");
                          ("title", "Link to Work")]
                         [Markup "#"]];
                    role_subsection]))
    /\ renderBlock new (nested_section [])
       = ret (Some (Element "div" [("class", "cv-section")] [role_subsection])).
Proof.
  intros this props subBlocks Hblocks.
  pose proof (sub_blocks_own props subBlocks Hblocks) as Hsub.
  split; [apply renderBlock_section |].
  split; [apply renderBlock_subsection |].
  split; [| split; [| split; [| split; reflexivity]]].
  - intros el H. apply renderSection_Ok in H.
    destruct H as [attrs [heading [rendered [-> [Hall [Hno _]]]]]].
    rewrite Hsub in Hall. exists heading, rendered.
    split; [exact Hall |]. split; [reflexivity |].
    intros Htitle. apply (Hno Htitle).
  - intros el H. apply renderSubsection_Ok in H.
    destruct H as [heading [rendered [-> [Hall Hheading]]]].
    rewrite Hsub in Hall. exists heading, rendered.
    split; [exact Hall |]. split; [reflexivity |].
    intros Htitle. rewrite Htitle in Hheading. exact Hheading.
  - intros rendered Htitle Hall. apply renderSection_untitled;
      [exact Htitle | rewrite Hsub; exact Hall].
Qed.

Lemma renderSection_children_in_order_witness :
  own [("type", JStr "section"); ("blocks", JArr [timeline; paragraph_hello])]
    "blocks" = Some (JArr [timeline; paragraph_hello])
  /\ result (renderSection (renderBlock new) new
               (JObj [("type", JStr "section");
                      ("blocks", JArr [timeline; paragraph_hello])]))
     = Ok (Element "div" [("class", "cv-section")]
             (appended
                [None;
                 Some (Element "p" [("class", "cv-paragraph")]
                         [Markup "Hello"])])).
Proof.
  split; [reflexivity |].
  destruct (renderSection_children_in_order new
              [("type", JStr "section");
               ("blocks", JArr [timeline; paragraph_hello])]
              [timeline; paragraph_hello] eq_refl)
    as [_ [_ [_ [_ [Hrenders _]]]]].
  apply Hrenders; [reflexivity |].
  repeat constructor.
Defined.

(** *** The table of contents *)

Lemma anchors_element (tag : string) (attrs : list (string * string))
    (children : list Node) :
  anchors (Element tag attrs children)
  = (if String.eqb tag "a"
     then match assoc attrs "href" with Some h => [h] | None => [] end
     else [])
    ++ flat_map anchors children.
Proof.
  cbn [anchors]. apply f_equal.
  induction children as [| n l IH]; [reflexivity |].
  cbn [flat_map]. rewrite <- IH. reflexivity.
Qed.

Lemma anchors_appendChild (tag : string) (attrs : list (string * string))
    (children : list Node) (child : Node) :
  anchors (appendChild (Element tag attrs children) child)
  = anchors (Element tag attrs children) ++ anchors child.
Proof.
  change (appendChild (Element tag attrs children) child)
    with (Element tag attrs (children ++ [child])).
  rewrite !anchors_element, flat_map_app. simpl.
  rewrite app_nil_r, app_assoc. reflexivity.
Qed.









(** On a document that follows the data model the outline is returned. *)
Lemma generateTableOfContents_returns (this : instance)
    (blocks : list JsValue) :
  Object_inherited (currentLanguage this) = None ->
  forallb toc_block_ok blocks = true ->
  exists toc,
    result (generateTableOfContents this (document (JArr blocks)))
    = Ok (Some toc).
Proof.
  intros HL Hok. unfold generateTableOfContents, document.
  cbn [field own String.eqb Ascii.eqb Bool.eqb truthy negb orb forEach_target].
  cbv zeta.
  rewrite (Dom_createElement_valid "div" eq_refl), bind_ret.
  rewrite (Dom_createElement_valid "h3" eq_refl), bind_ret.
  rewrite (Dom_createElement_valid "ul" eq_refl), !bind_ret.
  match goal with
  | |- exists toc, result (bind (forEach blocks ?cb ?acc) ?k) = _ =>
      assert (Hloop : forall acc', exists l, result (forEach blocks cb acc') = Ok l)
  end.
  { induction blocks as [| block blocks IH]; intros acc'.
    - exists acc'. reflexivity.
    - simpl in Hok. apply andb_prop in Hok. destruct Hok as [Hb Hrest].
      specialize (IH Hrest).
      assert (Hstep : exists acc'',
                 result
                   (bind (prop block "type")
                      (fun type =>
                         if is_string type "section"
                            && truthy (field block "title")
                         then
                           bind (generateId
                                   (getLocalizedText (field block "title")
                                      (currentLanguage this)))
                             (fun sectionId =>
                           bind (Dom.createElement "li") (fun tocItem =>
                           bind (Dom.createElement "a") (fun tocLink =>
                           bind (ToDOMString
                                   (getLocalizedText (field block "title")
                                      (currentLanguage this)))
                             (fun label =>
                           ret (appendChild acc'
                                  (appendChild
                                     (set_className tocItem "toc-item")
                                     (set_className
                                        (set_textContent
                                           (set_href tocLink ("#" ++ sectionId))
                                           label)
                                        "toc-link")))))))
                         else ret acc')) = Ok acc'').
      { assert (Hprop : prop block "type" = ret (field block "type")).
        { unfold toc_block_ok in Hb. destruct block; try discriminate;
            reflexivity. }
        assert (Htitle : LocalizedText (field block "title") = true).
        { unfold toc_block_ok in Hb. destruct block; try discriminate;
            exact Hb. }
        rewrite Hprop, bind_ret.
        destruct (is_string (field block "type") "section"
                  && truthy (field block "title")); [| eexists; reflexivity].
        destruct (getLocalizedText_string _ _ Htitle HL) as [s ->].
        rewrite (Dom_createElement_valid "li" eq_refl).
        rewrite (Dom_createElement_valid "a" eq_refl).
        unfold generateId, str, truthy_value, truthy.
        destruct (String.eqb s ""); cbn [negb]; rewrite !bind_ret;
          eexists; reflexivity. }
      destruct Hstep as [acc'' Hstep]. destruct (IH acc'') as [l Hl].
      exists l. simpl forEach.
      rewrite (result_bind_of_Ok _ _ _ Hstep). exact Hl. }
  destruct (Hloop (set_className (Element (ascii_lowercase "ul") [] [])
                     "toc-list")) as [l Hl].
  eexists. rewrite (result_bind_of_Ok _ _ _ Hl). reflexivity.
Qed.

(** *** Strings *)

Lemma append_assoc (a b c : string) :
  ((a ++ b) ++ c = a ++ (b ++ c))%string.
Proof. induction a as [| x a IH]; simpl; [| rewrite IH]; reflexivity. Qed.

Lemma append_nil_r (a : string) : (a ++ "" = a)%string.
Proof. induction a as [| x a IH]; simpl; [| rewrite IH]; reflexivity. Qed.

Lemma length_append (a b : string) :
  String.length (a ++ b) = String.length a + String.length b.
Proof. induction a as [| x a IH]; simpl; [| rewrite IH]; reflexivity. Qed.

Lemma all_chars_append (p : ascii -> bool) (a b : string) :
  all_chars p (a ++ b) = all_chars p a && all_chars p b.
Proof.
  induction a as [| x a IH]; simpl; [reflexivity |].
  rewrite IH, andb_assoc. reflexivity.
Qed.

Lemma strip_prefix_append (pre s : string) :
  strip_prefix pre (pre ++ s) = Some s.
Proof.
  induction pre as [| x pre IH]; simpl; [reflexivity |].
  rewrite Ascii.eqb_refl. exact IH.
Qed.

Lemma drop_append (a b : string) : drop (String.length a) (a ++ b) = b.
Proof.
  induction a as [| x a IH]; simpl; [destruct b; reflexivity | exact IH].
Qed.

Lemma take_append (a b : string) : take (String.length a) (a ++ b) = a.
Proof.
  induction a as [| x a IH]; simpl; [destruct b; reflexivity |].
  rewrite IH. reflexivity.
Qed.

(** A run of the class stops where the class does. *)
Lemma run_length_stop (p : ascii -> bool) (a : string) (x : ascii)
    (b : string) :
  all_chars p a = true -> p x = false ->
  run_length p (a ++ String x b) = String.length a.
Proof.
  intros Ha Hx. induction a as [| y a IH]; simpl.
  - rewrite Hx. reflexivity.
  - simpl in Ha. apply andb_prop in Ha. destruct Ha as [Hy Ha].
    rewrite Hy, (IH Ha). reflexivity.
Qed.

(** *** Matching and replacing *)

(** A markup pattern matches at its delimiters, with the content for
    [$1]. *)
Lemma exec_markup (opening c rest : string) :
  all_chars not_apostrophe c = true -> c <> "" ->
  exec (markup_pattern opening) (opening ++ c ++ "')}}" ++ rest)
  = Some (c, rest).
Proof.
  intros Hc Hne. unfold markup_pattern. cbn [exec].
  rewrite strip_prefix_append.
  change ("')}}" ++ rest)%string
    with (String "'" (String ")" (String "}" (String "}" rest)))).
  rewrite (run_length_stop not_apostrophe c "'" _ Hc eq_refl).
  destruct c as [| x c]; [contradiction |].
  cbn [String.length].
  change (S (String.length c)) with (String.length (String x c)).
  rewrite drop_append, take_append.
  reflexivity.
Qed.

(** It matches nowhere else than at an opening brace. *)
Lemma exec_markup_other (o : string) (a : ascii) (s : string) :
  Ascii.eqb a "{" = false ->
  exec (markup_pattern (String "{" o)) (String a s) = None.
Proof.
  intros Ha. unfold markup_pattern. cbn [exec strip_prefix].
  rewrite Ascii.eqb_sym, Ha. reflexivity.
Qed.

Lemma replace_no_match (re : pattern) (f : string -> string) (a : ascii)
    (s : string) :
  exec re (String a s) = None ->
  replace re f (String a s) = String a (replace re f s).
Proof. intros H. unfold replace. cbn [replace_from]. rewrite H. reflexivity. Qed.

Lemma replace_from_skip (re : pattern) (f : string -> string)
    (x s : string) :
  replace_from re f (String.length x) (x ++ s) = replace_from re f 0 s.
Proof.
  induction x as [| a x IH]; [reflexivity |].
  simpl. exact IH.
Qed.

(** A match that is not empty is replaced, and the scan resumes after
    it. *)
Lemma replace_match (re : pattern) (f : string -> string) (a : ascii)
    (m rest g : string) :
  exec re (String a m ++ rest) = Some (g, rest) ->
  replace re f (String a m ++ rest) = (f g ++ replace re f rest)%string.
Proof.
  intros H. unfold replace.
  change (String a m ++ rest)%string with (String a (m ++ rest)) in *.
  cbn [replace_from]. rewrite H.
  replace (String.length (String a (m ++ rest)) - String.length rest)
    with (S (String.length m)).
  - rewrite replace_from_skip. reflexivity.
  - cbn [String.length]. rewrite length_append. lia.
Qed.

(** *** Markup rules on flat text *)

Lemma passes_no_brace (o x : string) :
  no_brace x = true -> passes (String "{" o) x.
Proof.
  intros Hx wrap rest. induction x as [| a x IH]; [reflexivity |].
  unfold no_brace in Hx. simpl in Hx. apply andb_prop in Hx.
  destruct Hx as [Ha Hx]. apply negb_true_iff in Ha.
  change (String a x ++ rest)%string with (String a (x ++ rest)).
  rewrite (replace_no_match _ _ _ _ (exec_markup_other o a _ Ha)).
  rewrite (IH Hx). reflexivity.
Qed.

Lemma no_brace_append (a b : string) :
  no_brace (a ++ b) = no_brace a && no_brace b.
Proof. apply all_chars_append. Qed.

(** The bold rule copies an underline pattern, and the other way round. *)
Lemma passes_underline_written (c : string) :
  no_brace c = true -> passes "{{bold('" ("{{underline('" ++ c ++ "')}}").
Proof.
  intros Hc wrap rest.
  change (("{{underline('" ++ c ++ "')}}") ++ rest)%string
    with (String "{" (String "{" (("underline('" ++ c ++ "')}}") ++ rest))).
  rewrite replace_no_match by reflexivity.
  rewrite replace_no_match by reflexivity.
  rewrite (passes_no_brace "{bold('" ("underline('" ++ c ++ "')}}")).
  - reflexivity.
  - rewrite !no_brace_append, Hc. reflexivity.
Qed.

Lemma passes_bold_written (c : string) :
  no_brace c = true -> passes "{{underline('" ("{{bold('" ++ c ++ "')}}").
Proof.
  intros Hc wrap rest.
  change (("{{bold('" ++ c ++ "')}}") ++ rest)%string
    with (String "{" (String "{" (("bold('" ++ c ++ "')}}") ++ rest))).
  rewrite replace_no_match by reflexivity.
  rewrite replace_no_match by reflexivity.
  rewrite (passes_no_brace "{underline('" ("bold('" ++ c ++ "')}}")).
  - reflexivity.
  - rewrite !no_brace_append, Hc. reflexivity.
Qed.

(** A markup rule replaces its own pattern. *)
Lemma replace_written (o : string) (wrap : string -> string)
    (c rest : string) :
  all_chars not_apostrophe c = true -> c <> "" ->
  replace (markup_pattern (String "{" o)) wrap
    ((String "{" o ++ c ++ "')}}") ++ rest)
  = (wrap c ++ replace (markup_pattern (String "{" o)) wrap rest)%string.
Proof.
  intros Hc Hne.
  apply (replace_match _ wrap "{" (o ++ c ++ "')}}") rest c).
  change (String "{" (o ++ c ++ "')}}") ++ rest)%string
    with ((String "{" o ++ (c ++ "')}}")) ++ rest)%string.
  rewrite !append_assoc. apply exec_markup; assumption.
Qed.

Lemma content_ok_parts (c : string) :
  content_ok c = true ->
  no_brace c = true /\ all_chars not_apostrophe c = true /\ c <> "".
Proof.
  unfold content_ok. intros H. apply andb_prop in H. destruct H as [H Hne].
  apply andb_prop in H. destruct H as [Hb Ha].
  repeat split; try assumption.
  intros ->. discriminate.
Qed.

Lemma no_brace_strong (c : string) : no_brace c = true -> no_brace (strong c) = true.
Proof. intros H. unfold strong. rewrite !no_brace_append, H. reflexivity. Qed.

Lemma no_brace_u (c : string) : no_brace c = true -> no_brace (u c) = true.
Proof. intros H. unfold u. rewrite !no_brace_append, H. reflexivity. Qed.

Ltac flat_cons H ps Hp Hps :=
  unfold flat in H; simpl in H; apply andb_prop in H;
  destruct H as [Hp Hps]; change (flat ps = true) in Hps.

(** The bold rule on flat text replaces the bold patterns and nothing
    else. *)
Lemma bold_rule_written (ps : list piece) :
  flat ps = true -> bold_rule (written ps) = concat_pieces bold_done ps.
Proof.
  unfold bold_rule, written.
  change bold_pattern with (markup_pattern "{{bold('").
  induction ps as [| p ps IH]; intros H; [reflexivity |].
  flat_cons H ps Hp Hps. cbn [concat_pieces].
  destruct p as [t | c | c]; cbn [written_piece bold_done flat_piece] in *.
  - rewrite (passes_no_brace _ t Hp), (IH Hps). reflexivity.
  - destruct (content_ok_parts c Hp) as [_ [Ha Hne]].
    rewrite (replace_written _ strong c _ Ha Hne), (IH Hps). reflexivity.
  - destruct (content_ok_parts c Hp) as [Hb _].
    rewrite (passes_underline_written c Hb), (IH Hps). reflexivity.
Qed.

Lemma underline_rule_written (ps : list piece) :
  flat ps = true ->
  underline_rule (written ps) = concat_pieces underline_done ps.
Proof.
  unfold underline_rule, written.
  change underline_pattern with (markup_pattern "{{underline('").
  induction ps as [| p ps IH]; intros H; [reflexivity |].
  flat_cons H ps Hp Hps. cbn [concat_pieces].
  destruct p as [t | c | c]; cbn [written_piece underline_done flat_piece] in *.
  - rewrite (passes_no_brace _ t Hp), (IH Hps). reflexivity.
  - destruct (content_ok_parts c Hp) as [Hb _].
    rewrite (passes_bold_written c Hb), (IH Hps). reflexivity.
  - destruct (content_ok_parts c Hp) as [_ [Ha Hne]].
    rewrite (replace_written _ u c _ Ha Hne), (IH Hps). reflexivity.
Qed.

(** The underline rule after the bold rule, and the bold rule after the
    underline rule, both end in the text shown. *)
Lemma underline_rule_bold_done (ps : list piece) :
  flat ps = true ->
  underline_rule (concat_pieces bold_done ps) = shown ps.
Proof.
  unfold underline_rule, shown.
  change underline_pattern with (markup_pattern "{{underline('").
  induction ps as [| p ps IH]; intros H; [reflexivity |].
  flat_cons H ps Hp Hps. cbn [concat_pieces].
  destruct p as [t | c | c];
    cbn [written_piece bold_done shown_piece flat_piece] in *.
  - rewrite (passes_no_brace _ t Hp), (IH Hps). reflexivity.
  - destruct (content_ok_parts c Hp) as [Hb _].
    rewrite (passes_no_brace _ _ (no_brace_strong c Hb)), (IH Hps).
    reflexivity.
  - destruct (content_ok_parts c Hp) as [_ [Ha Hne]].
    rewrite (replace_written _ u c _ Ha Hne), (IH Hps). reflexivity.
Qed.

Lemma bold_rule_underline_done (ps : list piece) :
  flat ps = true ->
  bold_rule (concat_pieces underline_done ps) = shown ps.
Proof.
  unfold bold_rule, shown.
  change bold_pattern with (markup_pattern "{{bold('").
  induction ps as [| p ps IH]; intros H; [reflexivity |].
  flat_cons H ps Hp Hps. cbn [concat_pieces].
  destruct p as [t | c | c];
    cbn [written_piece underline_done shown_piece flat_piece] in *.
  - rewrite (passes_no_brace _ t Hp), (IH Hps). reflexivity.
  - destruct (content_ok_parts c Hp) as [_ [Ha Hne]].
    rewrite (replace_written _ strong c _ Ha Hne), (IH Hps). reflexivity.
  - destruct (content_ok_parts c Hp) as [Hb _].
    rewrite (passes_no_brace _ _ (no_brace_u c Hb)), (IH Hps).
    reflexivity.
Qed.

Lemma no_brace_shown (ps : list piece) :
  flat ps = true -> no_brace (shown ps) = true.
Proof.
  unfold shown. induction ps as [| p ps IH]; intros H; [reflexivity |].
  flat_cons H ps Hp Hps. cbn [concat_pieces]. rewrite no_brace_append, (IH Hps).
  destruct p as [t | c | c]; cbn [shown_piece flat_piece] in *.
  - rewrite Hp. reflexivity.
  - destruct (content_ok_parts c Hp) as [Hb _].
    rewrite (no_brace_strong c Hb). reflexivity.
  - destruct (content_ok_parts c Hp) as [Hb _].
    rewrite (no_brace_u c Hb). reflexivity.
Qed.

(** Text without an opening brace is left as it is by both rules. *)
Lemma rules_no_brace (x : string) :
  no_brace x = true -> bold_rule x = x /\ underline_rule x = x.
Proof.
  intros H. unfold bold_rule, underline_rule.
  change bold_pattern with (markup_pattern "{{bold('").
  change underline_pattern with (markup_pattern "{{underline('").
  pose proof (passes_no_brace "{bold('" x H strong "") as Hb.
  pose proof (passes_no_brace "{underline('" x H u "") as Hu.
  rewrite append_nil_r in Hb, Hu.
  rewrite Hb, Hu. cbn [replace replace_from exec markup_pattern strip_prefix].
  rewrite append_nil_r. split; reflexivity.
Qed.

Lemma processText_str (s : string) :
  processText (str s) = underline_rule (bold_rule s).
Proof.
  unfold processText, str. destruct (String.eqb_spec s "") as [-> | _];
    reflexivity.
Qed.

(** C4, as the claim states it, fails: on a bold pattern inside the content
    of a bold pattern the first application replaces the inner one, and
    what it leaves matches again, so the second application wraps a second
    time. *)
Lemma processText_twice_wraps_again :
  processText (str bold_in_bold) = "{{bold('<strong>x</strong>')}}"
  /\ processText (str (processText (str bold_in_bold)))
     = "<strong><strong>x</strong></strong>"
  /\ processText (str (processText (str bold_in_bold)))
     <> processText (str bold_in_bold).
Proof. repeat split; try reflexivity. discriminate. Qed.

(** C4, amended.  On text in flat markup (plain text and bold or underline
    patterns that are not nested: no opening brace outside the delimiters,
    contents not empty and without apostrophe) [processText] yields the
    text with every pattern replaced, and a second application changes
    nothing. *)
Theorem processText_flat_idempotent :
  forall ps : list piece,
    flat ps = true ->
    processText (str (written ps)) = shown ps
    /\ processText (str (processText (str (written ps))))
       = processText (str (written ps)).
Proof.
  intros ps H.
  assert (Hfirst : processText (str (written ps)) = shown ps).
  { rewrite processText_str, (bold_rule_written ps H).
    apply underline_rule_bold_done. exact H. }
  split; [exact Hfirst |].
  rewrite Hfirst, processText_str.
  destruct (rules_no_brace (shown ps) (no_brace_shown ps H)) as [Hb Hu].
  rewrite Hb, Hu. reflexivity.
Qed.

Lemma processText_flat_idempotent_witness :
  flat flat_line = true
  /\ processText (str (written flat_line))
     = "Led a team of <strong>five</strong> on <u>billing</u>."
  /\ processText (str (processText (str (written flat_line))))
     = processText (str (written flat_line)).
Proof.
  split; [reflexivity |].
  exact (processText_flat_idempotent flat_line eq_refl).
Defined.

(** C5, as the claim states it, fails: on an underline pattern inside the
    content of a bold pattern the bold rule finds nothing before the
    underline rule has run, and the whole after it. *)
Lemma markup_rules_order_matters :
  underline_rule (bold_rule underline_in_bold) = "{{bold('<u>x</u>')}}"
  /\ bold_rule (underline_rule underline_in_bold)
     = "<strong><u>x</u></strong>"
  /\ underline_rule (bold_rule underline_in_bold)
     <> bold_rule (underline_rule underline_in_bold).
Proof. repeat split; try reflexivity. discriminate. Qed.

(** C5, amended.  On text in flat markup the bold rule and the underline
    rule give the same result in either order: the text with every pattern
    replaced, which is what [processText] returns. *)
Theorem markup_rules_commute_on_flat :
  forall ps : list piece,
    flat ps = true ->
    underline_rule (bold_rule (written ps))
    = bold_rule (underline_rule (written ps))
    /\ processText (str (written ps))
       = bold_rule (underline_rule (written ps)).
Proof.
  intros ps H.
  assert (Hbu : underline_rule (bold_rule (written ps)) = shown ps).
  { rewrite (bold_rule_written ps H).
    apply underline_rule_bold_done. exact H. }
  assert (Hub : bold_rule (underline_rule (written ps)) = shown ps).
  { rewrite (underline_rule_written ps H).
    apply bold_rule_underline_done. exact H. }
  rewrite processText_str, Hbu, Hub. split; reflexivity.
Qed.

Lemma markup_rules_commute_on_flat_witness :
  flat flat_line = true
  /\ underline_rule (bold_rule (written flat_line))
     = bold_rule (underline_rule (written flat_line)).
Proof.
  split; [reflexivity |].
  exact (proj1 (markup_rules_commute_on_flat flat_line eq_refl)).
Defined.

(** *** The final [trim] of [generateId] *)

(** A replacement by text of a class yields text of that class when the
    input is of that class. *)
Lemma replace_from_all_chars (re : pattern) (f : string -> string)
    (q : ascii -> bool) :
  (forall g, all_chars q (f g) = true) ->
  forall s skip,
    all_chars q s = true -> all_chars q (replace_from re f skip s) = true.
Proof.
  intros Hf. induction s as [| c s IH]; intros skip Hs.
  - destruct skip; simpl; [| reflexivity].
    destruct (exec re "") as [[g rest] |]; [apply Hf | reflexivity].
  - simpl in Hs. apply andb_prop in Hs. destruct Hs as [Hc Hs].
    destruct skip as [| k]; cbn [replace_from]; [| apply IH; exact Hs].
    destruct (exec re (String c s)) as [[g rest] |].
    + destruct (String.length (String c s) - String.length rest);
        rewrite all_chars_append, Hf; simpl;
        rewrite ?Hc; apply IH; exact Hs.
    + simpl. rewrite Hc. apply IH. exact Hs.
Qed.

Lemma length_drop (k : nat) (s : string) :
  String.length (drop k s) = String.length s - k.
Proof.
  revert s. induction k as [| k IH]; intros s.
  - destruct s; simpl; lia.
  - destruct s as [| c s]; [reflexivity |]. simpl. apply IH.
Qed.

Lemma run_length_le (p : ascii -> bool) (s : string) :
  run_length p s <= String.length s.
Proof.
  induction s as [| c s IH]; simpl; [lia |]. destruct (p c); lia.
Qed.

(** [/[...]+/] matches the whole run at the start of the input, when there
    is one. *)
Lemma exec_plus (p : ascii -> bool) (s : string) :
  exec [Plus p] s
  = match run_length p s with
    | O => None
    | S k => Some ("", drop (S k) s)
    end.
Proof. cbn [exec]. destruct (run_length p s); reflexivity. Qed.

(** Replacing the runs of white space leaves none. *)
Lemma replace_spaces_none (f : string -> string) :
  (forall g, all_chars not_space (f g) = true) ->
  forall s skip,
    all_chars not_space (replace_from spaces_pattern f skip s) = true.
Proof.
  intros Hf. unfold spaces_pattern.
  induction s as [| c s IH]; intros skip.
  - destruct skip; reflexivity.
  - destruct skip as [| k]; cbn [replace_from]; [| apply IH].
    rewrite exec_plus.
    destruct (run_length is_space (String c s)) as [| k] eqn:Hrun.
    + simpl in Hrun. unfold all_chars; fold all_chars. unfold not_space at 1.
      destruct (is_space c); [discriminate |]. simpl. apply IH.
    + pose proof (run_length_le is_space (String c s)) as Hle.
      rewrite Hrun in Hle. rewrite length_drop.
      replace (String.length (String c s) - (String.length (String c s) - S k))
        with (S k) by lia.
      rewrite all_chars_append, Hf. apply IH.
Qed.

Lemma hyphenated_no_space (s : string) :
  all_chars not_space (hyphenated s) = true.
Proof.
  unfold hyphenated, replace.
  apply replace_from_all_chars; [reflexivity |].
  apply replace_spaces_none. reflexivity.
Qed.

Lemma rev_onto_all_chars (q : ascii -> bool) (s acc : string) :
  all_chars q (rev_onto s acc) = all_chars q s && all_chars q acc.
Proof.
  revert acc. induction s as [| c s IH]; intros acc; simpl; [reflexivity |].
  rewrite IH. simpl. destruct (q c), (all_chars q s); reflexivity.
Qed.

Lemma rev_onto_rev_onto (s acc acc' : string) :
  rev_onto (rev_onto s acc) acc' = rev_onto acc (s ++ acc')%string.
Proof.
  revert acc acc'. induction s as [| c s IH]; intros acc acc'; simpl.
  - reflexivity.
  - rewrite IH. reflexivity.
Qed.

Lemma rev_involutive (s : string) : rev (rev s) = s.
Proof.
  unfold rev. rewrite rev_onto_rev_onto. simpl. apply append_nil_r.
Qed.

Lemma trimStart_no_space (s : string) :
  all_chars not_space s = true -> trimStart s = s.
Proof.
  unfold trimStart. destruct s as [| c s]; [reflexivity |].
  simpl. unfold not_space at 1. destruct (is_space c); [discriminate |].
  reflexivity.
Qed.

(** [trim] finds nothing to remove where there is no white space. *)
Lemma trim_no_space (s : string) :
  all_chars not_space s = true -> trim s = s.
Proof.
  intros H. unfold trim, trimEnd. rewrite (trimStart_no_space s H).
  rewrite trimStart_no_space; [apply rev_involutive |].
  unfold rev. rewrite rev_onto_all_chars, H. reflexivity.
Qed.

(** C2 (the code departs from the claim).  On the two spaces ["  "]
    [generateId] answers ["-"], not the empty string, and a title with a
    space at either end keeps a hyphen there.  The final [trim] never
    removes anything: it runs when the white space has already become
    hyphens, so the slug is the text as the three replacements leave it.
    The other two examples of the claim hold. *)
Theorem generateId_keeps_edge_hyphens :
  generateId (str "  ") = ret "-"
  /\ generateId (str " Hello ") = ret "-hello-"
  /\ generateId (str "Work Experience!!") = ret "work-experience"
  /\ generateId (str "A -- B") = ret "a-b"
  /\ (forall s,
        trim (hyphenated s) = hyphenated s
        /\ (s <> "" -> generateId (str s) = ret (hyphenated s))).
Proof.
  repeat split; try reflexivity.
  - apply trim_no_space, hyphenated_no_space.
  - intros Hs. unfold generateId, str, truthy_value, truthy.
    destruct (String.eqb_spec s ""); [contradiction |].
    cbn [negb]. fold (hyphenated s).
    rewrite (trim_no_space _ (hyphenated_no_space s)). reflexivity.
Qed.

(* ------------------------------------------------------------------ *)
(** ** Further properties of the code *)

(** *** [generateId], step by step *)

Lemma filter_chars_ext (p q : ascii -> bool) (s : string) :
  (forall c, p c = q c) -> filter_chars p s = filter_chars q s.
Proof.
  intros H. induction s as [| c s IH]; simpl; [reflexivity |].
  rewrite H, IH. reflexivity.
Qed.

(** Replacing a class by nothing keeps the characters outside the class. *)
Lemma replace_class_filter (p : ascii -> bool) (s : string) :
  replace [Class p] (fun _ => "") s = filter_chars (fun c => negb (p c)) s.
Proof.
  unfold replace. induction s as [| c s IH]; [reflexivity |].
  cbn [replace_from exec filter_chars]. destruct (p c); cbn [negb].
  - replace (String.length (String c s) - String.length s) with 1
      by (cbn [String.length]; lia).
    simpl append. exact IH.
  - rewrite IH. reflexivity.
Qed.

(** Replacing the runs of a class by a hyphen, from the start of a run and
    from inside one. *)
Lemma replace_plus_collapse (p : ascii -> bool) (s : string) :
  replace_from [Plus p] (fun _ => "-") 0 s = collapse p false s
  /\ replace_from [Plus p] (fun _ => "-") (run_length p s) s
     = collapse p true s.
Proof.
  induction s as [| c s [IH0 IHrun]]; [split; reflexivity |].
  cbn [run_length collapse]. destruct (p c) eqn:Hc.
  - split.
    + cbn [replace_from]. rewrite exec_plus. cbn [run_length]. rewrite Hc.
      pose proof (run_length_le p s) as Hle.
      rewrite length_drop.
      replace (String.length (String c s)
               - (String.length (String c s) - S (run_length p s)))
        with (S (run_length p s)) by (cbn [String.length]; lia).
      rewrite IHrun. reflexivity.
    + cbn [replace_from]. exact IHrun.
  - assert (H0 : replace_from [Plus p] (fun _ => "-") 0 (String c s)
                 = String c (collapse p false s)).
    { cbn [replace_from]. rewrite exec_plus. cbn [run_length]. rewrite Hc.
      rewrite IH0. reflexivity. }
    split; exact H0.
Qed.

Lemma hyphenated_slug (s : string) : hyphenated s = slug s.
Proof.
  unfold hyphenated, slug, unsafe_pattern, spaces_pattern, hyphens_pattern.
  rewrite replace_class_filter.
  unfold replace at 1 2.
  rewrite (proj1 (replace_plus_collapse is_space _)).
  rewrite (proj1 (replace_plus_collapse is_hyphen _)).
  f_equal. f_equal. apply filter_chars_ext.
  intros c. unfold id_source_char. apply negb_involutive.
Qed.

(** What [generateId] returns for a string. *)
Lemma generateId_slug (s : string) : generateId (str s) = ret (slug s).
Proof.
  unfold generateId, str, truthy_value, truthy.
  destruct (String.eqb_spec s "") as [-> | Hs]; [reflexivity |].
  cbn [negb]. fold (hyphenated s).
  rewrite (trim_no_space _ (hyphenated_no_space s)), hyphenated_slug.
  reflexivity.
Qed.

(** *** The shape of a slug *)

Lemma all_chars_filter (p : ascii -> bool) (s : string) :
  all_chars p (filter_chars p s) = true.
Proof.
  induction s as [| c s IH]; simpl; [reflexivity |].
  destruct (p c) eqn:Hc; simpl; [rewrite Hc |]; exact IH.
Qed.

Lemma all_chars_collapse (p r q : ascii -> bool) (s : string) :
  (forall c, r c = true -> p c = false -> q c = true) ->
  q "-"%char = true ->
  all_chars r s = true ->
  forall b, all_chars q (collapse p b s) = true.
Proof.
  intros Hq Hhyphen. induction s as [| c s IH]; intros Hs b; [reflexivity |].
  simpl in Hs. apply andb_prop in Hs. destruct Hs as [Hc Hs].
  cbn [collapse]. destruct (p c) eqn:Hp.
  - destruct b; cbn [all_chars]; rewrite ?Hhyphen; apply IH; exact Hs.
  - cbn [all_chars]. rewrite (Hq c Hc Hp). apply IH. exact Hs.
Qed.

Lemma slug_chars (s : string) : all_chars slug_char (slug s) = true.
Proof.
  unfold slug.
  apply (all_chars_collapse is_hyphen slug_char slug_char);
    [intros c Hc _; exact Hc | reflexivity |].
  apply (all_chars_collapse is_space id_source_char slug_char);
    [| reflexivity | apply all_chars_filter].
  intros c Hc Hsp. unfold id_source_char in Hc. unfold slug_char.
  rewrite Hsp, orb_false_r in Hc. exact Hc.
Qed.

Lemma collapse_in_run_start (s : string) :
  starts_with_hyphen (collapse is_hyphen true s) = false.
Proof.
  induction s as [| c s IH]; [reflexivity |].
  cbn [collapse]. destruct (is_hyphen c) eqn:Hc; [exact IH | exact Hc].
Qed.

Lemma single_hyphens_cons (c : ascii) (s : string) :
  single_hyphens (String c s)
  = negb (is_hyphen c && starts_with_hyphen s) && single_hyphens s.
Proof.
  destruct s as [| d s]; [| reflexivity].
  simpl. rewrite andb_false_r. reflexivity.
Qed.

Lemma single_hyphens_collapse (s : string) (b : bool) :
  single_hyphens (collapse is_hyphen b s) = true.
Proof.
  revert b. induction s as [| c s IH]; intros b; [reflexivity |].
  cbn [collapse]. destruct (is_hyphen c) eqn:Hc.
  - destruct b; [apply IH |].
    rewrite single_hyphens_cons, collapse_in_run_start, IH.
    rewrite andb_false_r. reflexivity.
  - rewrite single_hyphens_cons, Hc, IH. reflexivity.
Qed.

(** X1.  A slug is made of lowercase letters a-z, digits and hyphens, and
    no two hyphens stand side by side in it: the identifier [generateId]
    returns for a string is safe in a URL fragment. *)
Theorem generateId_safe_id :
  forall s : string,
    exists id,
      generateId (str s) = ret id
      /\ all_chars slug_char id = true
      /\ single_hyphens id = true.
Proof.
  intros s. exists (slug s). split; [apply generateId_slug |].
  split; [apply slug_chars |].
  unfold slug. apply single_hyphens_collapse.
Qed.

Lemma lower_char_slug_char (c : ascii) :
  slug_char c = true -> lower_char c = c.
Proof.
  destruct c as [[] [] [] [] [] [] [] []]; intros H;
    first [reflexivity | discriminate H].
Qed.

Lemma toLowerCase_slug_chars (s : string) :
  all_chars slug_char s = true -> toLowerCase s = s.
Proof.
  unfold toLowerCase. induction s as [| c s IH]; [reflexivity |].
  simpl. intros H. apply andb_prop in H. destruct H as [Hc Hs].
  rewrite (lower_char_slug_char c Hc), (IH Hs). reflexivity.
Qed.

Lemma filter_chars_all (p q : ascii -> bool) (s : string) :
  (forall c, q c = true -> p c = true) ->
  all_chars q s = true -> filter_chars p s = s.
Proof.
  intros Hpq. induction s as [| c s IH]; [reflexivity |].
  simpl. intros H. apply andb_prop in H. destruct H as [Hc Hs].
  rewrite (Hpq c Hc), (IH Hs). reflexivity.
Qed.

Lemma collapse_none (p q : ascii -> bool) (s : string) (b : bool) :
  (forall c, q c = true -> p c = false) ->
  all_chars q s = true -> collapse p b s = s.
Proof.
  intros Hpq. revert b. induction s as [| c s IH]; intros b; [reflexivity |].
  simpl. intros H. apply andb_prop in H. destruct H as [Hc Hs].
  rewrite (Hpq c Hc), (IH false Hs). reflexivity.
Qed.

Lemma slug_char_not_space (c : ascii) :
  slug_char c = true -> is_space c = false.
Proof.
  destruct c as [[] [] [] [] [] [] [] []]; intros H;
    first [reflexivity | discriminate H].
Qed.

Lemma is_hyphen_eq (c : ascii) : is_hyphen c = true -> c = "-"%char.
Proof. unfold is_hyphen. apply Ascii.eqb_eq. Qed.

Lemma collapse_single_hyphens (s : string) :
  single_hyphens s = true ->
  collapse is_hyphen false s = s
  /\ (starts_with_hyphen s = false -> collapse is_hyphen true s = s).
Proof.
  induction s as [| c s IH]; [split; reflexivity |].
  rewrite single_hyphens_cons. intros H. apply andb_prop in H.
  destruct H as [Hc Hs]. destruct (IH Hs) as [IH0 IHrun].
  cbn [collapse starts_with_hyphen]. destruct (is_hyphen c) eqn:Hyp.
  - simpl in Hc. apply negb_true_iff in Hc.
    split; [| discriminate].
    rewrite (IHrun Hc), (is_hyphen_eq c Hyp). reflexivity.
  - rewrite IH0. split; reflexivity.
Qed.

(** A text that has the shape of a slug is its own slug. *)
Lemma slug_fixed (t : string) :
  all_chars slug_char t = true -> single_hyphens t = true -> slug t = t.
Proof.
  intros Hchars Hsingle. unfold slug.
  rewrite (toLowerCase_slug_chars t Hchars).
  rewrite (filter_chars_all id_source_char slug_char t); [| | exact Hchars].
  - rewrite (collapse_none is_space slug_char t false slug_char_not_space Hchars).
    apply (collapse_single_hyphens t Hsingle).
  - intros c Hc. unfold slug_char in Hc. unfold id_source_char.
    destruct (is_lower c), (is_digit c), (is_hyphen c), (is_space c);
      try reflexivity; discriminate.
Qed.

(** X2.  [generateId] is idempotent on strings: the slug of a slug is that
    slug, so an identifier can be passed through [generateId] again without
    changing. *)
Theorem generateId_idempotent :
  forall s id : string,
    generateId (str s) = ret id -> generateId (str id) = ret id.
Proof.
  intros s id H. rewrite generateId_slug in H. injection H as <-.
  rewrite generateId_slug.
  rewrite (slug_fixed (slug s) (slug_chars s)); [reflexivity |].
  unfold slug. apply single_hyphens_collapse.
Qed.

Lemma generateId_idempotent_witness :
  generateId (str "Work Experience!!") = ret "work-experience"
  /\ generateId (str "work-experience") = ret "work-experience".
Proof.
  split; [reflexivity |].
  apply (generateId_idempotent "Work Experience!!" "work-experience").
  reflexivity.
Defined.

Lemma filter_chars_empty (p : ascii -> bool) (s : string) :
  filter_chars p s = "" <-> all_chars (fun c => negb (p c)) s = true.
Proof.
  induction s as [| c s IH]; simpl; [tauto |].
  destruct (p c); simpl; [| exact IH].
  split; discriminate.
Qed.

Lemma collapse_empty (p : ascii -> bool) (s : string) :
  collapse p false s = "" <-> s = "".
Proof.
  destruct s as [| c s]; [tauto |].
  cbn [collapse]. destruct (p c); split; discriminate.
Qed.

(** X3.  The slug of a string is empty exactly when the string, once in
    lower case, has no letter a-z, no digit, no white space and no hyphen;
    so a title of white space only never has the empty slug. *)
Theorem generateId_empty_iff :
  forall s : string,
    generateId (str s) = ret ""
    <-> all_chars (fun c => negb (id_source_char c)) (toLowerCase s) = true.
Proof.
  intros s. rewrite generateId_slug. unfold slug.
  rewrite <- filter_chars_empty, <- (collapse_empty is_space),
    <- (collapse_empty is_hyphen).
  split; [intros [= H]; exact H | intros ->; reflexivity].
Qed.

(** *** Text that [processText] returns as it is *)

Lemma strip_prefix_Some (pre s r : string) :
  strip_prefix pre s = Some r -> s = (pre ++ r)%string.
Proof.
  revert s. induction pre as [| a pre IH]; intros s; simpl.
  - intros [= ->]. reflexivity.
  - destruct s as [| b s]; [discriminate |].
    destruct (Ascii.eqb_spec a b) as [-> | _]; [| discriminate].
    intros H. rewrite (IH s H). reflexivity.
Qed.

(** A markup pattern matches nothing in a text without apostrophe. *)
Lemma exec_markup_no_apostrophe (opening s : string) :
  all_chars not_apostrophe opening = false ->
  all_chars not_apostrophe s = true ->
  exec (markup_pattern opening) s = None.
Proof.
  intros Hopen Hs. unfold markup_pattern. cbn [exec].
  destruct (strip_prefix opening s) as [r |] eqn:Hstrip; [| reflexivity].
  apply strip_prefix_Some in Hstrip. subst s.
  rewrite all_chars_append, Hopen in Hs. discriminate.
Qed.

Lemma markup_rule_no_apostrophe (opening : string) (wrap : string -> string)
    (s : string) :
  all_chars not_apostrophe opening = false ->
  all_chars not_apostrophe s = true ->
  replace (markup_pattern opening) wrap s = s.
Proof.
  intros Hopen. induction s as [| c s IH]; intros Hs.
  - unfold replace. cbn [replace_from].
    rewrite (exec_markup_no_apostrophe opening "" Hopen eq_refl). reflexivity.
  - rewrite (replace_no_match _ _ _ _
               (exec_markup_no_apostrophe opening _ Hopen Hs)).
    simpl in Hs. apply andb_prop in Hs. destruct Hs as [_ Hs].
    rewrite (IH Hs). reflexivity.
Qed.

(** X4.  Text without an opening brace, and text without an apostrophe, is
    returned by [processText] exactly as it is: nothing but a complete
    pattern is ever touched. *)
Theorem processText_verbatim :
  forall s : string,
    no_brace s = true \/ all_chars not_apostrophe s = true ->
    processText (str s) = s.
Proof.
  intros s [H | H]; rewrite processText_str.
  - destruct (rules_no_brace s H) as [Hb Hu]. rewrite Hb, Hu. reflexivity.
  - unfold bold_rule, underline_rule.
    change bold_pattern with (markup_pattern "{{bold('").
    change underline_pattern with (markup_pattern "{{underline('").
    rewrite (markup_rule_no_apostrophe "{{bold('" strong s eq_refl H).
    apply (markup_rule_no_apostrophe "{{underline('" u s eq_refl H).
Qed.

Lemma processText_verbatim_witness :
  (no_brace "{{bold(Ada)}} & {{underline(Bob)}}" = true
   \/ all_chars not_apostrophe "{{bold(Ada)}} & {{underline(Bob)}}" = true)
  /\ processText (str "{{bold(Ada)}} & {{underline(Bob)}}")
     = "{{bold(Ada)}} & {{underline(Bob)}}".
Proof.
  split; [right; reflexivity |].
  apply processText_verbatim. right. reflexivity.
Defined.

(** *** [sanitizeHtml] *)

Lemma sanitizeHtml_str (s : string) :
  sanitizeHtml (str s) = ret (escape_text s).
Proof.
  unfold sanitizeHtml.
  rewrite (Dom_createElement_valid "div" eq_refl), bind_ret.
  unfold ToDOMString, str, ToString_value, ToString. rewrite bind_ret.
  unfold innerHTML_text, set_textContent.
  destruct s as [| c s]; reflexivity.
Qed.

Lemma escape_char_no_angle (c : ascii) :
  all_chars no_angle (escape_char c) = true.
Proof.
  unfold escape_char.
  destruct (is_char "&" c); [reflexivity |].
  destruct (code c =? 160)%N; [reflexivity |].
  destruct (is_char "<" c) eqn:Hlt; [reflexivity |].
  destruct (is_char ">" c) eqn:Hgt; [reflexivity |].
  simpl. unfold no_angle. rewrite Hlt, Hgt. reflexivity.
Qed.

Lemma escape_char_unescaped (c : ascii) :
  unescaped_char c = true -> escape_char c = String c EmptyString.
Proof.
  unfold unescaped_char, escape_char. intros H. apply negb_true_iff in H.
  destruct (is_char "&" c); [discriminate |].
  destruct (code c =? 160)%N; [discriminate |].
  destruct (is_char "<" c); [discriminate |].
  destruct (is_char ">" c); [discriminate | reflexivity].
Qed.

(** X5.  What [sanitizeHtml] returns for a string holds no [<] and no [>],
    so no tag of the input survives; and a string without [&], [<], [>]
    and no-break space comes back unchanged. *)
Theorem sanitizeHtml_no_markup :
  forall s : string,
    exists out,
      sanitizeHtml (str s) = ret out
      /\ all_chars no_angle out = true
      /\ (all_chars unescaped_char s = true -> out = s).
Proof.
  intros s. exists (escape_text s). split; [apply sanitizeHtml_str |].
  split.
  - induction s as [| c s IH]; [reflexivity |].
    cbn [escape_text]. rewrite all_chars_append, escape_char_no_angle.
    exact IH.
  - induction s as [| c s IH]; [reflexivity |].
    simpl. intros H. apply andb_prop in H. destruct H as [Hc Hs].
    rewrite (escape_char_unescaped c Hc), (IH Hs). reflexivity.
Qed.

Lemma sanitizeHtml_no_markup_witness :
  all_chars unescaped_char "Tom and Jerry" = true
  /\ sanitizeHtml (str "Tom and Jerry") = ret "Tom and Jerry".
Proof.
  split; [reflexivity |].
  destruct (sanitizeHtml_no_markup "Tom and Jerry") as [out [Hrun [_ Hsame]]].
  rewrite Hrun, (Hsame eq_refl). reflexivity.
Defined.

Lemma escape_char_cases (c : ascii) :
  (c = "&"%char /\ escape_char c = "&amp;")
  \/ (c = ascii_of_N 160 /\ escape_char c = "&nbsp;")
  \/ (c = "<"%char /\ escape_char c = "&lt;")
  \/ (c = ">"%char /\ escape_char c = "&gt;")
  \/ (is_char "&" c = false /\ escape_char c = String c EmptyString).
Proof.
  destruct c as [[] [] [] [] [] [] [] []];
    first [ left; split; reflexivity
          | right; left; split; reflexivity
          | right; right; left; split; reflexivity
          | right; right; right; left; split; reflexivity
          | right; right; right; right; split; reflexivity ].
Qed.

Lemma escape_text_cons (c1 c2 : ascii) (s1 s2 : string) :
  escape_text (String c1 s1) = escape_text (String c2 s2) ->
  c1 = c2 /\ escape_text s1 = escape_text s2.
Proof.
  cbn [escape_text].
  destruct (escape_char_cases c1) as [[-> ->] | [[-> ->] | [[-> ->] | [[-> ->] | [H1 ->]]]]];
    destruct (escape_char_cases c2) as [[-> ->] | [[-> ->] | [[-> ->] | [[-> ->] | [H2 ->]]]]];
    simpl; intros H; try discriminate H;
    try (injection H as H; split; [reflexivity | exact H]);
    try (injection H as -> _; discriminate);
    try (injection H as <- _; discriminate).
  injection H as -> H. split; [reflexivity | exact H].
Qed.

Lemma escape_text_injective (s1 s2 : string) :
  escape_text s1 = escape_text s2 -> s1 = s2.
Proof.
  revert s2. induction s1 as [| c1 s1 IH]; intros [| c2 s2] H.
  - reflexivity.
  - exfalso. cbn [escape_text] in H.
    destruct (escape_char_cases c2) as [[_ E] | [[_ E] | [[_ E] | [[_ E] | [_ E]]]]];
      rewrite E in H; discriminate H.
  - exfalso. cbn [escape_text] in H.
    destruct (escape_char_cases c1) as [[_ E] | [[_ E] | [[_ E] | [[_ E] | [_ E]]]]];
      rewrite E in H; discriminate H.
  - apply escape_text_cons in H. destruct H as [-> H].
    rewrite (IH s2 H). reflexivity.
Qed.

(** X6.  [sanitizeHtml] loses nothing: two strings with the same sanitized
    form are the same string. *)
Theorem sanitizeHtml_injective :
  forall s1 s2 : string,
    sanitizeHtml (str s1) = sanitizeHtml (str s2) -> s1 = s2.
Proof.
  intros s1 s2 H. rewrite !sanitizeHtml_str in H.
  injection H as H. apply escape_text_injective. exact H.
Qed.

Lemma sanitizeHtml_injective_witness :
  sanitizeHtml (str "a<b") = sanitizeHtml (str "a<b") /\ "a<b" = "a<b".
Proof.
  split; [reflexivity |].
  apply (sanitizeHtml_injective "a<b" "a<b"). reflexivity.
Defined.

(** *** Headings *)

Lemma string_of_uint_digits (d : Decimal.uint) :
  all_chars is_digit (NilEmpty.string_of_uint d) = true.
Proof. induction d; simpl; try exact IHd; reflexivity. Qed.

Lemma of_Z_numeral (n : Z) : all_chars numeral_char (of_Z n) = true.
Proof.
  assert (Hd : forall d, all_chars numeral_char (NilZero.string_of_uint d) = true).
  { intros d. unfold NilZero.string_of_uint.
    assert (H : all_chars numeral_char (NilEmpty.string_of_uint d) = true).
    { pose proof (string_of_uint_digits d) as H.
      induction (NilEmpty.string_of_uint d) as [| c s IH]; [reflexivity |].
      simpl in *. apply andb_prop in H. destruct H as [Hc Hs].
      unfold numeral_char at 1. rewrite Hc, (IH Hs). reflexivity. }
    destruct d; exact H. }
  unfold of_Z, NilZero.string_of_int.
  destruct (Z.to_int n); [apply Hd | simpl; apply Hd].
Qed.

Lemma numeral_char_name (c : ascii) :
  numeral_char c = true ->
  negb (ascii_whitespace c || (code c =? 0)%N || is_char "/" c
        || is_char ">" c) = true
  /\ ascii_lower_char c = c.
Proof.
  destruct c as [[] [] [] [] [] [] [] []]; intros H;
    first [split; reflexivity | discriminate H].
Qed.

Lemma numeral_name_chars (t : string) :
  all_chars numeral_char t = true ->
  all_chars (fun x => negb (ascii_whitespace x || (code x =? 0)%N
                            || is_char "/" x || is_char ">" x)) t = true
  /\ map_chars ascii_lower_char t = t.
Proof.
  induction t as [| c t IH]; [split; reflexivity |].
  cbn [all_chars map_chars]. intros H. apply andb_prop in H.
  destruct H as [Hc Ht].
  destruct (numeral_char_name c Hc) as [Hvalid Hlower].
  destruct (IH Ht) as [IHv IHl].
  rewrite Hvalid, Hlower, IHv, IHl. split; reflexivity.
Qed.

(** A tag made of [h] and a numeral is a valid name, in lower case
    already. *)
Lemma heading_tag (t : string) :
  all_chars numeral_char t = true ->
  valid_element_name ("h" ++ t) = true
  /\ ascii_lowercase ("h" ++ t) = ("h" ++ t)%string.
Proof.
  intros H. destruct (numeral_name_chars t H) as [Hvalid Hlower].
  split.
  - exact Hvalid.
  - change (ascii_lowercase ("h" ++ t))
      with (String "h" (map_chars ascii_lower_char t)).
    rewrite Hlower. reflexivity.
Qed.

(** X7.  [renderHeading] does not confine the level to 1..6: a level that
    is missing or falsy counts as 1, and any other safe integer [n] (one
    that a Number holds exactly, up to 2^53 - 1 in absolute value) gives
    the element [h<n>]; the class is [cv-name], [cv-title] or [cv-contact]
    for the levels 1, 2 and 3, and the empty class for every other
    level. *)
Theorem renderHeading_level :
  forall (this : instance) (props : list (string * JsValue)),
    (truthy (field (JObj props) "level") = false ->
     renderHeading this (JObj props)
     = ret (text_element "h1" "cv-name" (field (JObj props) "text")
              (currentLanguage this)))
    /\ (forall n,
          field (JObj props) "level" = JNum n -> n <> 0%Z ->
          safe_integer n = true ->
          renderHeading this (JObj props)
          = ret (set_attribute "class" (heading_class (JNum n))
                   (set_innerHTML (Element ("h" ++ of_Z n) [] [])
                      (processLocalizedText (field (JObj props) "text")
                         (currentLanguage this)))))
    /\ (forall n,
          heading_class (JNum n) = "" <-> n <> 1%Z /\ n <> 2%Z /\ n <> 3%Z).
Proof.
  intros this props. split; [| split].
  - intros Hlevel. unfold renderHeading, prop. rewrite bind_ret. cbv zeta.
    rewrite Hlevel. cbn [ToString]. rewrite bind_ret.
    apply (createElement_with_class "h1" _ _ _ eq_refl).
  - intros n Hlevel Hn _. unfold renderHeading, prop. rewrite bind_ret.
    cbv zeta. rewrite Hlevel. cbn [truthy].
    destruct (Z.eqb_spec n 0) as [E | _]; [contradiction |]. cbn [negb].
    cbn [ToString]. rewrite bind_ret.
    destruct (heading_tag (of_Z n) (of_Z_numeral n)) as [Hvalid Hlower].
    rewrite (createElement_with_class _ _ _ _ Hvalid).
    unfold text_element. rewrite Hlower. reflexivity.
  - intros n. unfold heading_class, is_number.
    destruct (Z.eqb_spec n 1) as [-> | H1]; [split; [discriminate | lia] |].
    destruct (Z.eqb_spec n 2) as [-> | H2]; [split; [discriminate | lia] |].
    destruct (Z.eqb_spec n 3) as [-> | H3]; [split; [discriminate | lia] |].
    split; [intros _; repeat split; assumption | reflexivity].
Qed.

Lemma renderHeading_level_witness :
  field (JObj [("type", JStr "heading"); ("level", JNum 7);
               ("text", JStr "Hobbies")]) "level" = JNum 7
  /\ safe_integer 7 = true
  /\ renderHeading new
       (JObj [("type", JStr "heading"); ("level", JNum 7);
              ("text", JStr "Hobbies")])
     = ret (Element "h7" [("class", "")] [Markup "Hobbies"]).
Proof.
  split; [reflexivity |]. split; [reflexivity |].
  destruct (renderHeading_level new
              [("type", JStr "heading"); ("level", JNum 7);
               ("text", JStr "Hobbies")]) as [_ [Hn _]].
  apply (Hn 7%Z); [reflexivity | discriminate | reflexivity].
Defined.

(** *** Lists and headers *)

Lemma createElement_plain (tag : string) (text : JsValue) (language : string) :
  valid_element_name tag = true ->
  TextProcessor.createElement tag text language [] =
  ret (set_innerHTML (Element (ascii_lowercase tag) [] [])
         (processLocalizedText text language)).
Proof.
  intros H. unfold TextProcessor.createElement.
  rewrite (Dom_createElement_valid tag H), bind_ret.
  reflexivity.
Qed.

Lemma list_loop (this : instance) (items : list JsValue) :
  forall children,
    forEach items
      (fun listElement item =>
         bind (TextProcessor.createElement "li" item (currentLanguage this) [])
           (fun listItem => ret (appendChild listElement listItem)))
      (Element "ul" [] children)
    = ret (Element "ul" [] (children ++ map (list_item this) items)).
Proof.
  induction items as [| item items IH]; intros children.
  - simpl. rewrite app_nil_r. reflexivity.
  - cbn [forEach map].
    rewrite (createElement_plain "li" _ _ eq_refl), !bind_ret.
    change (appendChild (Element "ul" [] children) ?x)
      with (Element "ul" [] (children ++ [x])).
    rewrite IH, <- app_assoc. reflexivity.
Qed.

(** X8.  [renderList] never fails on a block object, and renders the title
    (when there is one) followed, when [items] is an array, by one list
    element with one item for each entry of [items], in order; no entry is
    skipped, an empty or missing text giving an empty item. *)
Theorem renderList_items :
  forall (this : instance) (props : list (string * JsValue)),
    renderList this (JObj props)
    = ret (Element "div" [("class", "cv-list")]
             (list_title this (JObj props) ++ list_items this (JObj props))).
Proof.
  intros this props. unfold renderList, list_title, list_items.
  rewrite (Dom_createElement_valid "div" eq_refl), bind_ret.
  unfold prop. rewrite bind_ret.
  assert (Hitems : forall heading,
    (if truthy (field (JObj props) "items")
        && isArray (field (JObj props) "items")
     then
       bind (Dom.createElement "ul") (fun listElement =>
       bind (forEach_target (field (JObj props) "items")) (fun items =>
       bind (forEach items
               (fun listElement item =>
                  bind (TextProcessor.createElement "li" item
                          (currentLanguage this) [])
                    (fun listItem => ret (appendChild listElement listItem)))
               listElement)
         (fun listElement =>
            ret (appendChild
                   (Element "div" [("class", "cv-list")] heading)
                   listElement))))
     else ret (Element "div" [("class", "cv-list")] heading))
    = ret (Element "div" [("class", "cv-list")]
             (heading
              ++ match field (JObj props) "items" with
                 | JArr items => [Element "ul" [] (map (list_item this) items)]
                 | _ => []
                 end))).
  { intros heading.
    destruct (field (JObj props) "items") as [| | b | n | s | items | ps];
      cbn [truthy isArray andb forEach_target]; rewrite ?andb_false_r;
      rewrite ?app_nil_r; try reflexivity.
    rewrite (Dom_createElement_valid "ul" eq_refl), !bind_ret.
    change (Element (ascii_lowercase "ul") [] []) with (Element "ul" [] []).
    rewrite list_loop, bind_ret. reflexivity. }
  destruct (truthy (field (JObj props) "title")).
  - rewrite (createElement_with_class "div" _ _ _ eq_refl), !bind_ret.
    change (appendChild
              (set_className (Element (ascii_lowercase "div") [] []) "cv-list")
              ?x)
      with (Element "div" [("class", "cv-list")] [x]).
    apply Hitems.
  - rewrite bind_ret.
    change (set_className (Element (ascii_lowercase "div") [] []) "cv-list")
      with (Element "div" [("class", "cv-list")] []).
    apply Hitems.
Qed.

(** X9.  On a block object whose contact is missing or falsy, or whose
    contact follows the data model while the language of the renderer
    names no member inherited from [Object.prototype], [renderHeader]
    returns the header: the name as [h1.cv-name], the title as
    [h2.cv-title] and the contact line, in that order, each left out when
    its field is missing or falsy. *)
Theorem renderHeader_parts :
  forall (this : instance) (props : list (string * JsValue)),
    truthy (field (JObj props) "contact") = false
    \/ (Contact (field (JObj props) "contact") = true
        /\ Object_inherited (currentLanguage this) = None) ->
    renderHeader this (JObj props)
    = ret (Element "div" [("class", "cv-header")]
             (header_name this (JObj props)
              ++ header_title this (JObj props)
              ++ header_contact this (JObj props))).
Proof.
  intros this props Hcontact.
  unfold renderHeader, header_name, header_title, header_contact. cbv zeta.
  rewrite (Dom_createElement_valid "div" eq_refl), bind_ret.
  unfold prop. rewrite bind_ret.
  change (set_className (Element (ascii_lowercase "div") [] []) "cv-header")
    with (Element "div" [("class", "cv-header")] []).
  assert (Hname :
    (if truthy (field (JObj props) "name")
     then bind (TextProcessor.createElement "h1" (field (JObj props) "name")
                  (currentLanguage this) [("class", "cv-name")])
            (fun nameElement =>
               ret (appendChild (Element "div" [("class", "cv-header")] [])
                      nameElement))
     else ret (Element "div" [("class", "cv-header")] []))
    = ret (Element "div" [("class", "cv-header")]
             (if truthy (field (JObj props) "name")
              then [text_element "h1" "cv-name" (field (JObj props) "name")
                      (currentLanguage this)]
              else []))).
  { destruct (truthy (field (JObj props) "name")); [| reflexivity].
    rewrite (createElement_with_class "h1" _ _ _ eq_refl), bind_ret.
    reflexivity. }
  rewrite Hname, bind_ret. clear Hname.
  set (name := if truthy (field (JObj props) "name") then _ else _).
  assert (Htitle :
    (if truthy (field (JObj props) "title")
     then bind (TextProcessor.createElement "h2" (field (JObj props) "title")
                  (currentLanguage this) [("class", "cv-title")])
            (fun titleElement =>
               ret (appendChild (Element "div" [("class", "cv-header")] name)
                      titleElement))
     else ret (Element "div" [("class", "cv-header")] name))
    = ret (Element "div" [("class", "cv-header")]
             (name
              ++ (if truthy (field (JObj props) "title")
                  then [text_element "h2" "cv-title"
                          (field (JObj props) "title") (currentLanguage this)]
                  else [])))).
  { destruct (truthy (field (JObj props) "title"));
      [| rewrite app_nil_r; reflexivity].
    rewrite (createElement_with_class "h2" _ _ _ eq_refl), bind_ret.
    reflexivity. }
  rewrite Htitle, bind_ret. clear Htitle.
  destruct Hcontact as [Hfalsy | [Htyped HL]].
  - rewrite Hfalsy, !bind_ret, app_nil_r. reflexivity.
  - assert (Htruthy : truthy (field (JObj props) "contact") = true).
    { unfold Contact in Htyped.
      destruct (truthy (field (JObj props) "contact"));
        [reflexivity | discriminate]. }
    rewrite Htruthy, (renderContact_line this _ Htyped HL), !bind_ret.
    change (appendChild (Element "div" [("class", "cv-header")] ?l) ?x)
      with (Element "div" [("class", "cv-header")] (l ++ [x])).
    rewrite <- app_assoc. reflexivity.
Qed.

Lemma renderHeader_parts_witness :
  (truthy (field (JObj [("type", JStr "header"); ("name", JStr "Ada");
                        ("contact", contact_empty_phone)]) "contact") = false
   \/ (Contact (field (JObj [("type", JStr "header"); ("name", JStr "Ada");
                             ("contact", contact_empty_phone)]) "contact")
       = true
       /\ Object_inherited (currentLanguage new) = None))
  /\ renderHeader new
       (JObj [("type", JStr "header"); ("name", JStr "Ada");
              ("contact", contact_empty_phone)])
     = ret (Element "div" [("class", "cv-header")]
              [Element "h1" [("class", "cv-name")] [Markup "Ada"];
               Element "div" [("class", "cv-contact")]
                 [Text "Email: a@b.c | Location: Hanoi"]]).
Proof.
  split; [right; split; reflexivity |].
  apply (renderHeader_parts new
           [("type", JStr "header"); ("name", JStr "Ada");
            ("contact", contact_empty_phone)]).
  right. split; reflexivity.
Defined.

(** *** The element of a block *)

Lemma createElement_with_class_Ok (tag className : string) (text : JsValue)
    (language : string) (el : Node) :
  result (TextProcessor.createElement tag text language
            [("class", className)]) = Ok el ->
  el = text_element tag className text language.
Proof.
  destruct (valid_element_name tag) eqn:Hvalid.
  - rewrite (createElement_with_class tag _ _ _ Hvalid). intros [= <-].
    reflexivity.
  - unfold TextProcessor.createElement, Dom.createElement. rewrite Hvalid.
    discriminate.
Qed.

Lemma text_element_class (tag className : string) (text : JsValue)
    (language : string) :
  getAttribute (text_element tag className text language) "class"
  = Some className.
Proof. reflexivity. Qed.

(** A step that appends a child, or not, keeps the tag and the attributes
    of the element. *)
Lemma optional_child_Ok (tag : string) (attrs : list (string * string))
    (children : list Node) (test : bool) (m : Run Node) (el : Node) :
  result (if test
          then bind m (fun child =>
                 ret (appendChild (Element tag attrs children) child))
          else ret (Element tag attrs children)) = Ok el ->
  exists children', el = Element tag attrs children'.
Proof.
  destruct test.
  - intros H. apply result_bind_Ok in H. destruct H as [child [_ H]].
    injection H as <-. eexists. reflexivity.
  - intros [= <-]. eexists. reflexivity.
Qed.

Lemma renderHeader_class (this : instance) (props : list (string * JsValue))
    (el : Node) :
  result (renderHeader this (JObj props)) = Ok el ->
  getAttribute el "class" = Some "cv-header".
Proof.
  unfold renderHeader. cbv zeta.
  rewrite (Dom_createElement_valid "div" eq_refl), bind_ret.
  unfold prop. rewrite bind_ret.
  change (set_className (Element (ascii_lowercase "div") [] []) "cv-header")
    with (Element "div" [("class", "cv-header")] []).
  intros H.
  apply result_bind_Ok in H. destruct H as [h1 [H1 H]].
  apply optional_child_Ok in H1. destruct H1 as [c1 ->].
  apply result_bind_Ok in H. destruct H as [h2 [H2 H]].
  apply optional_child_Ok in H2. destruct H2 as [c2 ->].
  apply result_bind_Ok in H. destruct H as [h3 [H3 H]].
  apply optional_child_Ok in H3. destruct H3 as [c3 ->].
  injection H as <-. reflexivity.
Qed.

Lemma renderHeading_class (this : instance) (props : list (string * JsValue))
    (el : Node) :
  result (renderHeading this (JObj props)) = Ok el ->
  getAttribute el "class"
  = Some (heading_class (heading_level (JObj props))).
Proof.
  unfold renderHeading, prop. rewrite bind_ret. cbv zeta.
  fold (heading_level (JObj props)).
  intros H. apply result_bind_Ok in H. destruct H as [level_text [_ H]].
  fold (heading_class (heading_level (JObj props))) in H.
  apply createElement_with_class_Ok in H. subst el.
  apply text_element_class.
Qed.

Lemma renderParagraph_class (this : instance)
    (props : list (string * JsValue)) (el : Node) :
  result (renderParagraph this (JObj props)) = Ok el ->
  getAttribute el "class" = Some "cv-paragraph".
Proof.
  unfold renderParagraph, prop. rewrite bind_ret. intros H.
  apply createElement_with_class_Ok in H. subst el.
  apply text_element_class.
Qed.

Lemma renderSection_class (f : JsValue -> Run (option Node))
    (this : instance) (props : list (string * JsValue)) (el : Node) :
  result (renderSection f this (JObj props)) = Ok el ->
  getAttribute el "class" = Some "cv-section".
Proof.
  intros H. apply renderSection_Ok in H.
  destruct H as [attrs [heading [rendered [-> [_ [Hno Hyes]]]]]].
  destruct (truthy (field (JObj props) "title")).
  - destruct (Hyes eq_refl) as [id [_ [-> _]]]. reflexivity.
  - destruct (Hno eq_refl) as [-> _]. reflexivity.
Qed.

Lemma renderSubsection_class (f : JsValue -> Run (option Node))
    (this : instance) (props : list (string * JsValue)) (el : Node) :
  result (renderSubsection f this (JObj props)) = Ok el ->
  getAttribute el "class" = Some "cv-subsection".
Proof.
  intros H. apply renderSubsection_Ok in H.
  destruct H as [heading [rendered [-> _]]]. reflexivity.
Qed.

Lemma renderList_class (this : instance) (props : list (string * JsValue))
    (el : Node) :
  result (renderList this (JObj props)) = Ok el ->
  getAttribute el "class" = Some "cv-list".
Proof.
  unfold renderList. cbv zeta.
  rewrite (Dom_createElement_valid "div" eq_refl), bind_ret.
  unfold prop. rewrite bind_ret.
  change (set_className (Element (ascii_lowercase "div") [] []) "cv-list")
    with (Element "div" [("class", "cv-list")] []).
  intros H.
  apply result_bind_Ok in H. destruct H as [container [Ht H]].
  apply optional_child_Ok in Ht. destruct Ht as [children ->].
  destruct (truthy (field (JObj props) "items")
            && isArray (field (JObj props) "items")).
  - apply result_bind_Ok in H. destruct H as [ul [_ H]].
    apply result_bind_Ok in H. destruct H as [items [_ H]].
    apply result_bind_Ok in H. destruct H as [ul' [_ H]].
    injection H as <-. reflexivity.
  - injection H as <-. reflexivity.
Qed.

Lemma some_Ok {A : Type} (m : Run A) (r : option A) :
  result (some m) = Ok r -> exists a, r = Some a /\ result m = Ok a.
Proof.
  unfold some. intros H. apply result_bind_Ok in H.
  destruct H as [a [Ha H]]. injection H as <-.
  exists a. split; [reflexivity | exact Ha].
Qed.

Lemma falsy_not_recognized (block : JsValue) :
  truthy block = false \/ truthy (field block "type") = false ->
  recognized block = false.
Proof.
  unfold recognized. intros [H | H].
  - destruct block; try discriminate; reflexivity.
  - destruct (field block "type") as [| | | | t | |]; try reflexivity.
    simpl in H. apply negb_false_iff, String.eqb_eq in H. subst t.
    reflexivity.
Qed.

(** X10.  [renderBlock] returns an element exactly for the blocks of the
    seven types, and none for every other value; the element carries the
    class of its type: [cv-header], [cv-paragraph], [cv-section],
    [cv-subsection], [cv-list], [cv-divider], and for a heading the class
    of its level. *)
Theorem renderBlock_element :
  forall (this : instance) (block : JsValue) (r : option Node),
    result (renderBlock this block) = Ok r ->
    match r with
    | Some el =>
        recognized block = true
        /\ getAttribute el "class" = Some (block_class block)
    | None => recognized block = false
    end.
Proof.
  intros this block r. rewrite renderBlock_unfold. unfold renderBlock_body.
  destruct (truthy block) eqn:Hblock;
    [| intros [= <-]; apply falsy_not_recognized; left; exact Hblock].
  destruct (truthy (field block "type")) eqn:Htype;
    [| intros [= <-]; apply falsy_not_recognized; right; exact Htype].
  cbn [negb orb]. cbv zeta.
  assert (Hobj : exists props, block = JObj props).
  { destruct block as [| | | | | | props]; try discriminate Htype.
    exists props. reflexivity. }
  destruct Hobj as [props ->].
  unfold block_class, recognized. cbv zeta.
  destruct (field (JObj props) "type") as [| | b | n | t | l | ps];
    unfold is_string;
    try (cbn [ToString]; intros H; apply result_bind_Ok in H;
         destruct H as [text [_ H]]; apply result_bind_Ok in H;
         destruct H as [u [_ H]]; injection H as <-; reflexivity).
  unfold mem, block_types. cbn [existsb].
  destruct (String.eqb t "header");
    [intros H; apply some_Ok in H; destruct H as [el [-> H]];
     split; [reflexivity | exact (renderHeader_class _ _ _ H)] |].
  destruct (String.eqb t "heading");
    [intros H; apply some_Ok in H; destruct H as [el [-> H]];
     split; [reflexivity | exact (renderHeading_class _ _ _ H)] |].
  destruct (String.eqb t "paragraph");
    [intros H; apply some_Ok in H; destruct H as [el [-> H]];
     split; [reflexivity | exact (renderParagraph_class _ _ _ H)] |].
  destruct (String.eqb t "section");
    [intros H; apply some_Ok in H; destruct H as [el [-> H]];
     split; [reflexivity | exact (renderSection_class _ _ _ _ H)] |].
  destruct (String.eqb t "subsection");
    [intros H; apply some_Ok in H; destruct H as [el [-> H]];
     split; [reflexivity | exact (renderSubsection_class _ _ _ _ H)] |].
  destruct (String.eqb t "list");
    [intros H; apply some_Ok in H; destruct H as [el [-> H]];
     split; [reflexivity | exact (renderList_class _ _ _ H)] |].
  destruct (String.eqb t "divider");
    [intros H; apply some_Ok in H; destruct H as [el [-> H]];
     split; [reflexivity |]; injection H as <-; reflexivity |].
  cbn [ToString]. rewrite bind_ret. intros H.
  apply result_bind_Ok in H. destruct H as [u [_ H]].
  injection H as <-. reflexivity.
Qed.

Lemma renderBlock_element_witness :
  result (renderBlock new paragraph_hello)
  = Ok (Some (Element "p" [("class", "cv-paragraph")] [Markup "Hello"]))
  /\ recognized paragraph_hello = true
  /\ getAttribute (Element "p" [("class", "cv-paragraph")] [Markup "Hello"])
       "class" = Some (block_class paragraph_hello).
Proof.
  split; [reflexivity |].
  exact (renderBlock_element new paragraph_hello
           (Some (Element "p" [("class", "cv-paragraph")] [Markup "Hello"]))
           eq_refl).
Defined.

(** *** A render that returns *)

(** Past its guard, [generateTableOfContents] returns an outline or
    throws; it returns one only if [blocks] is an array. *)
Lemma generateTableOfContents_Ok (this : instance) (cvData : JsValue)
    (t : option Node) :
  truthy cvData = true -> truthy (field cvData "blocks") = true ->
  result (generateTableOfContents this cvData) = Ok t ->
  exists blocks outline,
    field cvData "blocks" = JArr blocks /\ t = Some outline.
Proof.
  intros Hdata Hblocks. unfold generateTableOfContents.
  rewrite Hdata, Hblocks. cbn [negb orb]. cbv zeta.
  rewrite (Dom_createElement_valid "div" eq_refl), bind_ret.
  rewrite (Dom_createElement_valid "h3" eq_refl), bind_ret.
  rewrite (Dom_createElement_valid "ul" eq_refl), bind_ret.
  intros H. apply result_bind_Ok in H. destruct H as [blocks [Hb H]].
  apply result_bind_Ok in H. destruct H as [tocList [_ H]].
  injection H as <-.
  exists blocks. eexists. split; [| reflexivity].
  destruct (field cvData "blocks"); try discriminate Hb.
  injection Hb as <-. reflexivity.
Qed.

(** X11.  When [renderCV] returns, the document is one that
    [validateCVData] accepts, the outline is there (never null), and the
    content is the container [cv-document] holding, in order, what
    [renderBlock] returned for the top-level blocks, the nones left out. *)
Theorem renderCV_returns :
  forall (this : instance) (cvData : JsValue) (out : RenderedOutput),
    result (renderCV this cvData) = Ok out ->
    validateCVData cvData = true
    /\ (exists outline, toc out = Some outline)
    /\ exists blocks rendered,
         field cvData "blocks" = JArr blocks
         /\ Forall2 (fun b r => result (renderBlock this b) = Ok r)
              blocks rendered
         /\ content out
            = Element "div" [("class", "cv-document")] (appended rendered).
Proof.
  intros this cvData out. unfold renderCV.
  destruct (truthy cvData) eqn:Hdata; [| discriminate].
  destruct (truthy (field cvData "blocks")) eqn:Hblocks; [| discriminate].
  cbn [negb orb]. cbv zeta. intros H.
  apply result_bind_Ok in H. destruct H as [t [Ht H]].
  destruct (generateTableOfContents_Ok this cvData t Hdata Hblocks Ht)
    as [blocks [outline [Harr ->]]].
  rewrite (Dom_createElement_valid "div" eq_refl), bind_ret in H.
  rewrite Harr in H. cbn [isArray forEach_target] in H.
  rewrite bind_ret in H.
  apply result_bind_Ok in H. destruct H as [container [Hloop H]].
  injection H as <-.
  change (set_className (Element (ascii_lowercase "div") [] []) "cv-document")
    with (Element "div" [("class", "cv-document")] []) in Hloop.
  apply blocks_loop_Ok in Hloop. destruct Hloop as [rendered [Hall ->]].
  split; [| split].
  - unfold validateCVData. rewrite Hdata, Harr. reflexivity.
  - exists outline. reflexivity.
  - exists blocks, rendered. split; [exact Harr |].
    split; [exact Hall |]. apply fold_appendChild_element.
Qed.

Lemma renderCV_returns_witness :
  result (renderCV new (document (JArr [timeline; paragraph_hello])))
  = Ok {| toc := Some (Element "div" [("class", "cv-toc")]
                         [Element "h3" [("class", "toc-title")]
                            [Text "Table of Contents"];
                          Element "ul" [("class", "toc-list")] []]);
          content := Element "div" [("class", "cv-document")]
                       [Element "p" [("class", "cv-paragraph")]
                          [Markup "Hello"]] |}
  /\ validateCVData (document (JArr [timeline; paragraph_hello])) = true.
Proof.
  split; [reflexivity |].
  exact (proj1 (renderCV_returns new
                  (document (JArr [timeline; paragraph_hello])) _ eq_refl)).
Defined.

(** *** A [null] among the blocks *)

Lemma type_errors_only_ret {A : Type} (a : A) : type_errors_only (ret a).
Proof. exact I. Qed.

Lemma type_errors_only_throw {A : Type} :
  type_errors_only (@throw A TypeError).
Proof. exact I. Qed.

Lemma type_errors_only_bind {A B : Type} (m : Run A) (f : A -> Run B) :
  type_errors_only m -> (forall a, type_errors_only (f a)) ->
  type_errors_only (bind m f).
Proof.
  unfold type_errors_only. intros Hm Hf. rewrite result_bind.
  destruct (result m) as [a | [msg | |] |]; try contradiction;
    [apply Hf | exact I].
Qed.

Lemma type_errors_only_ToString (v : JsValue) : type_errors_only (ToString v).
Proof.
  induction v as [| | b | n | s | elems IH | props _] using JsValue_induction;
    cbn [ToString]; try exact I.
  - destruct b; exact I.
  - apply type_errors_only_bind; [| intros; exact I].
    induction IH as [| x l Hx _ IHl]; [exact I |].
    apply type_errors_only_bind.
    + destruct x; first [exact I | exact Hx].
    + intros p. apply type_errors_only_bind; [exact IHl | intros; exact I].
  - destruct (own props "toString"); exact I.
Qed.

Lemma type_errors_only_ToDOMString (v : Value) :
  type_errors_only (ToDOMString v).
Proof.
  destruct v as [d | [name | |]]; try exact I.
  destruct d; first [exact I | apply type_errors_only_ToString].
Qed.

Lemma type_errors_only_generateId (text : Value) :
  type_errors_only (generateId text).
Proof.
  unfold generateId. destruct (truthy_value text); [| exact I].
  destruct text as [[| | | | | |] | h]; exact I.
Qed.

(** A loop that meets an element on which its callback throws a TypeError
    ends in a TypeError, when nothing else can be thrown before. *)
Lemma forEach_TypeError {A S : Type} (l : list A) (f : S -> A -> Run S)
    (bad : A) :
  In bad l ->
  (forall acc, result (f acc bad) = Throw TypeError) ->
  (forall acc x, type_errors_only (f acc x)) ->
  forall acc, result (forEach l f acc) = Throw TypeError.
Proof.
  intros Hin Hbad Hall. induction l as [| x l IH]; [contradiction |].
  intros acc. cbn [forEach]. rewrite result_bind.
  destruct Hin as [-> | Hin]; [rewrite Hbad; reflexivity |].
  pose proof (Hall acc x) as Hx. unfold type_errors_only in Hx.
  destruct (result (f acc x)) as [a | [msg | |] |]; try contradiction;
    [apply (IH Hin) | reflexivity].
Qed.

(** X12.  A [null] (or [undefined]) among the top-level blocks makes
    [renderCV] throw a TypeError, whatever the other blocks are: the loop
    of the table of contents reads [block.type] without the null check
    that [renderBlock] has, and [renderBlock] alone returns none for such
    an entry. *)
Theorem renderCV_null_block :
  forall (this : instance) (cvData : JsValue) (blocks : list JsValue),
    field cvData "blocks" = JArr blocks ->
    In JNull blocks \/ In JUndefined blocks ->
    result (renderCV this cvData) = Throw TypeError
    /\ renderBlock this JNull = ret None
    /\ renderBlock this JUndefined = ret None.
Proof.
  intros this cvData blocks Harr Hin.
  split; [| split; reflexivity].
  assert (Hdata : truthy cvData = true).
  { destruct cvData; try discriminate. reflexivity. }
  unfold renderCV, generateTableOfContents. rewrite Hdata, Harr.
  cbn [truthy negb orb forEach_target]. cbv zeta.
  rewrite (Dom_createElement_valid "div" eq_refl), bind_ret.
  rewrite (Dom_createElement_valid "h3" eq_refl), bind_ret.
  rewrite (Dom_createElement_valid "ul" eq_refl), !bind_ret.
  rewrite !result_bind.
  match goal with
  | |- match match result (forEach blocks ?cb ?acc) with _ => _ end
       with _ => _ end = _ =>
      assert (Hloop : result (forEach blocks cb acc) = Throw TypeError)
  end.
  { assert (Hbad : exists bad, In bad blocks /\ prop bad "type" = throw TypeError).
    { destruct Hin as [H | H]; eexists; (split; [exact H | reflexivity]). }
    destruct Hbad as [bad [Hbad Hprop]].
    apply (forEach_TypeError blocks _ bad Hbad).
    - intros acc. rewrite Hprop. reflexivity.
    - intros acc x. apply type_errors_only_bind.
      + unfold prop. destruct x; exact I.
      + intros type.
        destruct (is_string type "section" && truthy (field x "title"));
          [| exact I].
        apply type_errors_only_bind; [apply type_errors_only_generateId |].
        intros id.
        rewrite (Dom_createElement_valid "li" eq_refl), bind_ret.
        rewrite (Dom_createElement_valid "a" eq_refl), bind_ret.
        apply type_errors_only_bind; [apply type_errors_only_ToDOMString |].
        intros label. exact I. }
  rewrite Hloop. reflexivity.
Qed.

Lemma renderCV_null_block_witness :
  field (document (JArr [paragraph_hello; JNull])) "blocks"
  = JArr [paragraph_hello; JNull]
  /\ result (renderCV new (document (JArr [paragraph_hello; JNull])))
     = Throw TypeError.
Proof.
  split; [reflexivity |].
  apply (renderCV_null_block new (document (JArr [paragraph_hello; JNull]))
           [paragraph_hello; JNull] eq_refl).
  left. right. left. reflexivity.
Defined.

(** *** What a render writes to the console *)

Lemma console_bind {A B : Type} (m : Run A) (f : A -> Run B) :
  console (bind m f)
  = match result m with
    | Ok a => console m ++ console (f a)
    | _ => console m
    end.
Proof. unfold bind. destruct (result m); reflexivity. Qed.

Lemma silent_ret {A : Type} (a : A) : silent (ret a).
Proof. reflexivity. Qed.

Lemma silent_throw {A : Type} (e : JsError) : silent (@throw A e).
Proof. reflexivity. Qed.

Lemma silent_bind {A B : Type} (m : Run A) (f : A -> Run B) :
  silent m -> (forall a, silent (f a)) -> silent (bind m f).
Proof.
  unfold silent. intros Hm Hf. rewrite console_bind, Hm.
  destruct (result m); [apply Hf | reflexivity | reflexivity].
Qed.

Lemma silent_forEach {A S : Type} (l : list A) (f : S -> A -> Run S) :
  (forall acc x, silent (f acc x)) ->
  forall acc, silent (forEach l f acc).
Proof.
  intros H. induction l as [| x l IH]; intros acc; cbn [forEach].
  - reflexivity.
  - apply silent_bind; [apply H | exact IH].
Qed.

Create HintDb hush discriminated.

#[local] Hint Resolve silent_ret silent_throw : hush.

Ltac hush :=
  repeat first
    [ progress auto with hush
    | apply silent_bind; [| intros ?]
    | apply silent_forEach; intros ? ?
    | match goal with
      | |- silent (if ?c then _ else _) => destruct c
      | |- silent (match ?x with _ => _ end) => destruct x
      | |- silent (let _ := _ in _) => cbv zeta
      end ].

Lemma silent_Dom_createElement (tag : string) :
  silent (Dom.createElement tag).
Proof. unfold Dom.createElement. hush. Qed.

Lemma silent_setAttribute (element : Node) (name value : string) :
  silent (setAttribute element name value).
Proof. unfold setAttribute. hush. Qed.

#[local] Hint Resolve silent_Dom_createElement silent_setAttribute : hush.

Lemma silent_createElement (tag : string) (text : JsValue)
    (language : string) (attributes : list (string * string)) :
  silent (TextProcessor.createElement tag text language attributes).
Proof. unfold TextProcessor.createElement. hush. Qed.

Lemma silent_prop (v : JsValue) (key : string) : silent (prop v key).
Proof. unfold prop. hush. Qed.

Lemma silent_forEach_target (v : JsValue) : silent (forEach_target v).
Proof. unfold forEach_target. hush. Qed.

Lemma silent_ToString (v : JsValue) : silent (ToString v).
Proof.
  induction v as [| | b | n | s | elems IH | props _] using JsValue_induction;
    cbn [ToString]; hush.
  induction IH as [| x l Hx _ IHl]; hush.
Qed.

#[local] Hint Resolve silent_createElement silent_prop
  silent_forEach_target silent_ToString : hush.

Lemma silent_ToString_value (v : Value) : silent (ToString_value v).
Proof. unfold ToString_value. hush. Qed.

#[local] Hint Resolve silent_ToString_value : hush.

Lemma silent_ToDOMString (v : Value) : silent (ToDOMString v).
Proof. unfold ToDOMString. hush. Qed.

Lemma silent_generateId (text : Value) : silent (generateId text).
Proof. unfold generateId. hush. Qed.

#[local] Hint Resolve silent_ToDOMString silent_generateId : hush.

Lemma silent_renderContact (this : instance) (contact : JsValue) :
  silent (renderContact this contact).
Proof. unfold renderContact. hush. Qed.

#[local] Hint Resolve silent_renderContact : hush.

Lemma silent_renderHeader (this : instance) (block : JsValue) :
  silent (renderHeader this block).
Proof. unfold renderHeader. hush. Qed.

Lemma silent_renderHeading (this : instance) (block : JsValue) :
  silent (renderHeading this block).
Proof. unfold renderHeading. hush. Qed.

Lemma silent_renderParagraph (this : instance) (block : JsValue) :
  silent (renderParagraph this block).
Proof. unfold renderParagraph. hush. Qed.

Lemma silent_renderList (this : instance) (block : JsValue) :
  silent (renderList this block).
Proof. unfold renderList. hush. Qed.

Lemma silent_renderDivider (this : instance) (block : JsValue) :
  silent (renderDivider this block).
Proof. unfold renderDivider. hush. Qed.

Lemma silent_generateTableOfContents (this : instance) (cvData : JsValue) :
  silent (generateTableOfContents this cvData).
Proof. unfold generateTableOfContents. hush. Qed.

Lemma diagnostics_only_silent {A : Type} (m : Run A) :
  silent m -> diagnostics_only m.
Proof. unfold silent, diagnostics_only. intros ->. constructor. Qed.

Lemma diagnostics_only_bind {A B : Type} (m : Run A) (f : A -> Run B) :
  diagnostics_only m -> (forall a, diagnostics_only (f a)) ->
  diagnostics_only (bind m f).
Proof.
  unfold diagnostics_only. intros Hm Hf. rewrite console_bind.
  destruct (result m); [| exact Hm | exact Hm].
  apply Forall_app. split; [exact Hm | apply Hf].
Qed.

Lemma diagnostics_only_forEach {A S : Type} (l : list A)
    (f : S -> A -> Run S) :
  (forall x, In x l -> forall acc, diagnostics_only (f acc x)) ->
  forall acc, diagnostics_only (forEach l f acc).
Proof.
  induction l as [| x l IH]; intros H acc; cbn [forEach].
  - apply diagnostics_only_silent. reflexivity.
  - apply diagnostics_only_bind.
    + apply H. left; reflexivity.
    + intros a. apply IH. intros y Hy. apply H. right; exact Hy.
Qed.

Lemma diagnostic_line_built (type_text : string) :
  diagnostic_line ("Unknown block type: " ++ type_text) = true.
Proof. unfold diagnostic_line. cbn. destruct type_text; reflexivity. Qed.

Lemma diagnostics_only_blocks_loop (f : JsValue -> Run (option Node))
    (blocks : list JsValue) :
  (forall b, In b blocks -> diagnostics_only (f b)) ->
  forall container,
    diagnostics_only (forEach blocks (append_rendered f) container).
Proof.
  intros H. apply diagnostics_only_forEach. intros b Hb acc.
  unfold append_rendered. apply diagnostics_only_bind; [apply H; exact Hb |].
  intros [node |]; apply diagnostics_only_silent; hush.
Qed.

Lemma diagnostics_only_renderSection (f : JsValue -> Run (option Node))
    (this : instance) (block : JsValue) :
  (forall b, In b (sub_blocks block) -> diagnostics_only (f b)) ->
  diagnostics_only (renderSection f this block).
Proof.
  intros H. unfold renderSection, sub_blocks in *.
  do 3 (apply diagnostics_only_bind;
        [apply diagnostics_only_silent; hush | intros ?]).
  destruct (field block "blocks"); simpl; rewrite ?andb_false_r;
    try solve [apply diagnostics_only_silent; hush].
  rewrite bind_ret. apply diagnostics_only_blocks_loop. exact H.
Qed.

Lemma diagnostics_only_renderSubsection (f : JsValue -> Run (option Node))
    (this : instance) (block : JsValue) :
  (forall b, In b (sub_blocks block) -> diagnostics_only (f b)) ->
  diagnostics_only (renderSubsection f this block).
Proof.
  intros H. unfold renderSubsection, sub_blocks in *.
  do 3 (apply diagnostics_only_bind;
        [apply diagnostics_only_silent; hush | intros ?]).
  destruct (field block "blocks"); simpl; rewrite ?andb_false_r;
    try solve [apply diagnostics_only_silent; hush].
  rewrite bind_ret. apply diagnostics_only_blocks_loop. exact H.
Qed.

#[local] Hint Resolve silent_renderHeader silent_renderHeading
  silent_renderParagraph silent_renderList silent_renderDivider : hush.

Lemma diagnostics_only_some {A : Type} (m : Run A) :
  diagnostics_only m -> diagnostics_only (some m).
Proof.
  intros H. unfold some. apply diagnostics_only_bind; [exact H |].
  intros a. apply diagnostics_only_silent. reflexivity.
Qed.

Lemma diagnostics_only_renderBlock_body (f : JsValue -> Run (option Node))
    (this : instance) (block : JsValue) :
  (forall b, In b (sub_blocks block) -> diagnostics_only (f b)) ->
  diagnostics_only (renderBlock_body f this block).
Proof.
  intros H. unfold renderBlock_body.
  repeat match goal with
         | |- diagnostics_only (if ?c then _ else _) => destruct c
         | |- diagnostics_only (let _ := _ in _) => cbv zeta
         end;
    try solve [apply diagnostics_only_silent; unfold some; hush].
  - apply diagnostics_only_some, diagnostics_only_renderSection, H.
  - apply diagnostics_only_some, diagnostics_only_renderSubsection, H.
  - apply diagnostics_only_bind; [apply diagnostics_only_silent; hush |].
    intros type_text. apply diagnostics_only_bind.
    + unfold diagnostics_only. cbn [console warn].
      constructor; [apply diagnostic_line_built | constructor].
    + intros _. apply diagnostics_only_silent. reflexivity.
Qed.

Lemma diagnostics_only_renderBlock (this : instance) (block : JsValue) :
  diagnostics_only (renderBlock this block).
Proof.
  remember (depth block) as d eqn:Hd.
  assert (Hle : depth block <= d) by lia. clear Hd.
  revert block Hle.
  induction d as [| d IH]; intros block Hle;
    rewrite renderBlock_unfold; apply diagnostics_only_renderBlock_body;
    intros b Hb; pose proof (depth_sub_block _ _ Hb); [lia |].
  apply IH. lia.
Qed.

(** X13.  The only lines a render writes to the console are diagnostics
    of the form ["Unknown block type: ..."]: whatever the document, and
    whether [renderCV] returns or throws, every line it has logged
    starts with that prefix.  The table of contents and the renderers of
    the seven known block types write nothing themselves. *)
Theorem renderCV_logs_only_diagnostics :
  forall (this : instance) (cvData : JsValue),
    Forall (fun line => diagnostic_line line = true)
           (console (renderCV this cvData))
    /\ console (generateTableOfContents this cvData) = []
    /\ (forall block,
          console (renderHeader this block) = []
          /\ console (renderHeading this block) = []
          /\ console (renderParagraph this block) = []
          /\ console (renderList this block) = []
          /\ console (renderDivider this block) = []).
Proof.
  intros this cvData. split; [| split].
  - change (diagnostics_only (renderCV this cvData)). unfold renderCV.
    destruct (negb (truthy cvData) || negb (truthy (field cvData "blocks")));
      [apply diagnostics_only_silent; reflexivity |].
    apply diagnostics_only_bind;
      [apply diagnostics_only_silent, silent_generateTableOfContents |].
    intros toc.
    apply diagnostics_only_bind; [apply diagnostics_only_silent; hush |].
    intros container. cbv zeta.
    apply diagnostics_only_bind;
      [| intros; apply diagnostics_only_silent; reflexivity].
    destruct (isArray (field cvData "blocks"));
      [| apply diagnostics_only_silent; reflexivity].
    apply diagnostics_only_bind; [apply diagnostics_only_silent; hush |].
    intros blocks. apply diagnostics_only_blocks_loop.
    intros b _. apply diagnostics_only_renderBlock.
  - apply silent_generateTableOfContents.
  - intros block.
    split; [apply silent_renderHeader |].
    split; [apply silent_renderHeading |].
    split; [apply silent_renderParagraph |].
    split; [apply silent_renderList | apply silent_renderDivider].
Qed.

(** *** The outline of a document *)

Lemma toc_entries_loop (cb : Node -> JsValue -> Run Node)
    (entry : JsValue -> Node) (blocks : list JsValue) :
  (forall block, In block blocks ->
     forall tag attrs children,
       cb (Element tag attrs children) block
       = ret (Element tag attrs
                (children ++ if titled_section block then [entry block]
                             else []))) ->
  forall tag attrs children,
    forEach blocks cb (Element tag attrs children)
    = ret (Element tag attrs
             (children ++ map entry (filter titled_section blocks))).
Proof.
  induction blocks as [| block blocks IH]; intros Hcb tag attrs children.
  - cbn [forEach filter map]. rewrite app_nil_r. reflexivity.
  - cbn [forEach filter]. rewrite (Hcb block (or_introl eq_refl)), bind_ret.
    rewrite IH; [| intros b Hb; apply Hcb; right; exact Hb].
    destruct (titled_section block); cbn [map];
      rewrite <- app_assoc; reflexivity.
Qed.

(** X14.  When the language of the renderer names no member inherited
    from [Object.prototype], on a document whose top-level blocks are
    objects with LocalizedText titles, [generateTableOfContents] returns,
    without writing to the console, an outline of one entry per titled
    section in document order and nothing else: each entry links to ["#"]
    and the slug of the resolved title and is labelled with that title as
    a text node, so markup in a title is shown literally in the outline
    and is not parsed. *)
Theorem generateTableOfContents_outline :
  forall (this : instance) (blocks : list JsValue),
    Object_inherited (currentLanguage this) = None ->
    forallb toc_block_ok blocks = true ->
    generateTableOfContents this (document (JArr blocks))
    = ret (Some (outline this blocks)).
Proof.
  intros this blocks HL Hok. unfold generateTableOfContents, document.
  cbn [field own String.eqb Ascii.eqb Bool.eqb truthy negb orb forEach_target].
  cbv zeta.
  rewrite (Dom_createElement_valid "div" eq_refl), bind_ret.
  rewrite (Dom_createElement_valid "h3" eq_refl), bind_ret.
  rewrite (Dom_createElement_valid "ul" eq_refl), !bind_ret.
  change (set_className (Element (ascii_lowercase "ul") [] []) "toc-list")
    with (Element "ul" [("class", "toc-list")] []).
  rewrite (toc_entries_loop _ (toc_entry this) blocks).
  - rewrite bind_ret. reflexivity.
  - intros block Hin tag attrs children.
    assert (Hb : toc_block_ok block = true).
    { rewrite forallb_forall in Hok. apply Hok. exact Hin. }
    assert (Hprop : prop block "type" = ret (field block "type")).
    { destruct block; try discriminate; reflexivity. }
    rewrite Hprop, bind_ret. fold (titled_section block).
    destruct (titled_section block); [| rewrite app_nil_r; reflexivity].
    assert (Htitle : LocalizedText (field block "title") = true).
    { destruct block; try discriminate; exact Hb. }
    destruct (getLocalizedText_string _ _ Htitle HL) as [s Hs].
    unfold toc_entry, resolved_title. cbv zeta. rewrite Hs.
    cbn [str]. change (Data (JStr s)) with (str s).
    rewrite generateId_slug, bind_ret.
    rewrite (Dom_createElement_valid "li" eq_refl), bind_ret.
    rewrite (Dom_createElement_valid "a" eq_refl), bind_ret.
    change (ToDOMString (str s)) with (@ret string s). rewrite bind_ret.
    reflexivity.
Qed.

Lemma generateTableOfContents_outline_witness :
  generateTableOfContents new (document (JArr example_blocks))
  = ret (Some example_toc).
Proof.
  exact (generateTableOfContents_outline new example_blocks eq_refl eq_refl).
Defined.

(** *** Re-rendering into a container *)

(** X15.  [updateLanguage] on a container element never shows the new
    rendering: the call empties the container and then always throws,
    either the error of [renderCV] or, when [renderCV] returns, the
    TypeError of appending its [{ toc, content }] object as if it were a
    node.  Without a container it returns and does nothing. *)
Theorem updateLanguage_never_renders :
  forall (this : instance) (cvData : JsValue) (tag : string)
         (attrs : list (string * string)) (children : list Node),
    (exists run e,
       updateLanguage this cvData (Some (Element tag attrs children))
       = (Some (Element tag attrs []), run)
       /\ result run = Throw e
       /\ ((exists out, result (renderCV this cvData) = Ok out) ->
           e = TypeError))
    /\ updateLanguage this cvData None = (None, ret tt).
Proof.
  intros this cvData tag attrs children. split; [| reflexivity].
  unfold updateLanguage. cbv zeta.
  change (set_innerHTML (Element tag attrs children) "")
    with (Element tag attrs []).
  pose proof (renderCV_total this cvData) as Htotal.
  destruct (result (renderCV this cvData)) as [out | e |] eqn:Hr.
  - eexists _, TypeError. split; [reflexivity |].
    split; [rewrite result_bind, Hr; reflexivity | intros _; reflexivity].
  - eexists _, e. split; [reflexivity |].
    split; [rewrite result_bind, Hr; reflexivity |].
    intros [out Hout]. discriminate Hout.
  - contradiction Htotal. reflexivity.
Qed.

Lemma updateLanguage_never_renders_witness :
  (exists out,
     result (renderCV new (document (JArr [paragraph_hello]))) = Ok out)
  /\ exists run,
       updateLanguage new (document (JArr [paragraph_hello]))
         (Some (Element "main" [("id", "cv")] [Text "Loading"]))
       = (Some (Element "main" [("id", "cv")] []), run)
       /\ result run = Throw TypeError.
Proof.
  split; [eexists; vm_compute; reflexivity |].
  destruct (updateLanguage_never_renders new
              (document (JArr [paragraph_hello])) "main" [("id", "cv")]
              [Text "Loading"])
    as [[run [e [Hcall [Hthrow Herr]]]] _].
  exists run. split; [exact Hcall |].
  rewrite Hthrow, Herr; [reflexivity |].
  eexists; vm_compute; reflexivity.
Defined.

(** *** Elements with attributes *)

Lemma assoc_set_assoc (name key value : string)
    (l : list (string * string)) :
  assoc (set_assoc key value l) name
  = if String.eqb key name then Some value else assoc l name.
Proof.
  induction l as [| [n v] l IH]; cbn [set_assoc assoc].
  - reflexivity.
  - destruct (String.eqb_spec n key) as [-> | Hn]; cbn [assoc].
    + destruct (String.eqb key name); reflexivity.
    + rewrite IH. destruct (String.eqb_spec n name) as [-> | Hname];
        [| reflexivity].
      destruct (String.eqb_spec key name) as [-> | _];
        [contradiction Hn |]; reflexivity.
Qed.

Lemma attributes_loop (attributes : list (string * string)) :
  forall (tag : string) (attrs : list (string * string))
         (children : list Node),
    exists attrs',
      result (forEach attributes
                (fun element kv => setAttribute element (fst kv) (snd kv))
                (Element tag attrs children))
      = (if forallb (fun kv => valid_attribute_name (fst kv)) attributes
         then Ok (Element tag attrs' children)
         else Throw InvalidCharacterError)
      /\ forall name,
           forallb (fun kv => valid_attribute_name (fst kv)) attributes
           = true ->
           assoc attrs' name
           = match last_value name attributes with
             | Some value => Some value
             | None => assoc attrs name
             end.
Proof.
  induction attributes as [| [key value] rest IH]; intros tag attrs children.
  - exists attrs. split; [reflexivity | intros; reflexivity].
  - cbn [forEach forallb fst snd]. unfold setAttribute at 1.
    destruct (valid_attribute_name key).
    + rewrite bind_ret. cbn [set_attribute andb].
      destruct (IH tag (set_assoc (ascii_lowercase key) value attrs) children)
        as [attrs' [Hrun Hread]].
      exists attrs'. split; [exact Hrun |].
      intros name Hvalid. rewrite (Hread name Hvalid), assoc_set_assoc.
      cbn [last_value]. destruct (last_value name rest); [reflexivity |].
      destruct (String.eqb (ascii_lowercase key) name); reflexivity.
    + exists attrs. split; [reflexivity | intros name H; discriminate H].
Qed.

(** X16.  [TextProcessor.createElement] returns exactly when the tag name
    and every attribute name are valid DOM names, and throws an
    InvalidCharacterError otherwise.  The element it returns has the tag
    in lower case, the processed text as its parsed content, and reads
    back for every attribute name the value of the last key equal to it
    up to ASCII case. *)
Theorem createElement_attributes :
  forall (tagName : string) (localizedText : JsValue) (language : string)
         (attributes : list (string * string)),
    if names_valid tagName attributes
    then exists element,
           result (TextProcessor.createElement tagName localizedText
                     language attributes) = Ok element
           /\ localName_of element = ascii_lowercase tagName
           /\ children_of element
              = parsed (TextProcessor.processLocalizedText localizedText
                          language)
           /\ forall name,
                getAttribute element (ascii_lowercase name)
                = last_value (ascii_lowercase name) attributes
    else result (TextProcessor.createElement tagName localizedText
                   language attributes) = Throw InvalidCharacterError.
Proof.
  intros tagName localizedText language attributes.
  unfold names_valid, TextProcessor.createElement, Dom.createElement.
  destruct (valid_element_name tagName); [| reflexivity].
  rewrite bind_ret. cbv zeta. cbn [andb].
  change (set_innerHTML (Element (ascii_lowercase tagName) [] [])
            (TextProcessor.processLocalizedText localizedText language))
    with (Element (ascii_lowercase tagName) []
            (parsed (TextProcessor.processLocalizedText localizedText
                       language))).
  destruct (attributes_loop attributes (ascii_lowercase tagName) []
              (parsed (TextProcessor.processLocalizedText localizedText
                         language)))
    as [attrs' [Hrun Hread]].
  rewrite Hrun.
  destruct (forallb (fun kv => valid_attribute_name (fst kv)) attributes);
    [| reflexivity].
  eexists. split; [reflexivity |].
  split; [reflexivity |]. split; [reflexivity |].
  intros name. unfold getAttribute. cbn [attributes_of].
  rewrite (Hread (ascii_lowercase name) eq_refl).
  destruct (last_value (ascii_lowercase name) attributes); reflexivity.
Qed.
